(** * AI-IDE front end: the Monaco editor host, the toolbar and the assistant

    A shallow embedding of
    [frontend/src/components/EnhancedMonacoEditor_Backup.jsx] (the editor
    host and the chat assistant it is followed by) and of
    [frontend/src/components/EditorToolbar.jsx].

    - [JS]      : the fragment of JavaScript values, strings and property
                  lookup the two components rely on;
    - [Editor]  : [getLanguageFromExtension] and its table;
    - [Toolbar] : [getLanguageFromFile] and its table;
    - [Host]    : the component's refs, its React state, the Monaco objects it
                  owns, the timer queue, and every callback and effect body as
                  a computation in a small state-and-exception monad;
    - [React]   : which effects a commit runs (the dependency arrays), the
                  events a mounted component can receive, and runs of events;
    - [Logic]   : the predicates of the statements;
    - [Text]    : [replace], [trim], [encodeURIComponent] and [slice];
    - [Runner]  : the toolbar's [isExecutableFile] and [handleRunCode];
    - [Assistant] : the chat assistant's state and handlers;
    - [Conditions] : further predicates on the host;
    - [Rules], [Lifecycle], [TeardownFacts], [ModelFacts], [SaveFacts],
      [LanguageFacts], [DeadFacts] and [ModeFacts] : the lemmas; the
      properties of the specification follow them, and then the properties
      of the rest of the code with their own lemmas.

    File names are strings over the ASCII alphabet: [toLowerCase] is modelled
    on the letters A-Z only. *)

From Stdlib Require Import String Ascii List Arith Lia Bool.
From stdpp Require Import base tactics option list strings.
Import ListNotations.

Local Open Scope string_scope.
Local Open Scope list_scope.

(* ===================================================================== *)
(** ** JavaScript values, strings and objects                             *)
(* ===================================================================== *)

Module JS.

(** The values that can come out of a lookup in an object literal whose own
    properties are strings: a string, [undefined], or something inherited
    from [Object.prototype]. *)
Inductive value : Type :=
| Undefined
| Str (s : string)
| ObjectConstructor               (* the global function [Object] *)
| ObjectPrototype                 (* the object [Object.prototype] *)
| Builtin (method : string).      (* a method of [Object.prototype] *)

(** ToBoolean. *)
Definition truthy (v : value) : bool :=
  match v with
  | Undefined => false
  | Str s => negb (s =? "")
  | ObjectConstructor | ObjectPrototype | Builtin _ => true
  end.

(** [a || b]. *)
Definition or (a b : value) : value := if truthy a then a else b.

(** [String.prototype.split] with a one-character separator. *)
Fixpoint split (sep : ascii) (s : string) : list string :=
  match s with
  | EmptyString => [EmptyString]
  | String c rest =>
      if Ascii.eqb c sep then EmptyString :: split sep rest
      else match split sep rest with
           | seg :: segs => String c seg :: segs
           | [] => [String c EmptyString]
           end
  end.

(** [s.includes('.')] *)
Fixpoint hasDot (s : string) : bool :=
  match s with
  | EmptyString => false
  | String c rest => Ascii.eqb c "." || hasDot rest
  end.

(** [Array.prototype.pop]: the last element, [None] for [undefined]. *)
Definition pop (segments : list string) : option string := last segments.

Definition lower (c : ascii) : ascii :=
  let n := nat_of_ascii c in
  if Nat.leb 65 n && Nat.leb n 90 then ascii_of_nat (n + 32) else c.

(** [String.prototype.toLowerCase]. *)
Fixpoint toLowerCase (s : string) : string :=
  match s with
  | EmptyString => EmptyString
  | String c rest => String (lower c) (toLowerCase rest)
  end.

(** ToPropertyKey of an optional string: [undefined] becomes the key
    ["undefined"]. *)
Definition propertyKey (k : option string) : string :=
  match k with Some s => s | None => "undefined" end.

(** An own data property of an object literal. *)
Fixpoint own (table : list (string * string)) (key : string) : option string :=
  match table with
  | [] => None
  | (k, v) :: rest => if k =? key then Some v else own rest key
  end.

(** The properties every ordinary object inherits from [Object.prototype];
    [__proto__] is an accessor that yields the receiver's prototype, which
    for an object literal is [Object.prototype] itself. *)
Definition inherited (key : string) : value :=
  if key =? "constructor" then ObjectConstructor
  else if key =? "__proto__" then ObjectPrototype
  else if existsb (String.eqb key)
            ["hasOwnProperty"; "isPrototypeOf"; "propertyIsEnumerable";
             "toLocaleString"; "toString"; "valueOf";
             "__defineGetter__"; "__defineSetter__";
             "__lookupGetter__"; "__lookupSetter__"]
       then Builtin key
  else Undefined.

(** [obj[key]] for an object literal [obj]: own properties first, then the
    prototype chain. *)
Definition get (table : list (string * string)) (key : option string) : value :=
  match own table (propertyKey key) with
  | Some v => Str v
  | None => inherited (propertyKey key)
  end.

End JS.

(** The project's file objects. The editor reads [id], [metadata?.name] and
    [content]; the toolbar reads [name]. *)
Record Metadata : Type := { md_name : option string }.

Record File : Type := {
  id : string;
  name : option string;
  metadata : option Metadata;
  content : option string
}.

(* ===================================================================== *)
(** ** The editor's language detector                                     *)
(* ===================================================================== *)

Module Editor.

Definition languageMap : list (string * string) :=
  [ ("js", "javascript"); ("jsx", "javascript");
    ("ts", "typescript"); ("tsx", "typescript");
    ("py", "python");
    ("html", "html"); ("htm", "html");
    ("css", "css"); ("scss", "scss"); ("sass", "sass");
    ("json", "json"); ("md", "markdown"); ("txt", "plaintext");
    ("xml", "xml"); ("yml", "yaml"); ("yaml", "yaml");
    ("sh", "shell"); ("bash", "shell");
    ("sql", "sql"); ("php", "php"); ("java", "java");
    ("cpp", "cpp"); ("c", "c"); ("cs", "csharp");
    ("go", "go"); ("rs", "rust"); ("rb", "ruby") ].

(** [filename?.split('.').pop()?.toLowerCase()] *)
Definition extensionOf (filename : option string) : option string :=
  match filename with
  | None => None
  | Some f => JS.toLowerCase <$> JS.pop (JS.split "." f)
  end.

Definition getLanguageFromExtension (filename : option string) : JS.value :=
  let extension := extensionOf filename in
  JS.or (JS.get languageMap extension) (JS.Str "plaintext").

(** [currentFile.metadata?.name] *)
Definition metadataName (f : File) : option string :=
  match metadata f with Some m => md_name m | None => None end.

End Editor.

(* ===================================================================== *)
(** ** The toolbar's language detector                                    *)
(* ===================================================================== *)

Module Toolbar.

Definition languageMap : list (string * string) :=
  [ ("js", "javascript"); ("jsx", "javascript"); ("mjs", "javascript");
    ("ts", "typescript"); ("tsx", "typescript");
    ("py", "python"); ("pyx", "python"); ("pyi", "python");
    ("java", "java"); ("class", "java");
    ("c", "c"); ("h", "c");
    ("cpp", "cpp"); ("cc", "cpp"); ("cxx", "cpp");
    ("cs", "csharp");
    ("go", "go");
    ("rs", "rust");
    ("rb", "ruby");
    ("php", "php");
    ("pl", "perl");
    ("lua", "lua");
    ("swift", "swift");
    ("kt", "kotlin"); ("kts", "kotlin");
    ("scala", "scala"); ("sc", "scala");
    ("r", "r"); ("R", "r");
    ("ex", "elixir"); ("exs", "elixir");
    ("erl", "erlang");
    ("hs", "haskell"); ("lhs", "haskell");
    ("dart", "dart");
    ("groovy", "groovy");
    ("sh", "bash"); ("bash", "bash");
    ("html", "html"); ("htm", "html");
    ("css", "css");
    ("svg", "svg");
    ("xml", "xml") ].

(** [!file?.name]: no file, no name, or the empty name. *)
Definition nameless (file : option File) : bool :=
  match file with
  | None => true
  | Some f => match name f with
              | None => true
              | Some n => n =? ""
              end
  end.

Definition getLanguageFromFile (file : option File) : JS.value :=
  match file with
  | Some {| name := Some n |} =>
      if n =? "" then JS.Str "javascript"
      else
        let extension := JS.toLowerCase <$> JS.pop (JS.split "." n) in
        JS.or (JS.get languageMap extension) (JS.Str "javascript")
  | _ => JS.Str "javascript"
  end.

End Toolbar.

(* ===================================================================== *)
(** ** The editor host                                                    *)
(* ===================================================================== *)

Module Host.

(** *** Props and context of one render

    [theme], [fontSize], [autoSave] and [autoSaveDelay] are the component's
    props; [currentFile] comes from the project context. The callbacks
    created during a render ([debouncedSave], [handleSave], the content
    listener) close over these values. *)
Record Props : Type := {
  theme : string;
  fontSize : nat;
  autoSave : bool;
  autoSaveDelay : nat;
  currentFile : option File
}.

(** *** Monaco objects *)

Record TextModel : Type := {
  tm_value : string;
  tm_language : JS.value;
  tm_disposed : bool
}.

(** An editing surface. It is created with [value: ''], a buffer of its own
    that the library manages ([es_value]); [es_model] is the model the host
    attached with [setModel], if any. [es_listener] and [es_command] hold the
    render whose closures were registered with [onDidChangeModelContent] and
    [addCommand]. *)
Record EditorSession : Type := {
  es_model : option nat;
  es_value : string;
  es_theme : string;
  es_fontSize : nat;
  es_disposed : bool;
  es_listener : option Props;
  es_command : option Props
}.

(** What [safeDispose] can be handed. *)
Inductive Resource : Type :=
| REditor (e : nat)
| RModel (m : nat)
| RListener (e : nat).

(** *** Timers and the persist operation *)

(** A pending [setTimeout] of [debouncedSave]: the callback closes over
    [content] and over the render that created [debouncedSave]. *)
Record Timer : Type := {
  t_id : nat;
  t_due : nat;
  t_content : string;
  t_closure : Props
}.

Inductive SaveKind : Type := AutoSave | ManualSave.

(** One call [saveFileContent(fileId, content)]. *)
Record PersistCall : Type := {
  p_time : nat;
  p_file : string;
  p_content : string;
  p_kind : SaveKind
}.

(** How the promise of a persist call settles; a rejection carries the
    [message] of the [Error] it rejects with. *)
Inductive PersistResult : Type :=
| Resolved
| Rejected (message : string).

(** *** State *)

Record Refs : Type := {
  editorRef : option nat;
  containerRef : bool;
  saveTimeoutRef : option nat;
  modelRef : option nat;
  disposablesRef : list Resource;
  isDisposedRef : bool
}.

Record EditorUIState : Type := {
  isLoading : bool;
  hasUnsavedChanges : bool;
  language : JS.value
}.

(** The library's side: every surface and model ever created (an object's
    index is its identity), the global theme, and the failures the library
    is going to raise: each call that can raise takes the next entry, and
    [Some msg] makes it throw [Error(msg)]. [peakLive] is a record the
    library keeps for the observer: the largest number of models that have
    been live at the same moment so far. Only the creation of a model can
    raise that number, and it updates the record. *)
Record Monaco : Type := {
  editors : list EditorSession;
  models : list TextModel;
  globalTheme : string;
  faults : list (option string);
  peakLive : nat
}.

(** Timer ids are positive, as in a browser, so that the truthiness test on
    [saveTimeoutRef.current] is a test for presence. *)
Record EventLoop : Type := {
  now : nat;
  timers : list Timer;
  nextTimer : nat
}.

(** The project context: the calls made to [saveFileContent], those whose
    promise has not settled yet, and the strings given to [setError]. *)
Record Collaborators : Type := {
  persisted : list PersistCall;
  inflight : list PersistCall;
  errors : list string
}.

Record State : Type := {
  refs : Refs;
  editorState : EditorUIState;
  monaco : Monaco;
  loop : EventLoop;
  project : Collaborators
}.

(** Field updates. *)
Definition with_refs (f : Refs -> Refs) (s : State) : State :=
  {| refs := f (refs s); editorState := editorState s; monaco := monaco s;
     loop := loop s; project := project s |}.
Definition with_editorState (f : EditorUIState -> EditorUIState) (s : State) : State :=
  {| refs := refs s; editorState := f (editorState s); monaco := monaco s;
     loop := loop s; project := project s |}.
Definition with_monaco (f : Monaco -> Monaco) (s : State) : State :=
  {| refs := refs s; editorState := editorState s; monaco := f (monaco s);
     loop := loop s; project := project s |}.
Definition with_loop (f : EventLoop -> EventLoop) (s : State) : State :=
  {| refs := refs s; editorState := editorState s; monaco := monaco s;
     loop := f (loop s); project := project s |}.
Definition with_project (f : Collaborators -> Collaborators) (s : State) : State :=
  {| refs := refs s; editorState := editorState s; monaco := monaco s;
     loop := loop s; project := f (project s) |}.

Definition set_editorRef v (r : Refs) : Refs :=
  {| editorRef := v; containerRef := containerRef r;
     saveTimeoutRef := saveTimeoutRef r; modelRef := modelRef r;
     disposablesRef := disposablesRef r; isDisposedRef := isDisposedRef r |}.
Definition set_saveTimeoutRef v (r : Refs) : Refs :=
  {| editorRef := editorRef r; containerRef := containerRef r;
     saveTimeoutRef := v; modelRef := modelRef r;
     disposablesRef := disposablesRef r; isDisposedRef := isDisposedRef r |}.
Definition set_modelRef v (r : Refs) : Refs :=
  {| editorRef := editorRef r; containerRef := containerRef r;
     saveTimeoutRef := saveTimeoutRef r; modelRef := v;
     disposablesRef := disposablesRef r; isDisposedRef := isDisposedRef r |}.
Definition set_disposablesRef v (r : Refs) : Refs :=
  {| editorRef := editorRef r; containerRef := containerRef r;
     saveTimeoutRef := saveTimeoutRef r; modelRef := modelRef r;
     disposablesRef := v; isDisposedRef := isDisposedRef r |}.
Definition set_isDisposedRef v (r : Refs) : Refs :=
  {| editorRef := editorRef r; containerRef := containerRef r;
     saveTimeoutRef := saveTimeoutRef r; modelRef := modelRef r;
     disposablesRef := disposablesRef r; isDisposedRef := v |}.

Definition set_isLoading v (u : EditorUIState) : EditorUIState :=
  {| isLoading := v; hasUnsavedChanges := hasUnsavedChanges u;
     language := language u |}.
Definition set_hasUnsavedChanges v (u : EditorUIState) : EditorUIState :=
  {| isLoading := isLoading u; hasUnsavedChanges := v;
     language := language u |}.
Definition set_language v (u : EditorUIState) : EditorUIState :=
  {| isLoading := isLoading u; hasUnsavedChanges := hasUnsavedChanges u;
     language := v |}.

Definition set_editors v (m : Monaco) : Monaco :=
  {| editors := v; models := models m; globalTheme := globalTheme m;
     faults := faults m; peakLive := peakLive m |}.
Definition set_models v (m : Monaco) : Monaco :=
  {| editors := editors m; models := v; globalTheme := globalTheme m;
     faults := faults m; peakLive := peakLive m |}.
Definition set_globalTheme v (m : Monaco) : Monaco :=
  {| editors := editors m; models := models m; globalTheme := v;
     faults := faults m; peakLive := peakLive m |}.
Definition set_faults v (m : Monaco) : Monaco :=
  {| editors := editors m; models := models m; globalTheme := globalTheme m;
     faults := v; peakLive := peakLive m |}.
Definition set_peakLive v (m : Monaco) : Monaco :=
  {| editors := editors m; models := models m; globalTheme := globalTheme m;
     faults := faults m; peakLive := v |}.

Definition set_now v (l : EventLoop) : EventLoop :=
  {| now := v; timers := timers l; nextTimer := nextTimer l |}.
Definition set_timers v (l : EventLoop) : EventLoop :=
  {| now := now l; timers := v; nextTimer := nextTimer l |}.
Definition set_nextTimer v (l : EventLoop) : EventLoop :=
  {| now := now l; timers := timers l; nextTimer := v |}.

Definition set_persisted v (c : Collaborators) : Collaborators :=
  {| persisted := v; inflight := inflight c; errors := errors c |}.
Definition set_inflight v (c : Collaborators) : Collaborators :=
  {| persisted := persisted c; inflight := v; errors := errors c |}.
Definition set_errors v (c : Collaborators) : Collaborators :=
  {| persisted := persisted c; inflight := inflight c; errors := v |}.

Definition set_es_model v (e : EditorSession) : EditorSession :=
  {| es_model := v; es_value := es_value e; es_theme := es_theme e;
     es_fontSize := es_fontSize e; es_disposed := es_disposed e;
     es_listener := es_listener e; es_command := es_command e |}.
Definition set_es_value v (e : EditorSession) : EditorSession :=
  {| es_model := es_model e; es_value := v; es_theme := es_theme e;
     es_fontSize := es_fontSize e; es_disposed := es_disposed e;
     es_listener := es_listener e; es_command := es_command e |}.
Definition set_es_fontSize v (e : EditorSession) : EditorSession :=
  {| es_model := es_model e; es_value := es_value e; es_theme := es_theme e;
     es_fontSize := v; es_disposed := es_disposed e;
     es_listener := es_listener e; es_command := es_command e |}.
Definition set_es_disposed v (e : EditorSession) : EditorSession :=
  {| es_model := es_model e; es_value := es_value e; es_theme := es_theme e;
     es_fontSize := es_fontSize e; es_disposed := v;
     es_listener := es_listener e; es_command := es_command e |}.
Definition set_es_listener v (e : EditorSession) : EditorSession :=
  {| es_model := es_model e; es_value := es_value e; es_theme := es_theme e;
     es_fontSize := es_fontSize e; es_disposed := es_disposed e;
     es_listener := v; es_command := es_command e |}.
Definition set_es_command v (e : EditorSession) : EditorSession :=
  {| es_model := es_model e; es_value := es_value e; es_theme := es_theme e;
     es_fontSize := es_fontSize e; es_disposed := es_disposed e;
     es_listener := es_listener e; es_command := v |}.

Definition set_tm_value v (m : TextModel) : TextModel :=
  {| tm_value := v; tm_language := tm_language m; tm_disposed := tm_disposed m |}.
Definition set_tm_disposed v (m : TextModel) : TextModel :=
  {| tm_value := tm_value m; tm_language := tm_language m; tm_disposed := v |}.

(** *** The monad: state, and exceptions carrying [error.message] *)

Inductive Outcome (A : Type) : Type :=
| Return (a : A)
| Throw (message : string).
Arguments Return {A} a.
Arguments Throw {A} message.

Definition M (A : Type) : Type := State -> Outcome A * State.

Definition ret {A} (a : A) : M A := fun s => (Return a, s).
Definition throw {A} (message : string) : M A := fun s => (Throw message, s).
Definition bind {A B} (m : M A) (k : A -> M B) : M B :=
  fun s => match m s with
           | (Return a, s') => k a s'
           | (Throw e, s') => (Throw e, s')
           end.
(** [try { m } catch (error) { handler(error.message) }] *)
Definition try_catch {A} (m : M A) (handler : string -> M A) : M A :=
  fun s => match m s with
           | (Return a, s') => (Return a, s')
           | (Throw e, s') => handler e s'
           end.
Definition gets {A} (f : State -> A) : M A := fun s => (Return (f s), s).
Definition modify (f : State -> State) : M unit := fun s => (Return tt, f s).
Definition when (b : bool) (m : M unit) : M unit := if b then m else ret tt.

(** The state a computation leaves, and whether it raised. *)
Definition exec {A} (m : M A) (s : State) : State := snd (m s).
Definition raises {A} (m : M A) (s : State) : bool :=
  match fst (m s) with Return _ => false | Throw _ => true end.

Declare Scope host_scope.
Delimit Scope host_scope with host.
Notation "x <- m ;; k" := (bind m (fun x => k))
  (at level 100, m at next level, k at level 200, right associativity) : host_scope.
Notation "m ;; k" := (bind m (fun _ => k))
  (at level 100, k at level 200, right associativity) : host_scope.
Local Open Scope host_scope.

(** [list.forEach(f)] *)
Fixpoint forEach {A} (l : list A) (f : A -> M unit) : M unit :=
  match l with
  | [] => ret tt
  | x :: rest => f x ;; forEach rest f
  end.

(** *** The Monaco library, as far as the host can observe it

    The calls the component guards with [try]/[catch], and [setValue], can
    raise: they take the next entry of [faults]. A call that raises has no
    other effect, except [dispose]: the resource is released whether or not
    the call raises. *)

Definition mayRaise : M unit :=
  fun s => match faults (monaco s) with
           | [] => (Return tt, s)
           | None :: rest => (Return tt, with_monaco (set_faults rest) s)
           | Some msg :: rest => (Throw msg, with_monaco (set_faults rest) s)
           end.

Definition update_editor (e : nat) (f : EditorSession -> EditorSession) : M unit :=
  modify (with_monaco (fun m => set_editors (alter f e (editors m)) m)).

Definition update_model (m : nat) (f : TextModel -> TextModel) : M unit :=
  modify (with_monaco (fun mo => set_models (alter f m (models mo)) mo)).

(** [monaco.editor.create(container, {value: '', theme, fontSize, ...})] *)
Definition monaco_editor_create (th : string) (size : nat) : M nat :=
  fun s =>
    (Return (length (editors (monaco s))),
     with_monaco (fun m => set_editors
       (editors m ++ [ {| es_model := None; es_value := ""; es_theme := th;
                          es_fontSize := size; es_disposed := false;
                          es_listener := None; es_command := None |} ]) m) s).

(** The number of models of a list that are live. *)
Definition countLive (l : list TextModel) : nat :=
  length (filter (fun tm => tm_disposed tm = false) l).

(** [monaco.editor.createModel(value, language)]: the new model is live
    from the moment it exists, beside whatever model is live then. *)
Definition monaco_editor_createModel (value : string) (lang : JS.value) : M nat :=
  mayRaise ;;
  fun s =>
    (Return (length (models (monaco s))),
     with_monaco (fun m =>
       let created := models m ++ [ {| tm_value := value; tm_language := lang;
                                       tm_disposed := false |} ] in
       set_peakLive (Nat.max (peakLive m) (countLive created))
         (set_models created m)) s).

(** The text an editing surface shows. A disposed surface has let go of
    its model and shows nothing. *)
Definition valueOf (s : State) (e : nat) : string :=
  match editors (monaco s) !! e with
  | None => ""
  | Some ed =>
      if es_disposed ed then ""
      else
        match es_model ed with
        | None => es_value ed
        | Some m => match models (monaco s) !! m with
                    | Some tm => tm_value tm
                    | None => ""
                    end
        end
  end.

(** [editor.getValue()] *)
Definition getValue (e : nat) : M string := gets (fun s => valueOf s e).

(** The text of a surface is replaced, in its attached model or else in its
    own buffer. *)
Definition writeBuffer (e : nat) (text : string) : M unit :=
  ed <- gets (fun s => editors (monaco s) !! e) ;;
  match ed with
  | None => ret tt
  | Some ed =>
      match es_model ed with
      | None => update_editor e (set_es_value text)
      | Some m => update_model m (set_tm_value text)
      end
  end.

(** [editor.setModel(model)] *)
Definition setModel (e m : nat) : M unit :=
  mayRaise ;; update_editor e (set_es_model (Some m)).

(** [editor.focus()] *)
Definition focus (e : nat) : M unit := mayRaise.

(** [editor.updateOptions({ fontSize })] *)
Definition updateOptions (e : nat) (size : nat) : M unit :=
  update_editor e (set_es_fontSize size).

(** [monaco.editor.setTheme(name)] *)
Definition monaco_editor_setTheme (th : string) : M unit :=
  modify (with_monaco (set_globalTheme th)).

(** What [dispose] does to the resource. *)
Definition release (r : Resource) : M unit :=
  match r with
  | REditor e => update_editor e (set_es_disposed true)
  | RModel m => update_model m (set_tm_disposed true)
  | RListener e => update_editor e (set_es_listener None)
  end.

(** [resource.dispose()]: the library releases the resource first, so a
    call that raises has released it all the same. *)
Definition dispose (r : Resource) : M unit :=
  release r ;; mayRaise.

(** [setTimeout(callback, delay)] for the callback of [debouncedSave]. *)
Definition setTimeout (text : string) (closure : Props) (delay : nat) : M nat :=
  fun s =>
    let l := loop s in
    (Return (nextTimer l),
     with_loop (fun l => {| now := now l;
                            timers := timers l ++
                              [ {| t_id := nextTimer l; t_due := now l + delay;
                                   t_content := text; t_closure := closure |} ];
                            nextTimer := S (nextTimer l) |}) s).

(** [clearTimeout(id)] *)
Definition clearTimeout (i : nat) : M unit :=
  modify (with_loop (fun l =>
    set_timers (filter (fun t => t_id t <> i) (timers l)) l)).

(** *** The project context *)

(** [saveFileContent(fileId, content)]: the call is made now, its promise
    settles later (see [settle]). *)
Definition saveFileContent (fileId text : string) (kind : SaveKind) : M unit :=
  modify (fun s =>
    let call := {| p_time := now (loop s); p_file := fileId;
                   p_content := text; p_kind := kind |} in
    with_project (fun c => {| persisted := persisted c ++ [call];
                              inflight := inflight c ++ [call];
                              errors := errors c |}) s).

Definition setError (message : string) : M unit :=
  modify (with_project (fun c => set_errors (errors c ++ [message]) c)).

(** [setEditorState(prev => f(prev))] *)
Definition setEditorState (f : EditorUIState -> EditorUIState) : M unit :=
  modify (with_editorState f).

(** *** Callbacks of the component *)

(** Whether [resource.isDisposed] is truthy: a model has a method of that
    name, a surface and a listener subscription have no such property. *)
Definition isDisposedProperty (r : Resource) : bool :=
  match r with
  | RModel _ => true
  | REditor _ | RListener _ => false
  end.

(** Every resource has a [dispose] function, so the first branch calls it
    when [resource.isDisposed] is falsy and the second one when it is not;
    the [catch] only logs. *)
Definition safeDispose (resource : option Resource) : M unit :=
  match resource with
  | None => ret tt
  | Some r =>
      try_catch
        (if negb (isDisposedProperty r) then dispose r else dispose r)
        (fun _ => ret tt)
  end.

Definition clearDisposables : M unit :=
  disposed <- gets (fun s => isDisposedRef (refs s)) ;;
  if disposed then ret tt
  else
    ds <- gets (fun s => disposablesRef (refs s)) ;;
    forEach ds (fun d => safeDispose (Some d)) ;;
    modify (with_refs (set_disposablesRef [])).

(** [debouncedSave(content)], as created by the render [p]. *)
Definition debouncedSave (p : Props) (text : string) : M unit :=
  pending <- gets (fun s => saveTimeoutRef (refs s)) ;;
  match pending with
  | Some i => clearTimeout i
  | None => ret tt
  end ;;
  i <- setTimeout text p (autoSaveDelay p) ;;
  modify (with_refs (set_saveTimeoutRef (Some i))).

(** The callback given to [setTimeout], up to its [await]. *)
Definition timerBody (t : Timer) : M unit :=
  match currentFile (t_closure t) with
  | Some f =>
      if autoSave (t_closure t)
      then saveFileContent (id f) (t_content t) AutoSave
      else ret tt
  | None => ret tt
  end.

(** [handleSave()], as created by the render [p], up to its [await]. *)
Definition handleSave (p : Props) : M unit :=
  match currentFile p with
  | None => ret tt
  | Some f =>
      ed <- gets (fun s => editorRef (refs s)) ;;
      match ed with
      | None => ret tt
      | Some e =>
          try_catch
            (text <- getValue e ;;
             saveFileContent (id f) text ManualSave)
            (fun msg => setError ("Save failed: " ++ msg))
      end
  end.

(** What follows the [await] of a persist call, in [debouncedSave]'s
    callback and in [handleSave]. *)
Definition afterSave (kind : SaveKind) (r : PersistResult) : M unit :=
  match r with
  | Resolved => setEditorState (set_hasUnsavedChanges false)
  | Rejected msg =>
      match kind with
      | AutoSave => setError ("Auto-save failed: " ++ msg)
      | ManualSave => setError ("Save failed: " ++ msg)
      end
  end.

(** The promise of the [k]-th pending persist call settles. *)
Definition settle (k : nat) (r : PersistResult) : M unit :=
  call <- gets (fun s => inflight (project s) !! k) ;;
  match call with
  | None => ret tt
  | Some c =>
      modify (with_project (fun pr => set_inflight (delete k (inflight pr)) pr)) ;;
      afterSave (p_kind c) r
  end.

(** The listener given to [editor.onDidChangeModelContent] by the render
    [p], for the surface [e] it was created with. *)
Definition contentListener (p : Props) (e : nat) : M unit :=
  setEditorState (set_hasUnsavedChanges true) ;;
  if autoSave p then
    text <- getValue e ;;
    debouncedSave p text
  else ret tt.

(** The library notifies the content listener of a live surface. *)
Definition fireContentChanged (e : nat) : M unit :=
  ed <- gets (fun s => editors (monaco s) !! e) ;;
  match ed with
  | Some {| es_disposed := false; es_listener := Some p |} => contentListener p e
  | _ => ret tt
  end.

(** [editor.setValue(text)] *)
Definition setValue (e : nat) (text : string) : M unit :=
  mayRaise ;; writeBuffer e text ;; fireContentChanged e.

(** *** Effects of the component *)

Definition monacoTheme (th : string) : string :=
  if th =? "light" then "ai-ide-light" else "ai-ide-dark".

(** The body of the effect that creates the editing surface, for the
    render [p]. It returns the surface its cleanup closes over, or [None]
    when it returns early, without a cleanup. The two [defineTheme] calls
    leave no trace in the state. *)
Definition initEffect (p : Props) : M (option nat) :=
  container <- gets (fun s => containerRef (refs s)) ;;
  disposed <- gets (fun s => isDisposedRef (refs s)) ;;
  if negb container || disposed then ret None
  else
    modify (with_refs (set_isDisposedRef false)) ;;
    editor <- monaco_editor_create (monacoTheme (theme p)) (fontSize p) ;;
    update_editor editor (set_es_listener (Some p)) ;;
    update_editor editor (set_es_command (Some p)) ;;
    modify (with_refs (set_editorRef (Some editor))) ;;
    modify (with_refs (fun r =>
      set_disposablesRef (disposablesRef r ++ [RListener editor]) r)) ;;
    ret (Some editor).

(** The cleanup returned by [initEffect]; [editor] is the surface that run
    of the effect created. *)
Definition initCleanup (editor : nat) : M unit :=
  modify (with_refs (set_isDisposedRef true)) ;;
  clearDisposables ;;
  safeDispose (Some (REditor editor)) ;;
  pending <- gets (fun s => saveTimeoutRef (refs s)) ;;
  match pending with
  | Some i => clearTimeout i ;; modify (with_refs (set_saveTimeoutRef None))
  | None => ret tt
  end ;;
  modify (with_refs (set_editorRef None)).

(** [currentFile.content || ''] *)
Definition contentOrEmpty (f : File) : string :=
  match content f with Some c => c | None => "" end.

(** The step of [loadEffect] that the source introduces with "Dispose
    previous model if exists". *)
Definition disposePreviousModel : M unit :=
  previous <- gets (fun s => modelRef (refs s)) ;;
  match previous with
  | Some m =>
      safeDispose (Some (RModel m)) ;;
      modify (with_refs (set_modelRef None))
  | None => ret tt
  end.

(** The body of the effect that loads [currentFile], for the render [p].
    The first [match] is the guard
    [!editorRef.current || !currentFile || isDisposedRef.current]. *)
Definition loadEffect (p : Props) : M unit :=
  ed <- gets (fun s => editorRef (refs s)) ;;
  disposed <- gets (fun s => isDisposedRef (refs s)) ;;
  match ed, currentFile p, disposed with
  | Some _, Some f, false =>
      setEditorState (set_isLoading true) ;;
      try_catch
        (let lang := Editor.getLanguageFromExtension (Editor.metadataName f) in
         disposePreviousModel ;;
         model <- monaco_editor_createModel (contentOrEmpty f) lang ;;
         modify (with_refs (set_modelRef (Some model))) ;;
         ed' <- gets (fun s => editorRef (refs s)) ;;
         disposed' <- gets (fun s => isDisposedRef (refs s)) ;;
         attached <-
           match ed', disposed' with
           | Some e, false =>
               try_catch (setModel e model ;; ret true)
                         (fun _ => ret false)      (* [return;] *)
           | _, _ => ret true
           end ;;
         if attached : bool then
           setEditorState (fun u =>
             {| isLoading := false; language := lang;
                hasUnsavedChanges := false |}) ;;
           match ed' with
           | Some e => focus e
           | None => throw "Cannot read properties of null (reading 'focus')"
           end
         else ret tt)
        (fun msg =>
           setError ("Failed to load file: " ++ msg) ;;
           setEditorState (set_isLoading false))
  | Some e, None, _ =>
      setValue e "" ;;
      setEditorState (set_language (JS.Str "javascript"))
  | _, _, _ => ret tt
  end.

Definition themeEffect (p : Props) : M unit :=
  ed <- gets (fun s => editorRef (refs s)) ;;
  match ed with
  | Some _ => monaco_editor_setTheme (monacoTheme (theme p))
  | None => ret tt
  end.

Definition fontSizeEffect (p : Props) : M unit :=
  ed <- gets (fun s => editorRef (refs s)) ;;
  match ed with
  | Some e => updateOptions e (fontSize p)
  | None => ret tt
  end.

(** The cleanup of the last effect, which runs when the component
    unmounts. *)
Definition unmountCleanup : M unit :=
  modify (with_refs (set_isDisposedRef true)) ;;
  clearDisposables ;;
  m <- gets (fun s => modelRef (refs s)) ;;
  safeDispose (RModel <$> m) ;;
  pending <- gets (fun s => saveTimeoutRef (refs s)) ;;
  match pending with
  | Some i => clearTimeout i ;; modify (with_refs (set_saveTimeoutRef None))
  | None => ret tt
  end ;;
  modify (with_refs (set_modelRef None)) ;;
  modify (with_refs (set_editorRef None)).

(** *** What the environment does to a live surface *)

(** A surface accepts input while it is not disposed and what it shows is
    not a disposed model. *)
Definition editable (s : State) (e : nat) : bool :=
  match editors (monaco s) !! e with
  | None => false
  | Some ed =>
      negb (es_disposed ed) &&
      match es_model ed with
      | None => true
      | Some m => match models (monaco s) !! m with
                  | Some tm => negb (tm_disposed tm)
                  | None => false
                  end
      end
  end.

(** The user edits the surface [e], which then shows [text]. *)
Definition edit (e : nat) (text : string) : M unit :=
  ok <- gets (fun s => editable s e) ;;
  if ok : bool then writeBuffer e text ;; fireContentChanged e else ret tt.

(** The user presses Ctrl/Cmd+S in the surface [e]. *)
Definition pressSave (e : nat) : M unit :=
  ed <- gets (fun s => editors (monaco s) !! e) ;;
  match ed with
  | Some {| es_disposed := false; es_command := Some p |} => handleSave p
  | _ => ret tt
  end.

(** *** The timer queue *)

(** A pending timer fires: it leaves the queue and its callback runs, no
    earlier than it is due. *)
Definition fire (t : Timer) : M unit :=
  modify (with_loop (fun l =>
    {| now := Nat.max (now l) (t_due t);
       timers := filter (fun u => t_id u <> t_id t) (timers l);
       nextTimer := nextTimer l |})) ;;
  timerBody t.

Fixpoint insertByDue (t : Timer) (l : list Timer) : list Timer :=
  match l with
  | [] => [t]
  | u :: rest =>
      if Nat.leb (t_due t) (t_due u) then t :: l else u :: insertByDue t rest
  end.

(** Pending timers in the order they fire: by due time, then by age. *)
Definition dueOrder (l : list Timer) : list Timer := foldr insertByDue [] l.

(** The clock moves to [t]; every timer due by then fires at its due
    time. *)
Definition advanceTo (t : nat) : M unit :=
  due <- gets (fun s =>
           dueOrder (filter (fun u => t_due u <= t) (timers (loop s)))) ;;
  forEach due fire ;;
  modify (with_loop (fun l => set_now (Nat.max (now l) t) l)).

(** The state of a component that has rendered but run no effect yet. *)
Definition initial (fs : list (option string)) : State :=
  {| refs := {| editorRef := None; containerRef := true;
                saveTimeoutRef := None; modelRef := None;
                disposablesRef := []; isDisposedRef := false |};
     editorState := {| isLoading := false; hasUnsavedChanges := false;
                       language := JS.Str "javascript" |};
     monaco := {| editors := []; models := []; globalTheme := "";
                  faults := fs; peakLive := 0 |};
     loop := {| now := 0; timers := []; nextTimer := 1 |};
     project := {| persisted := []; inflight := []; errors := [] |} |}.

End Host.

(* ===================================================================== *)
(** ** The component under React                                          *)
(* ===================================================================== *)

Module React.
Import Host.
Local Open Scope host_scope.

#[global] Instance Metadata_eq_dec : EqDecision Metadata.
Proof. solve_decision. Defined.
#[global] Instance File_eq_dec : EqDecision File.
Proof. solve_decision. Defined.

(** A mounted component: the host's state, the props of the last commit,
    the surface captured by the cleanup that the last run of the init
    effect returned (if it returned one), and the messages of the
    exceptions that escaped an effect or a callback. *)
Record Component : Type := {
  state : State;
  props : Props;
  cleanup : option nat;
  uncaught : list string
}.

(** An effect body or callback runs to its end or to an exception nobody
    catches. *)
Definition perform (m : M unit) (c : Component) : Component :=
  match m (state c) with
  | (Return _, s) =>
      {| state := s; props := props c; cleanup := cleanup c;
         uncaught := uncaught c |}
  | (Throw e, s) =>
      {| state := s; props := props c; cleanup := cleanup c;
         uncaught := uncaught c ++ [e] |}
  end.

Definition performInit (p : Props) (c : Component) : Component :=
  match initEffect p (state c) with
  | (Return cl, s) =>
      {| state := s; props := props c; cleanup := cl;
         uncaught := uncaught c |}
  | (Throw e, s) =>
      {| state := s; props := props c; cleanup := None;
         uncaught := uncaught c ++ [e] |}
  end.

Definition performCleanup (c : Component) : Component :=
  match cleanup c with
  | Some editor => perform (initCleanup editor) c
  | None => c
  end.

(** The dependency arrays. [safeDispose], [clearDisposables],
    [saveFileContent] and [setError] keep their identity; a current file
    counts as changed when it differs from the previous one, or when one of
    the two is [null] and the other is not.
    - [handleSave]: [currentFile, saveFileContent, setError];
    - [debouncedSave]: [currentFile, autoSave, autoSaveDelay,
      saveFileContent, setError];
    - init effect: [theme, fontSize, handleSave, autoSave, debouncedSave,
      clearDisposables, safeDispose];
    - load effect: [currentFile, setError];
    - theme effect: [theme]; font-size effect: [fontSize]. *)
Definition handleSaveChanged (p q : Props) : bool :=
  bool_decide (currentFile p <> currentFile q).
Definition debouncedSaveChanged (p q : Props) : bool :=
  bool_decide (currentFile p <> currentFile q)
  || bool_decide (autoSave p <> autoSave q)
  || bool_decide (autoSaveDelay p <> autoSaveDelay q).
Definition initDepsChanged (p q : Props) : bool :=
  bool_decide (theme p <> theme q)
  || bool_decide (fontSize p <> fontSize q)
  || handleSaveChanged p q
  || bool_decide (autoSave p <> autoSave q)
  || debouncedSaveChanged p q.
Definition loadDepsChanged (p q : Props) : bool :=
  bool_decide (currentFile p <> currentFile q).
Definition themeDepsChanged (p q : Props) : bool :=
  bool_decide (theme p <> theme q).
Definition fontSizeDepsChanged (p q : Props) : bool :=
  bool_decide (fontSize p <> fontSize q).

Definition set_props (p : Props) (c : Component) : Component :=
  {| state := state c; props := p; cleanup := cleanup c;
     uncaught := uncaught c |}.

Definition onlyIf (b : bool) (f : Component -> Component) (c : Component) :=
  if b then f c else c.

(** Every effect body, in the order the component declares them. *)
Definition effects (p : Props) (c : Component) : Component :=
  perform (fontSizeEffect p)
    (perform (themeEffect p)
      (perform (loadEffect p)
        (performInit p c))).

(** The first commit. *)
Definition mount (p : Props) (fs : list (option string)) : Component :=
  effects p {| state := initial fs; props := p; cleanup := None;
               uncaught := [] |}.

(** A later commit with the props [q]: the cleanups of the effects whose
    dependencies changed, then their bodies, in declaration order. *)
Definition render (q : Props) (c : Component) : Component :=
  let p := props c in
  let c := onlyIf (initDepsChanged p q) performCleanup c in
  let c := onlyIf (initDepsChanged p q) (performInit q) c in
  let c := onlyIf (loadDepsChanged p q) (perform (loadEffect q)) c in
  let c := onlyIf (themeDepsChanged p q) (perform (themeEffect q)) c in
  let c := onlyIf (fontSizeDepsChanged p q) (perform (fontSizeEffect q)) c in
  set_props q c.

(** The component unmounts: every cleanup runs, in declaration order. *)
Definition teardown (c : Component) : Component :=
  perform unmountCleanup (performCleanup c).

Inductive Event : Type :=
| Render (q : Props)                       (* props or current file change *)
| Edit (e : nat) (text : string)           (* the user edits a surface *)
| PressSave (e : nat)                      (* Ctrl/Cmd+S in a surface *)
| AdvanceTo (t : nat)                      (* time passes *)
| Settle (k : nat) (r : PersistResult)     (* a persist call completes *)
| Teardown                                 (* the cleanups run *)
| Effects.                                 (* every effect body runs again *)

Definition step (c : Component) (ev : Event) : Component :=
  match ev with
  | Render q => render q c
  | Edit e text => perform (edit e text) c
  | PressSave e => perform (pressSave e) c
  | AdvanceTo t => perform (advanceTo t) c
  | Settle k r => perform (settle k r) c
  | Teardown => teardown c
  | Effects => effects (props c) c
  end.

(** What the user and the environment do between two commits. *)
Definition userEvent (ev : Event) : bool :=
  match ev with
  | Edit _ _ | PressSave _ | AdvanceTo _ | Settle _ _ => true
  | Render _ | Teardown | Effects => false
  end.

Definition run (evs : list Event) (c : Component) : Component :=
  fold_left step evs c.

(** The effect bodies, cleanups and callbacks taken one at a time, in any
    order: what any scheduling of the component's code can do. *)
Inductive Op : Type :=
| OInitEffect (p : Props)
| OInitCleanup (editor : nat)
| OLoadEffect (p : Props)
| OThemeEffect (p : Props)
| OFontSizeEffect (p : Props)
| OUnmountCleanup
| OEdit (e : nat) (text : string)
| OPressSave (e : nat)
| OAdvanceTo (t : nat)
| OSettle (k : nat) (r : PersistResult).

Definition perform_op (s : State) (o : Op) : State :=
  match o with
  | OInitEffect p => exec (initEffect p) s
  | OInitCleanup e => exec (initCleanup e) s
  | OLoadEffect p => exec (loadEffect p) s
  | OThemeEffect p => exec (themeEffect p) s
  | OFontSizeEffect p => exec (fontSizeEffect p) s
  | OUnmountCleanup => exec unmountCleanup s
  | OEdit e text => exec (edit e text) s
  | OPressSave e => exec (pressSave e) s
  | OAdvanceTo t => exec (advanceTo t) s
  | OSettle k r => exec (settle k r) s
  end.

Definition perform_ops (ops : list Op) (s : State) : State :=
  fold_left perform_op ops s.

End React.

(* ===================================================================== *)
(** ** Files and props of the scenarios                                   *)
(* ===================================================================== *)

Module Scenarios.
Import Host.

(** The component's default props, with the given current file. *)
Definition defaults (file : option File) : Props :=
  {| theme := "vs-dark"; fontSize := 14; autoSave := true;
     autoSaveDelay := 2000; currentFile := file |}.

Definition withTheme (th : string) (p : Props) : Props :=
  {| theme := th; fontSize := fontSize p; autoSave := autoSave p;
     autoSaveDelay := autoSaveDelay p; currentFile := currentFile p |}.

Definition withFontSize (size : nat) (p : Props) : Props :=
  {| theme := theme p; fontSize := size; autoSave := autoSave p;
     autoSaveDelay := autoSaveDelay p; currentFile := currentFile p |}.

Definition named (i n text : string) : File :=
  {| id := i; name := Some n; metadata := Some {| md_name := Some n |};
     content := Some text |}.

Definition f1 : File := named "f1" "main.py" "a".

Definition oddFile : File := named "f2" "notes.constructor" "x".

End Scenarios.

(* ===================================================================== *)
(** ** Predicates of the statements                                       *)
(* ===================================================================== *)

Module Logic.
Import Host.

(** [m], started in a state satisfying [I], leaves a state satisfying
    [I], whether it returns or raises. *)
Definition preserves {A} (I : State -> Prop) (m : M A) : Prop :=
  forall s, I s -> I (exec m s).

(** [m] started in a state satisfying [P] ends in a state and with an
    outcome related by [Q]. *)
Definition triple {A} (P : State -> Prop) (m : M A)
    (Q : Outcome A -> State -> Prop) : Prop :=
  forall s, P s -> Q (fst (m s)) (snd (m s)).

(** [m] never raises. *)
Definition noThrow {A} (m : M A) : Prop :=
  forall s, raises m s = false.

(** Every pending timer is the one [saveTimeoutRef] holds. *)
Definition tracked (s : State) : Prop :=
  forall t, t ∈ timers (loop s) -> saveTimeoutRef (refs s) = Some (t_id t).

Definition disposedState (s : State) : Prop :=
  isDisposedRef (refs s) = true.

Definition noTimers (s : State) : Prop := timers (loop s) = [].

(** The refs after the cleanups, in closed form. *)
Definition torn (modelKept : option nat) (r : Refs) : Refs :=
  {| editorRef := None; containerRef := containerRef r;
     saveTimeoutRef := None; modelRef := modelKept;
     disposablesRef := disposablesRef r; isDisposedRef := true |}.

(** The library's objects, apart from the failures it is going to raise. *)
Definition objects (s : State) : list EditorSession * list TextModel :=
  (editors (monaco s), models (monaco s)).

(** The models that have been created and not disposed. *)
Definition liveModels (s : State) : list TextModel :=
  filter (fun tm => tm_disposed tm = false) (models (monaco s)).

(** Every live model is the one [modelRef] holds. *)
Definition owned (s : State) : Prop :=
  forall i tm, models (monaco s) !! i = Some tm ->
               tm_disposed tm = false -> modelRef (refs s) = Some i.

Definition noLive (s : State) : Prop :=
  forall i tm, models (monaco s) !! i = Some tm -> tm_disposed tm = true.

(** The only live model, if any, is the model [m]. *)
Definition onlyLive (m : nat) (s : State) : Prop :=
  forall i tm, models (monaco s) !! i = Some tm ->
               tm_disposed tm = false -> i = m.

(** No two models have ever been live at the same moment: the library's
    record is at most one, and it covers the models that are live now. *)
Definition neverTwo (s : State) : Prop :=
  length (liveModels s) <= peakLive (monaco s) /\ peakLive (monaco s) <= 1.

(** The surface [e] is the component's live surface, its listener and its
    save command were registered by the render [p], it accepts input, and
    a pending timer, of which there is at most one, was scheduled by that
    listener for the text the surface shows now. *)
Definition ready (p : Props) (e : nat) (s : State) : Prop :=
  editorRef (refs s) = Some e
  /\ (exists ed, editors (monaco s) !! e = Some ed
                 /\ es_disposed ed = false
                 /\ es_listener ed = Some p
                 /\ es_command ed = Some p)
  /\ (forall e' ed, editors (monaco s) !! e' = Some ed ->
                    es_disposed ed = false -> e' = e)
  /\ editable s e = true
  /\ (forall t, t ∈ timers (loop s) ->
        saveTimeoutRef (refs s) = Some (t_id t)
        /\ t_content t = valueOf s e
        /\ t_closure t = p
        /\ autoSave p = true
        /\ now (loop s) <= t_due t)
  /\ length (timers (loop s)) <= 1.

(** The call a debounced save of [text] for the file [f] makes when its
    timer fires at [time]. *)
Definition autoSaveCall (time : nat) (f : File) (text : string) : PersistCall :=
  {| p_time := time; p_file := id f; p_content := text; p_kind := AutoSave |}.

Definition manualSaveCall (time : nat) (f : File) (text : string) : PersistCall :=
  {| p_time := time; p_file := id f; p_content := text; p_kind := ManualSave |}.

(** An invariant of the host: every effect body, cleanup and callback
    preserves it. *)
Record Invariant (I : State -> Prop) : Prop := {
  inv_initEffect : forall p, preserves I (initEffect p);
  inv_initCleanup : forall e, preserves I (initCleanup e);
  inv_loadEffect : forall p, preserves I (loadEffect p);
  inv_themeEffect : forall p, preserves I (themeEffect p);
  inv_fontSizeEffect : forall p, preserves I (fontSizeEffect p);
  inv_unmountCleanup : preserves I unmountCleanup;
  inv_edit : forall e text, preserves I (edit e text);
  inv_pressSave : forall e, preserves I (pressSave e);
  inv_advanceTo : forall t, preserves I (advanceTo t);
  inv_settle : forall k r, preserves I (settle k r)
}.

End Logic.

(* ===================================================================== *)
(** ** String and array built-ins of the toolbar and the assistant        *)
(* ===================================================================== *)

Module Text.

(** The two characters the command templates escape. *)
Definition dq : string := String "034"%char EmptyString.
Definition nl : string := String "010"%char EmptyString.

Fixpoint drop (n : nat) (s : string) : string :=
  match n, s with
  | 0, _ => s
  | S n', String _ rest => drop n' rest
  | S _, EmptyString => EmptyString
  end.

(** [s.replace(pattern, replacement)] for a string [pattern]: the first
    occurrence only; [replacement] has no [$]. *)
Fixpoint replace (pattern replacement s : string) : string :=
  if String.prefix pattern s
  then (replacement ++ drop (String.length pattern) s)%string
  else match s with
       | EmptyString => EmptyString
       | String c rest => String c (replace pattern replacement rest)
       end.

(** [s.endsWith(suffix)] *)
Definition endsWith (suffix s : string) : bool :=
  Nat.leb (String.length suffix) (String.length s)
  && (drop (String.length s - String.length suffix) s =? suffix)%string.

(** [s.replace(/(a|b|...)$/, replacement)], the alternatives being plain
    strings none of which is a suffix of another. *)
Definition replaceSuffix (suffixes : list string) (replacement s : string)
    : string :=
  match List.find (fun suffix => endsWith suffix s) suffixes with
  | Some suffix =>
      (String.substring 0 (String.length s - String.length suffix) s
       ++ replacement)%string
  | None => s
  end.

(** The characters [encodeURIComponent] leaves alone. *)
Definition unreserved (c : ascii) : bool :=
  let n := nat_of_ascii c in
  (Nat.leb 65 n && Nat.leb n 90) || (Nat.leb 97 n && Nat.leb n 122)
  || (Nat.leb 48 n && Nat.leb n 57)
  || existsb (Ascii.eqb c) ["-"; "_"; "."; "!"; "~"; "*"; "'"; "("; ")"]%char.

Definition hexDigit (n : nat) : ascii :=
  nth n ["0"; "1"; "2"; "3"; "4"; "5"; "6"; "7"; "8"; "9";
         "A"; "B"; "C"; "D"; "E"; "F"]%char "0"%char.

(** [encodeURIComponent(s)], [s] being the UTF-8 bytes of a well-formed
    string: every byte that is not unreserved becomes [%XX]. *)
Fixpoint encodeURIComponent (s : string) : string :=
  match s with
  | EmptyString => EmptyString
  | String c rest =>
      if unreserved c then String c (encodeURIComponent rest)
      else String "%" (String (hexDigit (nat_of_ascii c / 16))
                         (String (hexDigit (nat_of_ascii c mod 16))
                            (encodeURIComponent rest)))
  end.

Definition bytes (l : list nat) : string :=
  fold_right (fun n s => String (ascii_of_nat n) s) EmptyString l.

(** The characters [trim] removes, WhiteSpace and LineTerminator, as UTF-8
    byte sequences. *)
Definition whiteSpace : list string :=
  bytes <$>
  [ [9]; [10]; [11]; [12]; [13]; [32]; [194; 160]; [225; 154; 128];
    [226; 128; 128]; [226; 128; 129]; [226; 128; 130]; [226; 128; 131];
    [226; 128; 132]; [226; 128; 133]; [226; 128; 134]; [226; 128; 135];
    [226; 128; 136]; [226; 128; 137]; [226; 128; 138];
    [226; 128; 168]; [226; 128; 169]; [226; 128; 175]; [226; 129; 159];
    [227; 128; 128]; [239; 187; 191] ].

(** Whether what is left of a string is white space only; [fuel] bounds the
    number of characters. *)
Fixpoint blank (fuel : nat) (s : string) : bool :=
  match s with
  | EmptyString => true
  | String _ _ =>
      match fuel with
      | 0 => false
      | S fuel' =>
          match List.find (fun w => String.prefix w s) whiteSpace with
          | Some w => blank fuel' (drop (String.length w) s)
          | None => false
          end
      end
  end.

(** [!s.trim()]: trimming leaves nothing exactly when the string is white
    space only. *)
Definition trimsToEmpty (s : string) : bool := blank (String.length s) s.

(** [array.slice(-n)]: the last [n] elements. *)
Definition lastN {A} (n : nat) (l : list A) : list A :=
  List.skipn (length l - n) l.

End Text.

(* ===================================================================== *)
(** ** The toolbar's run button                                           *)
(* ===================================================================== *)

Module Runner.
Import Text.

Record User : Type := { user_id : string }.

Record Project : Type := { project_id : string }.

(** What a click on the run button does to its surroundings. *)
Inductive Action : Type :=
| WindowOpen (url target : string)         (* [window.open(url, target)] *)
| RunInTerminal (command : string)         (* the event ['run-in-terminal'] *)
| ShowTerminal.                            (* the event ['show-terminal'] *)

(** A call either completes, having done the actions, or dies of a
    [TypeError]. *)
Inductive Outcome : Type :=
| TypeError
| Completed (actions : list Action).

Definition executableExtensions : list string :=
  [ "js"; "jsx"; "mjs"; "ts"; "tsx"; "py"; "pyx"; "pyi"; "java"; "c";
    "cpp"; "cc"; "cxx"; "h"; "cs"; "go"; "rs"; "rb"; "php"; "pl"; "lua";
    "swift"; "kt"; "kts"; "scala"; "sc"; "R"; "r"; "ex"; "exs"; "erl";
    "hs"; "lhs"; "dart"; "groovy"; "sh"; "bash"; "html"; "htm"; "css";
    "svg"; "xml" ].

(** [file.name.split('.').pop()?.toLowerCase()] *)
Definition extensionOf (fileName : string) : option string :=
  JS.toLowerCase <$> JS.pop (JS.split "." fileName).

(** [executableExtensions.includes(extension)] *)
Definition isExecutableFile (file : option File) : bool :=
  match file with
  | Some {| name := Some n |} =>
      if n =? "" then false
      else match extensionOf n with
           | Some extension =>
               existsb (String.eqb extension) executableExtensions
           | None => false
           end
  | _ => false
  end.

(** Several [case] labels in front of one branch. *)
Definition oneOf (ext : string) (labels : list string) : bool :=
  existsb (String.eqb ext) labels.

(** The windows opened and the command chosen by the [switch] of
    [handleRunCode] for the lower-cased extension [ext]; [None] in the
    [default] case. *)
Definition commandFor (user : option User) (currentProject : option Project)
    (fileName ext : string) : option (list Action * string) :=
  if ext =? "py" then
    Some ([], ("python " ++ fileName)%string)
  else if oneOf ext ["js"; "mjs"] then
    Some ([], ("node " ++ fileName)%string)
  else if ext =? "jsx" then
    Some ([], ("tsx " ++ fileName)%string)
  else if ext =? "ts" then
    Some ([], ("ts-node " ++ fileName)%string)
  else if ext =? "tsx" then
    Some ([], ("tsx " ++ fileName)%string)
  else if ext =? "java" then
    let className := replace ".java" "" fileName in
    Some ([], ("javac " ++ fileName ++ " && java " ++ className)%string)
  else if oneOf ext ["cpp"; "cc"; "cxx"] then
    let outFile := replaceSuffix [".cpp"; ".cc"; ".cxx"] "" fileName in
    Some ([], ("g++ " ++ fileName ++ " -o " ++ outFile ++ " && ./" ++
               outFile)%string)
  else if ext =? "c" then
    let cOutFile := replace ".c" "" fileName in
    Some ([], ("gcc " ++ fileName ++ " -o " ++ cOutFile ++ " && ./" ++
               cOutFile)%string)
  else if ext =? "cs" then
    let csOutFile := replace ".cs" ".exe" fileName in
    Some ([], ("mcs " ++ fileName ++ " -out:" ++ csOutFile ++ " && mono " ++
               csOutFile)%string)
  else if ext =? "go" then
    Some ([], ("/usr/local/go/bin/go run " ++ fileName)%string)
  else if ext =? "rs" then
    let rsOutFile := replace ".rs" "" fileName in
    Some ([], ("/root/.cargo/bin/rustc " ++ fileName ++ " -o " ++ rsOutFile ++
               " && ./" ++ rsOutFile)%string)
  else if ext =? "rb" then
    Some ([], ("ruby " ++ fileName)%string)
  else if ext =? "php" then
    Some ([], ("php " ++ fileName)%string)
  else if ext =? "pl" then
    Some ([], ("perl " ++ fileName)%string)
  else if ext =? "lua" then
    Some ([], ("lua " ++ fileName)%string)
  else if oneOf ext ["kt"; "kts"] then
    let ktJar := replaceSuffix [".kt"; ".kts"] ".jar" fileName in
    Some ([], ("/root/.sdkman/candidates/kotlin/current/bin/kotlinc " ++
               fileName ++ " -include-runtime -d " ++ ktJar ++
               " && java -jar " ++ ktJar)%string)
  else if oneOf ext ["scala"; "sc"] then
    Some ([], ("scala " ++ fileName)%string)
  else if oneOf ext ["R"; "r"] then
    Some ([], ("Rscript " ++ fileName)%string)
  else if oneOf ext ["ex"; "exs"] then
    Some ([], ("elixir " ++ fileName)%string)
  else if ext =? "erl" then
    Some ([], ("escript " ++ fileName)%string)
  else if oneOf ext ["hs"; "lhs"] then
    Some ([], ("/root/.ghcup/bin/runhaskell " ++ fileName)%string)
  else if ext =? "dart" then
    Some ([], ("dart run " ++ fileName)%string)
  else if ext =? "groovy" then
    Some ([], ("groovy " ++ fileName)%string)
  else if oneOf ext ["sh"; "bash"] then
    Some ([], ("bash " ++ fileName)%string)
  else if ext =? "swift" then
    Some ([], ("/opt/swift-5.9.1-RELEASE-ubuntu22.04/usr/bin/swift " ++
               fileName)%string)
  else if oneOf ext ["html"; "htm"] then
    match user, currentProject with
    | Some u, Some pr =>
        let previewUrl :=
          ("http://localhost:3001/api/v1/preview/" ++ user_id u ++ "/" ++
           project_id pr ++ "?file=" ++ encodeURIComponent fileName)%string in
        Some ([WindowOpen previewUrl "_blank"],
              ("echo " ++ dq ++ "‚úÖ Opening " ++ fileName ++
               " in browser..." ++ dq ++ " && echo " ++ dq ++
               "Preview URL: " ++ previewUrl ++ dq)%string)
    | _, _ =>
        Some ([],
              ("echo " ++ dq ++
               "‚ö†Ô∏è  Cannot preview: User or project not loaded" ++ dq ++
               " && cat " ++ fileName)%string)
    end
  else if ext =? "css" then
    Some ([], ("echo " ++ dq ++ "=== CSS File: " ++ fileName ++ " ===" ++
               dq ++ " && echo " ++ dq ++ dq ++ " && cat " ++ fileName ++
               " && echo " ++ dq ++ dq ++ " && echo " ++ dq ++ "---" ++ dq ++
               " && echo " ++ dq ++ "üí° Link this CSS in your HTML with:" ++
               dq ++ " && echo " ++ dq ++ "<link rel='stylesheet' href='" ++
               fileName ++ "'>" ++ dq)%string)
  else if ext =? "svg" then
    Some ([], ("cat " ++ fileName ++ " && echo " ++ dq ++ nl ++ "---" ++ nl ++
               "To preview SVG, open in browser or use: python3 -m http.server 8080" ++
               dq)%string)
  else if ext =? "xml" then
    Some ([], ("cat " ++ fileName)%string)
  else None.

(** [handleRunCode()], as created by a render with [user],
    [currentProject] and [currentFile]. Without a name, [fileName.split]
    is a [TypeError]. *)
Definition handleRunCode (user : option User) (currentProject : option Project)
    (currentFile : option File) : Outcome :=
  match currentFile with
  | None => Completed []
  | Some f =>
      match content f with
      | None => Completed []
      | Some text =>
          if text =? "" then Completed []
          else
            match name f with
            | None => TypeError
            | Some fileName =>
                match extensionOf fileName with
                | None => TypeError
                | Some ext =>
                    match commandFor user currentProject fileName ext with
                    | None => Completed []
                    | Some (opened, command) =>
                        Completed
                          (opened ++ [RunInTerminal command; ShowTerminal])
                    end
                end
            end
      end
  end.

(** What a render of the toolbar reads from its contexts. *)
Record Render : Type := {
  r_user : option User;
  r_project : option Project;
  r_file : option File
}.

#[global] Instance User_eq_dec : EqDecision User.
Proof. solve_decision. Defined.
#[global] Instance Project_eq_dec : EqDecision Project.
Proof. solve_decision. Defined.

(** [useCallback(..., [currentFile, currentProject])]: a render keeps the
    handler it had, with what that handler closed over, unless one of the
    two dependencies changed. As for the editor host, the contexts hand out
    the same object as long as the file or the project is unchanged:
    equality of values stands for identity. *)
Definition memoized (closure r : Render) : Render :=
  if bool_decide (r_file closure = r_file r
                  /\ r_project closure = r_project r)
  then closure else r.

(** The render whose handler the run button has after the renders [rs]
    that follow the first one. *)
Definition handlerAfter (first : Render) (rs : list Render) : Render :=
  fold_left memoized rs first.

(** A click on the run button, whose handler closed over [closure]. *)
Definition click (closure : Render) : Outcome :=
  handleRunCode (r_user closure) (r_project closure) (r_file closure).

(** The run button of the render [r]: it is there for an executable file,
    with [disabled={!currentFile.content?.trim() || !user}]. *)
Definition runButtonEnabled (r : Render) : bool :=
  isExecutableFile (r_file r)
  && match r_file r with
     | Some f =>
         match content f with
         | Some text => negb (trimsToEmpty text)
         | None => false
         end
     | None => false
     end
  && bool_decide (r_user r <> None).

End Runner.

(* ===================================================================== *)
(** ** The chat assistant                                                 *)
(* ===================================================================== *)

Module Assistant.
Import Text.

(** The current file as the assistant reads it. *)
Record OpenFile : Type := {
  of_path : option string;
  of_name : option string;
  of_extension : option string;
  of_content : option string
}.

(** What [aiServiceClient.checkAvailability()] resolves to; a provider
    that is [null] is [None]. *)
Record Status : Type := {
  available : bool;
  st_provider : option string
}.

(** A message of the conversation; [provider] is present on the replies
    of the service only. *)
Record Message : Type := {
  role : string;
  content : string;
  timestamp : nat;
  provider : option string;
  isError : bool
}.

Record CodeContext : Type := {
  filePath : option string;
  cc_language : string;
  code : string
}.

(** The argument of one call [aiServiceClient.chat(...)]. *)
Record ChatRequest : Type := {
  message : string;
  conversationHistory : list Message;
  codeContext : option CodeContext
}.

(** What the promise of a chat call settles to. *)
Inductive ChatResult : Type :=
| Answered (response : string) (by_provider : option string)
| Failed (message : string).

(** The component's React state and context, the calls whose promise has
    not settled yet, every chat call made so far, and the clock that
    [new Date()] reads. *)
Record State : Type := {
  currentFile : option OpenFile;
  messages : list Message;
  input : string;
  isLoading : bool;
  aiStatus : Status;
  statusChecks : nat;
  requests : list ChatRequest;
  sent : list ChatRequest;
  clock : nat
}.

Definition set_messages v (s : State) : State :=
  {| currentFile := currentFile s; messages := v; input := input s;
     isLoading := isLoading s; aiStatus := aiStatus s;
     statusChecks := statusChecks s; requests := requests s;
     sent := sent s; clock := clock s |}.
Definition set_input v (s : State) : State :=
  {| currentFile := currentFile s; messages := messages s; input := v;
     isLoading := isLoading s; aiStatus := aiStatus s;
     statusChecks := statusChecks s; requests := requests s;
     sent := sent s; clock := clock s |}.
Definition set_isLoading v (s : State) : State :=
  {| currentFile := currentFile s; messages := messages s; input := input s;
     isLoading := v; aiStatus := aiStatus s;
     statusChecks := statusChecks s; requests := requests s;
     sent := sent s; clock := clock s |}.
Definition set_aiStatus v (s : State) : State :=
  {| currentFile := currentFile s; messages := messages s; input := input s;
     isLoading := isLoading s; aiStatus := v;
     statusChecks := statusChecks s; requests := requests s;
     sent := sent s; clock := clock s |}.
Definition set_statusChecks v (s : State) : State :=
  {| currentFile := currentFile s; messages := messages s; input := input s;
     isLoading := isLoading s; aiStatus := aiStatus s;
     statusChecks := v; requests := requests s;
     sent := sent s; clock := clock s |}.
Definition set_requests v (s : State) : State :=
  {| currentFile := currentFile s; messages := messages s; input := input s;
     isLoading := isLoading s; aiStatus := aiStatus s;
     statusChecks := statusChecks s; requests := v;
     sent := sent s; clock := clock s |}.
Definition set_sent v (s : State) : State :=
  {| currentFile := currentFile s; messages := messages s; input := input s;
     isLoading := isLoading s; aiStatus := aiStatus s;
     statusChecks := statusChecks s; requests := requests s;
     sent := v; clock := clock s |}.
Definition set_currentFile v (s : State) : State :=
  {| currentFile := v; messages := messages s; input := input s;
     isLoading := isLoading s; aiStatus := aiStatus s;
     statusChecks := statusChecks s; requests := requests s;
     sent := sent s; clock := clock s |}.
Definition set_clock v (s : State) : State :=
  {| currentFile := currentFile s; messages := messages s; input := input s;
     isLoading := isLoading s; aiStatus := aiStatus s;
     statusChecks := statusChecks s; requests := requests s;
     sent := sent s; clock := v |}.

(** A template literal prints [null] for a provider that is [null]. *)
Definition show (v : option string) : string :=
  match v with Some s => s | None => "null" end.

Definition welcome (status : Status) : string :=
  ("👋 Hi! I'm your AI coding assistant powered by " ++
     show (st_provider status) ++ ". I can help you:" ++ nl ++ nl ++
     "• Explain code" ++ nl ++ "• Generate functions" ++ nl ++ "• Fix bugs" ++
     nl ++ "• Refactor code" ++ nl ++ "• Answer coding questions" ++ nl ++
     nl ++ "How can I help you today?")%string.

Definition apology (message : string) : string :=
  ("❌ Sorry, I encountered an error: " ++ message ++ nl ++ nl ++
     "Please check if AI service is configured correctly.")%string.

(** The [prompt] of the quick actions. *)
Definition quickPrompts : list string :=
  [ "Explain the current code file";
    "Suggest improvements for this code";
    "Help me find and fix bugs in this code";
    "Suggest refactoring for better code quality" ].

(** [a || b] on optional strings. *)
Definition orElse (a b : option string) : option string :=
  match a with
  | Some s => if s =? "" then b else a
  | None => b
  end.

(** [currentFile.extension?.replace('.', '') || 'javascript'] *)
Definition languageOf (f : OpenFile) : string :=
  match of_extension f with
  | Some e => let l := replace "." "" e in if l =? "" then "javascript" else l
  | None => "javascript"
  end.

Definition contextOf (f : OpenFile) : CodeContext :=
  {| filePath := orElse (of_path f) (of_name f);
     cc_language := languageOf f;
     code := match of_content f with Some c => c | None => "" end |}.

(** [checkAIStatus()] up to its [await]. *)
Definition checkAIStatus (s : State) : State :=
  set_statusChecks (S (statusChecks s)) s.

(** What follows the [await] of [checkAIStatus]; a rejection ([None])
    ends the call there. *)
Definition statusSettled (r : option Status) (s : State) : State :=
  match statusChecks s with
  | 0 => s
  | S n =>
      let s := set_statusChecks n s in
      match r with
      | None => s
      | Some status =>
          let s := set_aiStatus status s in
          if available status
          then set_messages
                 [ {| role := "assistant"; content := welcome status;
                      timestamp := clock s; provider := None;
                      isError := false |} ] s
          else s
      end
  end.

(** [sendMessage()] up to its [await]: [input] and [messages] are those of
    the render the handler belongs to. *)
Definition sendMessage (s : State) : State :=
  if trimsToEmpty (input s) || isLoading s then s
  else
    let userMessage :=
      {| role := "user"; content := input s; timestamp := clock s;
         provider := None; isError := false |} in
    let request :=
      {| message := input s;
         conversationHistory := lastN 10 (messages s);
         codeContext := contextOf <$> currentFile s |} in
    set_sent (sent s ++ [request])
      (set_requests (requests s ++ [request])
        (set_isLoading true
          (set_input ""
            (set_messages (messages s ++ [userMessage]) s)))).

(** What follows the [await] of the [k]-th pending chat call: the reply or
    the apology is appended, and [finally] the loading flag is reset. *)
Definition chatSettled (k : nat) (r : ChatResult) (s : State) : State :=
  match requests s !! k with
  | None => s
  | Some _ =>
      let reply :=
        match r with
        | Answered response by_provider =>
            {| role := "assistant"; content := response;
               timestamp := clock s; provider := by_provider;
               isError := false |}
        | Failed message =>
            {| role := "assistant"; content := apology message;
               timestamp := clock s; provider := None; isError := true |}
        end in
      set_isLoading false
        (set_messages (messages s ++ [reply])
          (set_requests (delete k (requests s)) s))
  end.

(** [handleKeyPress(e)] *)
Definition handleKeyPress (key : string) (shiftKey : bool) (s : State) : State :=
  if (key =? "Enter") && negb shiftKey then sendMessage s else s.

Definition clearChat (s : State) : State :=
  checkAIStatus (set_messages [] s).

Definition insertQuickPrompt (prompt : string) (s : State) : State :=
  set_input prompt s.

Inductive Event : Type :=
| Open (f : option OpenFile)               (* the current file changes *)
| Elapse (n : nat)                         (* time passes *)
| Change (text : string)                   (* the user edits the input *)
| KeyPress (key : string) (shiftKey : bool)
| ClickSend
| ClickClear
| ClickQuickPrompt (i : nat)
| StatusSettles (r : option Status)
| ChatSettles (k : nat) (r : ChatResult).

Definition step (s : State) (ev : Event) : State :=
  match ev with
  | Open f => set_currentFile f s
  | Elapse n => set_clock (clock s + n) s
  | Change text => set_input text s
  | KeyPress key shiftKey => handleKeyPress key shiftKey s
  | ClickSend => sendMessage s
  | ClickClear => clearChat s
  | ClickQuickPrompt i =>
      match quickPrompts !! i with
      | Some prompt => insertQuickPrompt prompt s
      | None => s
      end
  | StatusSettles r => statusSettled r s
  | ChatSettles k r => chatSettled k r s
  end.

(** The component after its first commit: the effect has called
    [checkAIStatus]. *)
Definition mounted (f : option OpenFile) : State :=
  checkAIStatus
    {| currentFile := f; messages := []; input := ""; isLoading := false;
       aiStatus := {| available := false; st_provider := None |};
       statusChecks := 0; requests := []; sent := []; clock := 0 |}.

Definition run (evs : list Event) (s : State) : State := fold_left step evs s.

(** What the render of a state offers to the user: nothing while the
    service is not available; the input is disabled while a reply is
    awaited, the send button also while the input is blank, and the quick
    actions show while there is at most one message. *)
Definition offered (s : State) (ev : Event) : bool :=
  match ev with
  | Change _ | KeyPress _ _ =>
      available (aiStatus s) && negb (isLoading s)
  | ClickSend =>
      available (aiStatus s)
      && negb (trimsToEmpty (input s) || isLoading s)
  | ClickClear => available (aiStatus s)
  | ClickQuickPrompt i =>
      available (aiStatus s) && Nat.leb (length (messages s)) 1
      && bool_decide (i < length quickPrompts)
  | Open _ | Elapse _ | StatusSettles _ | ChatSettles _ _ => true
  end.

(** A run the rendered interface allows: every event is offered by the
    state it happens in. *)
Fixpoint feasible (s : State) (evs : list Event) : bool :=
  match evs with
  | [] => true
  | ev :: rest => offered s ev && feasible (step s ev) rest
  end.

(** At most one chat call is pending, exactly while the loading flag is
    set, and it is the last one made. *)
Definition onePending (s : State) : Prop :=
  if isLoading s
  then exists r, requests s = [r] /\ last (sent s) = Some r
  else requests s = [].

(** A request carries a message that is not blank and at most ten
    messages of history. *)
Definition wellFormed (r : ChatRequest) : Prop :=
  trimsToEmpty (message r) = false
  /\ length (conversationHistory r) <= 10.

(** Nothing has happened yet: the service is not known to be available,
    no chat call has been made and no message is shown. *)
Definition idle (s : State) : Prop :=
  available (aiStatus s) = false /\ sent s = [] /\ messages s = []
  /\ requests s = [].

End Assistant.

(* ===================================================================== *)
(** ** Further predicates on the host                                     *)
(* ===================================================================== *)

Module Conditions.
Import Host React Logic.

(** Every surface ever created is disposed. *)
Definition allDisposed (s : State) : Prop :=
  forall e ed, editors (monaco s) !! e = Some ed -> es_disposed ed = true.

(** The host is finished: the disposed flag is set, [editorRef] holds no
    surface, every surface is disposed and no timer is pending. *)
Definition dead (s : State) : Prop :=
  isDisposedRef (refs s) = true
  /\ editorRef (refs s) = None
  /\ allDisposed s
  /\ timers (loop s) = [].

(** The persist calls made so far are [log]. *)
Definition logIs (log : list PersistCall) (s : State) : Prop :=
  persisted (project s) = log.

(** Finished, with the persist calls [log] behind it. *)
Definition finished (log : list PersistCall) (s : State) : Prop :=
  dead s /\ logIs log s.

(** The component works as the commit with the props [p] set it up: its
    first surface is ready, and the pending cleanup of the init effect is
    the one for that surface. *)
Definition alive (p : Props) (c : Component) : Prop :=
  ready p 0 (state c) /\ props c = p /\ cleanup c = Some 0.

(** The events of a component under React, where an effect never runs
    again without its cleanup. *)
Definition committed (ev : Event) : bool :=
  match ev with
  | Effects => false
  | _ => true
  end.

(** Every persist call of [log] is for the current file of [p], and none
    is an auto-save unless [p] asks for auto-save. *)
Definition callsFor (p : Props) (log : list PersistCall) : Prop :=
  forall call, call ∈ log ->
    (exists f, currentFile p = Some f /\ p_file call = id f)
    /\ (p_kind call = AutoSave -> autoSave p = true).

(** The subscription of the content listener that the first commit made
    for the render [p] is still in [disposablesRef], and still in force on
    the first surface. *)
Definition subscribed (p : Props) (s : State) : Prop :=
  disposablesRef (refs s) = [RListener 0]
  /\ exists ed, editors (monaco s) !! 0 = Some ed /\ es_listener ed = Some p.

End Conditions.

(* ===================================================================== *)
(** ** Reasoning about computations                                       *)
(* ===================================================================== *)

Module Rules.
Import Host Logic.
Local Open Scope host_scope.

Section Preserves.
Context (I : State -> Prop).

Lemma preserves_ret {A} (a : A) : preserves I (ret a).
Proof. intros s H. exact H. Qed.

Lemma preserves_throw {A} e : preserves I (@throw A e).
Proof. intros s H. exact H. Qed.

Lemma preserves_gets {A} (f : State -> A) : preserves I (gets f).
Proof. intros s H. exact H. Qed.

Lemma preserves_modify (f : State -> State) :
  (forall s, I s -> I (f s)) -> preserves I (modify f).
Proof. intros Hf s H. apply Hf, H. Qed.

Lemma preserves_bind {A B} (m : M A) (k : A -> M B) :
  preserves I m -> (forall a, preserves I (k a)) -> preserves I (bind m k).
Proof.
  intros Hm Hk s H. specialize (Hm s H). unfold exec, bind in *.
  destruct (m s) as [[a|e] s']; simpl in *.
  - apply (Hk a s' Hm).
  - exact Hm.
Qed.

Lemma preserves_try_catch {A} (m : M A) (h : string -> M A) :
  preserves I m -> (forall e, preserves I (h e)) ->
  preserves I (try_catch m h).
Proof.
  intros Hm Hh s H. specialize (Hm s H). unfold exec, try_catch in *.
  destruct (m s) as [[a|e] s']; simpl in *.
  - exact Hm.
  - apply (Hh e s' Hm).
Qed.

Lemma preserves_forEach {A} (l : list A) (f : A -> M unit) :
  (forall a, preserves I (f a)) -> preserves I (forEach l f).
Proof.
  intros Hf. induction l as [|x l IH]; simpl.
  - apply preserves_ret.
  - apply preserves_bind; auto.
Qed.

(** Reading the state before continuing. *)
Lemma preserves_gets_bind {A B} (f : State -> A) (k : A -> M B) :
  (forall s, I s -> I (exec (k (f s)) s)) -> preserves I (bind (gets f) k).
Proof. intros Hk s H. apply (Hk s H). Qed.
End Preserves.

Lemma noThrow_ret {A} (a : A) : noThrow (ret a).
Proof. intros s. reflexivity. Qed.

Lemma noThrow_gets {A} (f : State -> A) : noThrow (gets f).
Proof. intros s. reflexivity. Qed.

Lemma noThrow_modify f : noThrow (modify f).
Proof. intros s. reflexivity. Qed.

Lemma noThrow_bind {A B} (m : M A) (k : A -> M B) :
  noThrow m -> (forall a, noThrow (k a)) -> noThrow (bind m k).
Proof.
  intros Hm Hk s. specialize (Hm s). unfold raises, bind in *.
  destruct (m s) as [[a|e] s']; simpl in *; [apply (Hk a s') | discriminate].
Qed.

Lemma noThrow_try_catch {A} (m : M A) (h : string -> M A) :
  (forall e, noThrow (h e)) -> noThrow (try_catch m h).
Proof.
  intros Hh s. unfold raises, try_catch.
  destruct (m s) as [[a|e] s']; simpl; [reflexivity | apply (Hh e s')].
Qed.

Lemma noThrow_forEach {A} (l : list A) (f : A -> M unit) :
  (forall a, noThrow (f a)) -> noThrow (forEach l f).
Proof.
  intros Hf. induction l as [|x l IH]; simpl.
  - apply noThrow_ret.
  - apply noThrow_bind; auto.
Qed.

(** One step of a structural proof that a computation preserves an
    invariant or never raises. *)
Ltac structural :=
  repeat first
    [ apply preserves_ret | apply preserves_gets | apply preserves_throw
    | apply noThrow_ret | apply noThrow_gets | apply noThrow_modify
    | apply preserves_bind; [ | intros ? ]
    | apply preserves_try_catch; [ | intros ? ]
    | apply preserves_forEach; intros ?
    | apply noThrow_bind; [ | intros ? ]
    | apply noThrow_try_catch; intros ?
    | apply noThrow_forEach; intros ?
    | match goal with
      | |- preserves _ (match ?x with _ => _ end) => destruct x
      | |- noThrow (match ?x with _ => _ end) => destruct x
      end
    | progress unfold release ].

(** *** Raising *)

Lemma noThrow_safeDispose r : noThrow (safeDispose r).
Proof. unfold safeDispose. structural. Qed.

Lemma noThrow_clearTimeout i : noThrow (clearTimeout i).
Proof. unfold clearTimeout. structural. Qed.

Lemma noThrow_clearDisposables : noThrow clearDisposables.
Proof. unfold clearDisposables. structural. Qed.

Lemma noThrow_initCleanup e : noThrow (initCleanup e).
Proof.
  unfold initCleanup. structural;
    auto using noThrow_clearDisposables, noThrow_safeDispose, noThrow_clearTimeout.
Qed.

Lemma noThrow_unmountCleanup : noThrow unmountCleanup.
Proof.
  unfold unmountCleanup. structural;
    auto using noThrow_clearDisposables, noThrow_safeDispose, noThrow_clearTimeout.
Qed.

(** *** Triples *)

Lemma triple_bind {A B} P (R : A -> State -> Prop) Q (m : M A) (k : A -> M B) :
  triple P m (fun o s => match o with
                         | Return a => R a s
                         | Throw e => Q (Throw e) s
                         end) ->
  (forall a, triple (R a) (k a) Q) ->
  triple P (bind m k) Q.
Proof.
  intros Hm Hk s H. specialize (Hm s H). unfold bind.
  destruct (m s) as [[a|e] s']; simpl in *; [apply (Hk a s' Hm)|exact Hm].
Qed.

Lemma triple_preserves {A} I (m : M A) :
  preserves I m -> triple I m (fun _ s => I s).
Proof. intros Hm s H. apply Hm, H. Qed.

Lemma preserves_triple {A} I (m : M A) :
  triple I m (fun _ s => I s) -> preserves I m.
Proof. intros Hm s H. apply Hm, H. Qed.

(** *** Pointwise rules *)

Lemma exec_bind {A B} (I J : State -> Prop) (m : M A) (k : A -> M B) s :
  I (exec m s) ->
  (forall s', I s' -> J s') ->
  (forall a s', I s' -> J (exec (k a) s')) ->
  J (exec (bind m k) s).
Proof.
  intros Hm Hw Hk. unfold exec, bind in *.
  destruct (m s) as [[a|e] s']; simpl in *; auto.
Qed.

Lemma exec_seq {A} (m : M unit) (k : M A) s :
  raises m s = false -> exec (m ;; k) s = exec k (exec m s).
Proof.
  unfold raises, exec, bind. destruct (m s) as [[[]|e] s']; simpl; congruence.
Qed.

Lemma raises_seq {A} (m : M unit) (k : M A) s :
  raises m s = false -> raises (m ;; k) s = raises k (exec m s).
Proof.
  unfold raises, exec, bind. destruct (m s) as [[[]|e] s']; simpl; congruence.
Qed.

(** *** The disposed flag is never cleared once set *)

Ltac frame := apply preserves_modify; let H := fresh in intros ? H; exact H.

Lemma disposed_mayRaise : preserves disposedState mayRaise.
Proof.
  intros s H. unfold exec, mayRaise.
  destruct (faults (monaco s)) as [|[msg|] fs]; exact H.
Qed.

Lemma disposed_createModel v l : preserves disposedState (monaco_editor_createModel v l).
Proof.
  unfold monaco_editor_createModel.
  apply preserves_bind; [apply disposed_mayRaise|]. intros _ s H. exact H.
Qed.

Lemma disposed_setTimeout text p d : preserves disposedState (setTimeout text p d).
Proof. intros s H. exact H. Qed.

Ltac disposed_prim :=
  first [ frame | apply disposed_mayRaise | apply disposed_createModel
        | apply disposed_setTimeout ].

Lemma disposed_safeDispose r : preserves disposedState (safeDispose r).
Proof. unfold safeDispose. structural; disposed_prim. Qed.

Lemma disposed_clearDisposables : preserves disposedState clearDisposables.
Proof. unfold clearDisposables. structural; disposed_prim. Qed.

Lemma disposed_debouncedSave p text : preserves disposedState (debouncedSave p text).
Proof. unfold debouncedSave. structural; disposed_prim. Qed.

Lemma disposed_contentListener p e : preserves disposedState (contentListener p e).
Proof.
  unfold contentListener. apply preserves_bind; [frame|intros _].
  destruct (autoSave p); structural; disposed_prim.
Qed.

Lemma disposed_fireContentChanged e : preserves disposedState (fireContentChanged e).
Proof.
  unfold fireContentChanged. apply preserves_bind; [structural|intros ed].
  destruct ed as [[? ? ? ? [] [p|] ?]|]; try apply preserves_ret.
  apply disposed_contentListener.
Qed.

Lemma disposed_writeBuffer e text : preserves disposedState (writeBuffer e text).
Proof. unfold writeBuffer. structural; disposed_prim. Qed.

Lemma disposed_setValue e text : preserves disposedState (setValue e text).
Proof.
  unfold setValue. apply preserves_bind; [apply disposed_mayRaise|intros _].
  apply preserves_bind; [apply disposed_writeBuffer|intros _].
  apply disposed_fireContentChanged.
Qed.

Lemma disposed_initEffect p : preserves disposedState (initEffect p).
Proof.
  unfold initEffect. apply preserves_bind; [structural|intros container].
  apply preserves_gets_bind. intros s H. rewrite H.
  rewrite orb_true_r. exact H.
Qed.

Lemma disposed_initCleanup e : preserves disposedState (initCleanup e).
Proof.
  unfold initCleanup. apply preserves_bind; [apply preserves_modify; reflexivity|intros _].
  apply preserves_bind; [apply disposed_clearDisposables|intros _].
  apply preserves_bind; [apply disposed_safeDispose|intros _].
  structural; disposed_prim.
Qed.

Lemma disposed_unmountCleanup : preserves disposedState unmountCleanup.
Proof.
  unfold unmountCleanup. apply preserves_bind; [apply preserves_modify; reflexivity|intros _].
  apply preserves_bind; [apply disposed_clearDisposables|intros _].
  apply preserves_bind; [structural|intros m].
  apply preserves_bind; [apply disposed_safeDispose|intros _].
  structural; disposed_prim.
Qed.

Lemma disposed_loadEffect p : preserves disposedState (loadEffect p).
Proof.
  unfold loadEffect. apply preserves_bind; [structural|intros ed].
  apply preserves_bind; [structural|intros d].
  destruct ed as [e|]; [|destruct (currentFile p), d; apply preserves_ret].
  destruct (currentFile p) as [f|].
  - destruct d; [apply preserves_ret|].
    apply preserves_bind; [frame|intros _].
    apply preserves_try_catch; [|intros; structural; frame].
    apply preserves_bind; [unfold disposePreviousModel; structural; disposed_prim|intros _].
    apply preserves_bind; [apply disposed_createModel|intros model].
    unfold setModel, focus. structural; disposed_prim.
  - assert (preserves disposedState
              (setValue e "" ;; setEditorState (set_language (JS.Str "javascript")))).
    { apply preserves_bind; [apply disposed_setValue|intros _; frame]. }
    destruct d; assumption.
Qed.

Lemma disposed_themeEffect p : preserves disposedState (themeEffect p).
Proof. unfold themeEffect. structural; disposed_prim. Qed.

Lemma disposed_fontSizeEffect p : preserves disposedState (fontSizeEffect p).
Proof. unfold fontSizeEffect. structural; disposed_prim. Qed.

Lemma disposed_handleSave p : preserves disposedState (handleSave p).
Proof. unfold handleSave. structural; disposed_prim. Qed.

Lemma disposed_pressSave e : preserves disposedState (pressSave e).
Proof.
  unfold pressSave. apply preserves_bind; [structural|intros ed].
  destruct ed as [[? ? ? ? [] ? [p|]]|]; try apply preserves_ret.
  apply disposed_handleSave.
Qed.

Lemma disposed_edit e text : preserves disposedState (edit e text).
Proof.
  unfold edit. apply preserves_bind; [structural|intros ok].
  destruct ok; [|apply preserves_ret].
  apply preserves_bind; [apply disposed_writeBuffer|intros _].
  apply disposed_fireContentChanged.
Qed.

Lemma disposed_settle k r : preserves disposedState (settle k r).
Proof. unfold settle, afterSave. structural; disposed_prim. Qed.

Lemma disposed_fire t : preserves disposedState (fire t).
Proof. unfold fire, timerBody. structural; disposed_prim. Qed.

Lemma disposed_advanceTo t : preserves disposedState (advanceTo t).
Proof.
  unfold advanceTo. apply preserves_bind; [structural|intros due].
  apply preserves_bind; [|intros _; frame].
  apply preserves_forEach. apply disposed_fire.
Qed.

Lemma disposed_invariant : Invariant disposedState.
Proof.
  constructor;
    auto using disposed_initEffect, disposed_initCleanup, disposed_loadEffect,
      disposed_themeEffect, disposed_fontSizeEffect, disposed_unmountCleanup,
      disposed_edit, disposed_pressSave, disposed_advanceTo, disposed_settle.
Qed.

(** *** Pending timers are tracked by [saveTimeoutRef] *)

Lemma tracked_mayRaise : preserves tracked mayRaise.
Proof.
  intros s H. unfold exec, mayRaise.
  destruct (faults (monaco s)) as [|[msg|] fs]; exact H.
Qed.

Lemma tracked_createModel v l : preserves tracked (monaco_editor_createModel v l).
Proof.
  unfold monaco_editor_createModel.
  apply preserves_bind; [apply tracked_mayRaise|]. intros _ s H. exact H.
Qed.

Lemma tracked_create th size : preserves tracked (monaco_editor_create th size).
Proof. intros s H. exact H. Qed.

Lemma tracked_clearTimeout i : preserves tracked (clearTimeout i).
Proof.
  intros s H t Ht. apply H. unfold exec, clearTimeout in Ht. simpl in Ht.
  apply list_elem_of_filter in Ht. tauto.
Qed.

Lemma tracked_debouncedSave p text : preserves tracked (debouncedSave p text).
Proof.
  intros s H t. unfold exec, debouncedSave, bind, gets, clearTimeout, modify.
  destruct (saveTimeoutRef (refs s)) as [i|] eqn:E; simpl.
  - rewrite elem_of_app, list_elem_of_filter, list_elem_of_singleton.
    intros [[Hne Hin]| ->]; [|reflexivity].
    apply H in Hin. congruence.
  - rewrite elem_of_app, list_elem_of_singleton.
    intros [Hin| ->]; [|reflexivity].
    apply H in Hin. congruence.
Qed.

Lemma tracked_fire_modify t :
  preserves tracked (modify (with_loop (fun l =>
    {| now := Nat.max (now l) (t_due t);
       timers := filter (fun u => t_id u <> t_id t) (timers l);
       nextTimer := nextTimer l |}))).
Proof.
  intros s H u Hu. apply H. unfold exec in Hu. simpl in Hu.
  apply list_elem_of_filter in Hu. tauto.
Qed.

(** The "clear timeout" step of both cleanups, and what follows it. *)
Lemma tracked_clearPending (k : M unit) :
  preserves tracked k ->
  preserves tracked
    (pending <- gets (fun s => saveTimeoutRef (refs s)) ;;
     match pending with
     | Some i => clearTimeout i ;; modify (with_refs (set_saveTimeoutRef None))
     | None => ret tt
     end ;;
     k).
Proof.
  intros Hk. apply preserves_gets_bind. intros s H.
  apply exec_bind with (I := tracked); auto.
  destruct (saveTimeoutRef (refs s)) as [i|] eqn:E; [|exact H].
  intros t Ht. unfold exec in Ht. simpl in Ht.
  apply list_elem_of_filter in Ht. destruct Ht as [Hne Hin].
  apply H in Hin. congruence.
Qed.

Ltac tracked_prim :=
  first [ apply tracked_debouncedSave | apply tracked_clearTimeout
        | apply tracked_fire_modify | frame | apply tracked_mayRaise
        | apply tracked_createModel | apply tracked_create ].

Ltac tracked_auto :=
  repeat first
    [ tracked_prim
    | apply preserves_ret | apply preserves_gets | apply preserves_throw
    | apply preserves_bind; [ | intros ? ]
    | apply preserves_try_catch; [ | intros ? ]
    | apply preserves_forEach; intros ?
    | match goal with
      | |- preserves _ (match ?x with _ => _ end) => destruct x
      | |- preserves _ (if ?x then _ else _) => destruct x
      end
    | progress unfold release ].

Lemma tracked_safeDispose r : preserves tracked (safeDispose r).
Proof. unfold safeDispose. tracked_auto. Qed.

Lemma tracked_clearDisposables : preserves tracked clearDisposables.
Proof. unfold clearDisposables. tracked_auto. Qed.

Lemma tracked_contentListener p e : preserves tracked (contentListener p e).
Proof. unfold contentListener. tracked_auto. Qed.

Lemma tracked_fireContentChanged e : preserves tracked (fireContentChanged e).
Proof.
  unfold fireContentChanged. apply preserves_bind; [tracked_auto|intros ed].
  destruct ed as [[? ? ? ? [] [p|] ?]|]; try apply preserves_ret.
  apply tracked_contentListener.
Qed.

Lemma tracked_writeBuffer e text : preserves tracked (writeBuffer e text).
Proof. unfold writeBuffer. tracked_auto. Qed.

Lemma tracked_setValue e text : preserves tracked (setValue e text).
Proof.
  unfold setValue. apply preserves_bind; [apply tracked_mayRaise|intros _].
  apply preserves_bind; [apply tracked_writeBuffer|intros _].
  apply tracked_fireContentChanged.
Qed.

Lemma tracked_initEffect p : preserves tracked (initEffect p).
Proof. unfold initEffect. tracked_auto. Qed.

Lemma tracked_initCleanup e : preserves tracked (initCleanup e).
Proof.
  unfold initCleanup. apply preserves_bind; [frame|intros _].
  apply preserves_bind; [apply tracked_clearDisposables|intros _].
  apply preserves_bind; [apply tracked_safeDispose|intros _].
  apply tracked_clearPending. frame.
Qed.

Lemma tracked_unmountCleanup : preserves tracked unmountCleanup.
Proof.
  unfold unmountCleanup. apply preserves_bind; [frame|intros _].
  apply preserves_bind; [apply tracked_clearDisposables|intros _].
  apply preserves_bind; [tracked_auto|intros m].
  apply preserves_bind; [apply tracked_safeDispose|intros _].
  apply tracked_clearPending. tracked_auto.
Qed.

Lemma tracked_loadEffect p : preserves tracked (loadEffect p).
Proof.
  unfold loadEffect. apply preserves_bind; [tracked_auto|intros ed].
  apply preserves_bind; [tracked_auto|intros d].
  destruct ed as [e|]; [|destruct (currentFile p), d; apply preserves_ret].
  destruct (currentFile p) as [f|].
  - destruct d; [apply preserves_ret|].
    unfold disposePreviousModel, setModel, focus, setEditorState, setError.
    tracked_auto.
  - assert (preserves tracked
              (setValue e "" ;; setEditorState (set_language (JS.Str "javascript")))).
    { apply preserves_bind; [apply tracked_setValue|intros _; frame]. }
    destruct d; assumption.
Qed.

Lemma tracked_themeEffect p : preserves tracked (themeEffect p).
Proof. unfold themeEffect. tracked_auto. Qed.

Lemma tracked_fontSizeEffect p : preserves tracked (fontSizeEffect p).
Proof. unfold fontSizeEffect. tracked_auto. Qed.

Lemma tracked_pressSave e : preserves tracked (pressSave e).
Proof.
  unfold pressSave. apply preserves_bind; [tracked_auto|intros ed].
  destruct ed as [[? ? ? ? [] ? [p|]]|]; try apply preserves_ret.
  unfold handleSave. tracked_auto.
Qed.

Lemma tracked_edit e text : preserves tracked (edit e text).
Proof.
  unfold edit. apply preserves_bind; [tracked_auto|intros ok].
  destruct ok; [|apply preserves_ret].
  apply preserves_bind; [apply tracked_writeBuffer|intros _].
  apply tracked_fireContentChanged.
Qed.

Lemma tracked_settle k r : preserves tracked (settle k r).
Proof. unfold settle, afterSave. tracked_auto. Qed.

Lemma tracked_fire t : preserves tracked (fire t).
Proof.
  unfold fire. apply preserves_bind; [apply tracked_fire_modify|intros _].
  unfold timerBody. tracked_auto.
Qed.

Lemma tracked_advanceTo t : preserves tracked (advanceTo t).
Proof.
  unfold advanceTo. apply preserves_bind; [tracked_auto|intros due].
  apply preserves_bind; [|intros _; frame].
  apply preserves_forEach. apply tracked_fire.
Qed.

Lemma tracked_invariant : Invariant tracked.
Proof.
  constructor;
    auto using tracked_initEffect, tracked_initCleanup, tracked_loadEffect,
      tracked_themeEffect, tracked_fontSizeEffect, tracked_unmountCleanup,
      tracked_edit, tracked_pressSave, tracked_advanceTo, tracked_settle.
Qed.

End Rules.

(* ===================================================================== *)
(** ** Invariants along runs of events                                    *)
(* ===================================================================== *)

Module Lifecycle.
Import Host React Logic Rules.

Lemma state_perform m c : state (perform m c) = exec m (state c).
Proof. unfold perform, exec. destruct (m (state c)) as [[[]|e] s]; reflexivity. Qed.

Lemma uncaught_perform m c :
  raises m (state c) = false -> uncaught (perform m c) = uncaught c.
Proof.
  unfold perform, raises. destruct (m (state c)) as [[[]|e] s]; simpl; congruence.
Qed.

Lemma state_performInit p c : state (performInit p c) = exec (initEffect p) (state c).
Proof.
  unfold performInit, exec. destruct (initEffect p (state c)) as [[?|e] s]; reflexivity.
Qed.

Lemma state_performCleanup c :
  state (performCleanup c) =
  match cleanup c with
  | Some e => exec (initCleanup e) (state c)
  | None => state c
  end.
Proof. unfold performCleanup. destruct (cleanup c); [apply state_perform|reflexivity]. Qed.

Lemma uncaught_performCleanup c : uncaught (performCleanup c) = uncaught c.
Proof.
  unfold performCleanup. destruct (cleanup c); [|reflexivity].
  apply uncaught_perform, noThrow_initCleanup.
Qed.

Lemma uncaught_teardown c : uncaught (teardown c) = uncaught c.
Proof.
  unfold teardown. rewrite uncaught_perform by apply noThrow_unmountCleanup.
  apply uncaught_performCleanup.
Qed.

Lemma state_teardown c :
  state (teardown c) = exec unmountCleanup (state (performCleanup c)).
Proof. apply state_perform. Qed.

Section Along.
Context (I : State -> Prop) (HI : Invariant I).

Lemma perform_inv m c : preserves I m -> I (state c) -> I (state (perform m c)).
Proof. intros Hm H. rewrite state_perform. apply Hm, H. Qed.

Lemma performInit_inv p c : I (state c) -> I (state (performInit p c)).
Proof. intros H. rewrite state_performInit. apply (inv_initEffect I HI), H. Qed.

Lemma performCleanup_inv c : I (state c) -> I (state (performCleanup c)).
Proof.
  intros H. rewrite state_performCleanup.
  destruct (cleanup c); [apply (inv_initCleanup I HI)|]; exact H.
Qed.

Lemma onlyIf_inv b f c :
  (forall c, I (state c) -> I (state (f c))) ->
  I (state c) -> I (state (onlyIf b f c)).
Proof. intros Hf H. destruct b; simpl; auto. Qed.

Lemma effects_inv p c : I (state c) -> I (state (effects p c)).
Proof.
  intros H. unfold effects.
  apply perform_inv; [apply (inv_fontSizeEffect I HI)|].
  apply perform_inv; [apply (inv_themeEffect I HI)|].
  apply perform_inv; [apply (inv_loadEffect I HI)|].
  apply performInit_inv, H.
Qed.

Lemma render_inv q c : I (state c) -> I (state (render q c)).
Proof.
  intros H. unfold render, set_props. simpl.
  apply onlyIf_inv; [intros; apply perform_inv; auto; apply (inv_fontSizeEffect I HI)|].
  apply onlyIf_inv; [intros; apply perform_inv; auto; apply (inv_themeEffect I HI)|].
  apply onlyIf_inv; [intros; apply perform_inv; auto; apply (inv_loadEffect I HI)|].
  apply onlyIf_inv; [intros; apply performInit_inv; auto|].
  apply onlyIf_inv; [intros; apply performCleanup_inv; auto|].
  exact H.
Qed.

Lemma teardown_inv c : I (state c) -> I (state (teardown c)).
Proof.
  intros H. unfold teardown.
  apply perform_inv; [apply (inv_unmountCleanup I HI)|].
  apply performCleanup_inv, H.
Qed.

Lemma step_inv c ev : I (state c) -> I (state (step c ev)).
Proof.
  intros H. destruct ev; simpl.
  - apply render_inv, H.
  - apply perform_inv; [apply (inv_edit I HI)|exact H].
  - apply perform_inv; [apply (inv_pressSave I HI)|exact H].
  - apply perform_inv; [apply (inv_advanceTo I HI)|exact H].
  - apply perform_inv; [apply (inv_settle I HI)|exact H].
  - apply teardown_inv, H.
  - apply effects_inv, H.
Qed.

Lemma run_inv evs c : I (state c) -> I (state (run evs c)).
Proof.
  revert c. induction evs as [|ev evs IH]; intros c H; simpl; [exact H|].
  apply IH, step_inv, H.
Qed.

Lemma mount_inv p fs : I (initial fs) -> I (state (mount p fs)).
Proof. intros H. unfold mount. apply effects_inv. exact H. Qed.

Lemma reachable_inv p fs evs : I (initial fs) -> I (state (run evs (mount p fs))).
Proof. intros H. apply run_inv, mount_inv, H. Qed.
End Along.

Lemma perform_ops_inv (I : State -> Prop) (HI : Invariant I) ops s :
  I s -> I (perform_ops ops s).
Proof.
  revert s. induction ops as [|o ops IH]; intros s H; simpl; [exact H|].
  apply IH. destruct o; simpl.
  - apply (inv_initEffect I HI), H.
  - apply (inv_initCleanup I HI), H.
  - apply (inv_loadEffect I HI), H.
  - apply (inv_themeEffect I HI), H.
  - apply (inv_fontSizeEffect I HI), H.
  - apply (inv_unmountCleanup I HI), H.
  - apply (inv_edit I HI), H.
  - apply (inv_pressSave I HI), H.
  - apply (inv_advanceTo I HI), H.
  - apply (inv_settle I HI), H.
Qed.

Lemma iter_teardown_inv (I : State -> Prop) (HI : Invariant I) n c :
  I (state c) -> I (state (Nat.iter n teardown c)).
Proof. intros H. induction n; simpl; [exact H|]. apply teardown_inv; auto. Qed.

End Lifecycle.

(* ===================================================================== *)
(** ** Teardown                                                           *)
(* ===================================================================== *)

Module TeardownFacts.
Import Host React Logic Rules Lifecycle.
Local Open Scope host_scope.

Lemma filter_others_nil (l : list Timer) i :
  (forall t, t ∈ l -> t_id t = i) -> filter (fun t => t_id t <> i) l = [].
Proof.
  intros H. apply elem_of_nil_inv. intros t Ht.
  apply list_elem_of_filter in Ht. destruct Ht as [Hne Hin]. auto.
Qed.

Lemma noTimers_clearTimeout i : preserves noTimers (clearTimeout i).
Proof.
  intros s H. unfold noTimers, exec, clearTimeout in *. simpl. rewrite H. reflexivity.
Qed.

Lemma noTimers_mayRaise : preserves noTimers mayRaise.
Proof.
  intros s H. unfold exec, mayRaise.
  destruct (faults (monaco s)) as [|[msg|] fs]; exact H.
Qed.

Ltac noTimers_auto :=
  repeat first
    [ apply noTimers_clearTimeout | frame | apply noTimers_mayRaise
    | apply preserves_ret | apply preserves_gets
    | apply preserves_bind; [ | intros ? ]
    | apply preserves_try_catch; [ | intros ? ]
    | apply preserves_forEach; intros ?
    | match goal with
      | |- preserves _ (match ?x with _ => _ end) => destruct x
      | |- preserves _ (if ?x then _ else _) => destruct x
      end
    | progress unfold release ].

Lemma noTimers_initCleanup e : preserves noTimers (initCleanup e).
Proof. unfold initCleanup, clearDisposables, safeDispose. noTimers_auto. Qed.

Lemma noTimers_unmountCleanup : preserves noTimers unmountCleanup.
Proof. unfold unmountCleanup, clearDisposables, safeDispose. noTimers_auto. Qed.

(** The "clear timeout" step cancels whatever is pending. *)
Lemma clearPending_noTimers (k : M unit) s :
  tracked s -> preserves noTimers k ->
  noTimers
    (exec (pending <- gets (fun s => saveTimeoutRef (refs s)) ;;
           match pending with
           | Some i => clearTimeout i ;; modify (with_refs (set_saveTimeoutRef None))
           | None => ret tt
           end ;;
           k) s).
Proof.
  intros H Hk.
  change (noTimers
    (exec (match saveTimeoutRef (refs s) with
           | Some i => clearTimeout i ;; modify (with_refs (set_saveTimeoutRef None))
           | None => ret tt
           end ;; k) s)).
  apply exec_bind with (I := noTimers); auto.
  destruct (saveTimeoutRef (refs s)) as [i|] eqn:E.
  - unfold noTimers, exec. simpl. apply filter_others_nil.
    intros t Ht. apply H in Ht. congruence.
  - unfold noTimers, exec. simpl. apply elem_of_nil_inv. intros t Ht.
    apply H in Ht. congruence.
Qed.

Lemma unmountCleanup_cancels s : tracked s -> noTimers (exec unmountCleanup s).
Proof.
  intros H. unfold unmountCleanup.
  rewrite exec_seq by apply noThrow_modify.
  rewrite exec_seq by apply noThrow_clearDisposables.
  set (s1 := exec clearDisposables _).
  assert (H1 : tracked s1).
  { apply tracked_clearDisposables. exact H. }
  change (noTimers (exec (safeDispose (RModel <$> modelRef (refs s1)) ;;
    (pending <- gets (fun s => saveTimeoutRef (refs s)) ;;
     match pending with
     | Some i => clearTimeout i ;; modify (with_refs (set_saveTimeoutRef None))
     | None => ret tt
     end ;;
     (modify (with_refs (set_modelRef None)) ;;
      modify (with_refs (set_editorRef None))))) s1)).
  rewrite exec_seq by apply noThrow_safeDispose.
  apply clearPending_noTimers; [apply tracked_safeDispose, H1|].
  noTimers_auto.
Qed.

Lemma unmountCleanup_disposes s : disposedState (exec unmountCleanup s).
Proof.
  unfold unmountCleanup. rewrite exec_seq by apply noThrow_modify.
  set (s1 := exec (modify _) s).
  assert (H1 : disposedState s1) by reflexivity.
  revert H1. generalize s1. clear s s1.
  change (preserves disposedState
    (clearDisposables ;;
     (m <- gets (fun s => modelRef (refs s)) ;;
      safeDispose (RModel <$> m) ;;
      (pending <- gets (fun s => saveTimeoutRef (refs s)) ;;
       match pending with
       | Some i => clearTimeout i ;; modify (with_refs (set_saveTimeoutRef None))
       | None => ret tt
       end ;;
       (modify (with_refs (set_modelRef None)) ;;
        modify (with_refs (set_editorRef None))))))).
  apply preserves_bind; [apply disposed_clearDisposables|intros _].
  apply preserves_bind; [structural|intros m].
  apply preserves_bind; [apply disposed_safeDispose|intros _].
  structural; first [frame | apply disposed_mayRaise].
Qed.

Lemma advanceTo_idle t s :
  noTimers s -> persisted (project (exec (advanceTo t) s)) = persisted (project s).
Proof.
  intros H. unfold noTimers in H. unfold advanceTo, exec, bind, gets. simpl.
  rewrite H. reflexivity.
Qed.

Lemma tracked_initial fs : tracked (initial fs).
Proof. intros t Ht. simpl in Ht. inversion Ht. Qed.

Lemma teardown_settles c :
  tracked (state c) ->
  tracked (state (teardown c))
  /\ noTimers (state (teardown c))
  /\ disposedState (state (teardown c)).
Proof.
  intros H. split; [apply teardown_inv; auto using tracked_invariant|].
  rewrite state_teardown. split.
  - apply unmountCleanup_cancels.
    apply performCleanup_inv; auto using tracked_invariant.
  - apply unmountCleanup_disposes.
Qed.

Lemma noTimers_teardown c : noTimers (state c) -> noTimers (state (teardown c)).
Proof.
  intros H. rewrite state_teardown. apply noTimers_unmountCleanup.
  rewrite state_performCleanup. destruct (cleanup c); [|exact H].
  apply noTimers_initCleanup, H.
Qed.

Lemma iter_teardown n c :
  tracked (state c) ->
  let c' := Nat.iter (S n) teardown c in
  uncaught c' = uncaught c
  /\ noTimers (state c') /\ disposedState (state c').
Proof.
  intros H. induction n as [|n IH].
  - simpl. split; [apply uncaught_teardown|].
    apply teardown_settles, H.
  - destruct IH as (Hu & Ht & Hd).
    change (Nat.iter (S (S n)) teardown c)
      with (teardown (Nat.iter (S n) teardown c)).
    cbv zeta. split; [|split].
    + rewrite uncaught_teardown. exact Hu.
    + apply noTimers_teardown, Ht.
    + apply teardown_inv; auto using disposed_invariant.
Qed.

Lemma alter_twice {A} (f : A -> A) i (l : list A) :
  (forall x, f (f x) = f x) -> alter f i (alter f i l) = alter f i l.
Proof.
  intros Hf. apply list_eq. intros j. destruct (decide (i = j)) as [->|Hne].
  - rewrite !list_lookup_alter_eq. destruct (l !! j); simpl; [|reflexivity].
    rewrite Hf. reflexivity.
  - rewrite !list_lookup_alter_ne by done. reflexivity.
Qed.

Lemma objects_safeDispose r s :
  objects (exec (safeDispose (Some r)) s) = objects (exec (release r) s).
Proof.
  unfold objects, safeDispose, exec, try_catch, dispose, bind, mayRaise.
  destruct (release r s) as [[[]|msg] s1] eqn:E; simpl.
  - destruct (isDisposedProperty r); simpl; rewrite E;
      destruct (faults (monaco s1)) as [|[m1|] fs]; reflexivity.
  - destruct r; discriminate.
Qed.

Lemma objects_release r s1 s2 :
  objects s1 = objects s2 ->
  objects (exec (release r) s1) = objects (exec (release r) s2).
Proof.
  unfold objects. intros [= He Hm].
  destruct r; unfold release, exec, update_editor, update_model, modify; simpl;
    rewrite He, Hm; reflexivity.
Qed.

Lemma release_twice r s :
  objects (exec (release r) (exec (release r) s)) = objects (exec (release r) s).
Proof.
  destruct r; unfold objects, release, exec, update_editor, update_model, modify;
    simpl; rewrite alter_twice by reflexivity; reflexivity.
Qed.

(** Releasing a resource twice leaves the library's objects as releasing it
    once does. *)
Lemma safeDispose_twice r s :
  objects (exec (safeDispose r) (exec (safeDispose r) s))
  = objects (exec (safeDispose r) s).
Proof.
  destruct r as [r|]; [|reflexivity].
  rewrite objects_safeDispose.
  rewrite (objects_release r _ (exec (release r) s)) by apply objects_safeDispose.
  rewrite release_twice. symmetry. apply objects_safeDispose.
Qed.

Lemma refs_initCleanup e s :
  refs (exec (initCleanup e) s) = torn (modelRef (refs s)) (refs s).
Proof.
  unfold initCleanup, clearDisposables, safeDispose, dispose, try_catch,
    update_editor, clearTimeout, exec, bind, gets, modify, mayRaise, ret.
  cbn. destruct (faults (monaco s)) as [|[msg|] fs]; cbn;
    destruct (saveTimeoutRef (refs s)) eqn:E;
    unfold torn, set_editorRef, set_isDisposedRef, set_saveTimeoutRef,
      set_modelRef; simpl; rewrite ?E; reflexivity.
Qed.

Lemma refs_unmountCleanup s :
  refs (exec unmountCleanup s) = torn None (refs s).
Proof.
  unfold unmountCleanup, clearDisposables, safeDispose, dispose, try_catch,
    update_model, clearTimeout, exec, bind, gets, modify, mayRaise, ret.
  cbn. destruct (modelRef (refs s)) as [m|]; cbn.
  - destruct (faults (monaco s)) as [|[msg|] fs]; cbn;
      destruct (saveTimeoutRef (refs s)) eqn:E;
      unfold torn, set_editorRef, set_isDisposedRef, set_saveTimeoutRef,
        set_modelRef; simpl; rewrite ?E; reflexivity.
  - destruct (saveTimeoutRef (refs s)) eqn:E;
      unfold torn, set_editorRef, set_isDisposedRef, set_saveTimeoutRef,
        set_modelRef; simpl; rewrite ?E; reflexivity.
Qed.

Lemma refs_teardown c : refs (state (teardown c)) = torn None (refs (state c)).
Proof.
  rewrite state_teardown, refs_unmountCleanup, state_performCleanup.
  destruct (cleanup c); [rewrite refs_initCleanup|]; reflexivity.
Qed.

Lemma refs_iter_teardown n c :
  refs (state (Nat.iter (S n) teardown c)) = refs (state (teardown c)).
Proof.
  induction n as [|n IH]; [reflexivity|].
  change (Nat.iter (S (S n)) teardown c)
    with (teardown (Nat.iter (S n) teardown c)).
  rewrite refs_teardown, IH, refs_teardown. reflexivity.
Qed.

End TeardownFacts.

(* ===================================================================== *)
(** ** Ownership of models                                                *)
(* ===================================================================== *)

Module ModelFacts.
Import Host React Logic Rules Lifecycle.
Local Open Scope host_scope.

Lemma noLive_owned s : noLive s -> owned s.
Proof. intros H i tm Hi Hl. apply H in Hi. congruence. Qed.

Lemma noLive_liveModels s : noLive s -> liveModels s = [].
Proof.
  intros H. apply elem_of_nil_inv. intros tm Ht.
  apply list_elem_of_filter in Ht. destruct Ht as [Hl Hin].
  apply list_elem_of_lookup in Hin. destruct Hin as [i Hi].
  apply H in Hi. congruence.
Qed.

Lemma filter_at_most_one (l : list TextModel) k :
  (forall i tm, l !! i = Some tm -> tm_disposed tm = false -> i = k) ->
  length (filter (fun tm => tm_disposed tm = false) l) <= 1.
Proof.
  revert k. induction l as [|x l IH]; intros k H; simpl; [lia|].
  rewrite filter_cons. destruct (decide (tm_disposed x = false)) as [Hx|Hx].
  - assert (Hk : 0 = k) by (apply (H 0 x); auto).
    assert (Hnil : filter (fun tm => tm_disposed tm = false) l = []).
    { apply elem_of_nil_inv. intros tm Ht.
      apply list_elem_of_filter in Ht. destruct Ht as [Hl Hin].
      apply list_elem_of_lookup in Hin. destruct Hin as [i Hi].
      specialize (H (S i) tm Hi Hl). lia. }
    rewrite Hnil. simpl. lia.
  - apply (IH (pred k)). intros i tm Hi Hl.
    specialize (H (S i) tm Hi Hl). lia.
Qed.

Lemma owned_liveModels s : owned s -> length (liveModels s) <= 1.
Proof.
  intros H. unfold liveModels.
  destruct (modelRef (refs s)) as [m|] eqn:E.
  - apply (filter_at_most_one _ m). intros i tm Hi Hl.
    specialize (H i tm Hi Hl). congruence.
  - apply (filter_at_most_one _ 0). intros i tm Hi Hl.
    specialize (H i tm Hi Hl). congruence.
Qed.

(** *** Primitives *)

Lemma owned_mayRaise : preserves owned mayRaise.
Proof.
  intros s H. unfold exec, mayRaise.
  destruct (faults (monaco s)) as [|[msg|] fs]; exact H.
Qed.

Lemma noLive_mayRaise : preserves noLive mayRaise.
Proof.
  intros s H. unfold exec, mayRaise.
  destruct (faults (monaco s)) as [|[msg|] fs]; exact H.
Qed.

Lemma owned_create th size : preserves owned (monaco_editor_create th size).
Proof. intros s H. exact H. Qed.

Lemma owned_setTimeout text p d : preserves owned (setTimeout text p d).
Proof. intros s H. exact H. Qed.

(** An update of a model that does not bring it back to life. *)
Lemma owned_update_model m f :
  (forall tm, tm_disposed (f tm) = false -> tm_disposed tm = false) ->
  preserves owned (update_model m f).
Proof.
  intros Hf s H i tm Hi Hl. unfold exec, update_model in Hi. simpl in Hi.
  destruct (decide (m = i)) as [->|Hne].
  - rewrite list_lookup_alter_eq in Hi.
    destruct (models (monaco s) !! i) as [tm0|] eqn:E; simplify_eq/=.
    apply (H i tm0 E). auto.
  - rewrite list_lookup_alter_ne in Hi by done. apply (H i tm Hi Hl).
Qed.

Lemma noLive_update_model m f :
  (forall tm, tm_disposed (f tm) = false -> tm_disposed tm = false) ->
  preserves noLive (update_model m f).
Proof.
  intros Hf s H i tm Hi. unfold exec, update_model in Hi. simpl in Hi.
  destruct (decide (m = i)) as [->|Hne].
  - rewrite list_lookup_alter_eq in Hi.
    destruct (models (monaco s) !! i) as [tm0|] eqn:E; simplify_eq/=.
    apply H in E. destruct (tm_disposed (f tm0)) eqn:F; [done|].
    apply Hf in F. congruence.
  - rewrite list_lookup_alter_ne in Hi by done. apply (H i tm Hi).
Qed.

Lemma keeps_set_tm_value v tm :
  tm_disposed (set_tm_value v tm) = false -> tm_disposed tm = false.
Proof. auto. Qed.

Lemma keeps_set_tm_disposed tm :
  tm_disposed (set_tm_disposed true tm) = false -> tm_disposed tm = false.
Proof. discriminate. Qed.

Ltac owned_prim :=
  first [ frame | apply owned_mayRaise | apply owned_create
        | apply owned_setTimeout
        | apply owned_update_model; first [apply keeps_set_tm_value
                                          |apply keeps_set_tm_disposed] ].

Ltac owned_auto :=
  repeat first
    [ owned_prim
    | apply preserves_ret | apply preserves_gets | apply preserves_throw
    | apply preserves_bind; [ | intros ? ]
    | apply preserves_try_catch; [ | intros ? ]
    | apply preserves_forEach; intros ?
    | match goal with
      | |- preserves _ (match ?x with _ => _ end) => destruct x
      | |- preserves _ (if ?x then _ else _) => destruct x
      end
    | progress unfold release ].

Ltac noLive_auto :=
  repeat first
    [ frame | apply noLive_mayRaise
    | apply noLive_update_model; first [apply keeps_set_tm_value
                                       |apply keeps_set_tm_disposed]
    | apply preserves_ret | apply preserves_gets | apply preserves_throw
    | apply preserves_bind; [ | intros ? ]
    | apply preserves_try_catch; [ | intros ? ]
    | apply preserves_forEach; intros ?
    | match goal with
      | |- preserves _ (match ?x with _ => _ end) => destruct x
      | |- preserves _ (if ?x then _ else _) => destruct x
      end
    | progress unfold release ].

Lemma owned_safeDispose r : preserves owned (safeDispose r).
Proof. unfold safeDispose, dispose, update_editor. owned_auto. Qed.

Lemma owned_clearDisposables : preserves owned clearDisposables.
Proof. unfold clearDisposables, safeDispose, dispose, update_editor. owned_auto. Qed.

Lemma owned_writeBuffer e text : preserves owned (writeBuffer e text).
Proof. unfold writeBuffer, update_editor. owned_auto. Qed.

Lemma owned_debouncedSave p text : preserves owned (debouncedSave p text).
Proof. unfold debouncedSave, clearTimeout. owned_auto. Qed.

Lemma owned_contentListener p e : preserves owned (contentListener p e).
Proof.
  unfold contentListener, setEditorState, getValue.
  apply preserves_bind; [frame|intros _].
  destruct (autoSave p); [|apply preserves_ret].
  apply preserves_bind; [apply preserves_gets|intros text].
  apply owned_debouncedSave.
Qed.

Lemma owned_fireContentChanged e : preserves owned (fireContentChanged e).
Proof.
  unfold fireContentChanged. apply preserves_bind; [apply preserves_gets|intros ed].
  destruct ed as [[? ? ? ? [] [p|] ?]|]; try apply preserves_ret.
  apply owned_contentListener.
Qed.

Lemma owned_setValue e text : preserves owned (setValue e text).
Proof.
  unfold setValue. apply preserves_bind; [apply owned_mayRaise|intros _].
  apply preserves_bind; [apply owned_writeBuffer|intros _].
  apply owned_fireContentChanged.
Qed.

Lemma owned_initEffect p : preserves owned (initEffect p).
Proof. unfold initEffect, update_editor. owned_auto. Qed.

Lemma owned_initCleanup e : preserves owned (initCleanup e).
Proof.
  unfold initCleanup, clearTimeout.
  apply preserves_bind; [frame|intros _].
  apply preserves_bind; [apply owned_clearDisposables|intros _].
  apply preserves_bind; [apply owned_safeDispose|intros _].
  owned_auto.
Qed.

(** Disposing the model [modelRef] holds leaves no live model. *)
Lemma safeDispose_owned_model s :
  owned s ->
  noLive (exec (safeDispose (RModel <$> modelRef (refs s))) s).
Proof.
  intros H. destruct (modelRef (refs s)) as [m|] eqn:E; simpl.
  - intros i tm Hi.
    assert (Hm : alter (set_tm_disposed true) m (models (monaco s)) !! i = Some tm).
    { revert Hi. unfold exec, try_catch, dispose, bind, update_model, modify, mayRaise.
      simpl. destruct (faults (monaco s)) as [|[msg|] fs]; simpl; auto. }
    destruct (decide (m = i)) as [->|Hne].
    + rewrite list_lookup_alter_eq in Hm.
      destruct (models (monaco s) !! i); simplify_eq/=. reflexivity.
    + rewrite list_lookup_alter_ne in Hm by done.
      destruct (tm_disposed tm) eqn:F; [reflexivity|].
      specialize (H i tm Hm F). congruence.
  - intros i tm Hi. destruct (tm_disposed tm) eqn:F; [reflexivity|].
    specialize (H i tm Hi F). congruence.
Qed.

Lemma disposePreviousModel_noLive s :
  owned s -> noLive (exec disposePreviousModel s).
Proof.
  intros H. pose proof (safeDispose_owned_model s H) as Hd.
  unfold disposePreviousModel.
  change (noLive (exec (match modelRef (refs s) with
                        | Some m =>
                            safeDispose (Some (RModel m)) ;;
                            modify (with_refs (set_modelRef None))
                        | None => ret tt
                        end) s)).
  destruct (modelRef (refs s)) as [m|]; [|exact Hd].
  rewrite exec_seq by apply noThrow_safeDispose. exact Hd.
Qed.

Lemma createModel_onlyLive v l :
  triple noLive (monaco_editor_createModel v l)
    (fun o s => match o with
                | Return m => onlyLive m s
                | Throw _ => owned s
                end).
Proof.
  intros s H. unfold monaco_editor_createModel, bind, mayRaise.
  destruct (faults (monaco s)) as [|[msg|] fs]; simpl.
  - intros i tm Hi Hl. apply lookup_app_Some in Hi.
    destruct Hi as [Hi|[Hlen Hi]]; [apply H in Hi; congruence|].
    apply list_lookup_singleton_Some in Hi. destruct Hi as [Hi _].
    simpl in *. lia.
  - apply noLive_owned. exact H.
  - intros i tm Hi Hl. apply lookup_app_Some in Hi.
    destruct Hi as [Hi|[Hlen Hi]]; [apply H in Hi; congruence|].
    apply list_lookup_singleton_Some in Hi. destruct Hi as [Hi _].
    simpl in *. lia.
Qed.

Lemma owned_loadEffect p : preserves owned (loadEffect p).
Proof.
  unfold loadEffect. apply preserves_bind; [apply preserves_gets|intros ed].
  apply preserves_bind; [apply preserves_gets|intros d].
  destruct ed as [e|]; [|destruct (currentFile p), d; apply preserves_ret].
  destruct (currentFile p) as [f|].
  - destruct d; [apply preserves_ret|].
    apply preserves_bind; [frame|intros _].
    apply preserves_try_catch; [|intros; unfold setError, setEditorState; owned_auto].
    apply preserves_triple.
    apply triple_bind with (R := fun _ s => noLive s).
    { intros s H. pose proof (disposePreviousModel_noLive s H) as Hn.
      destruct (fst (disposePreviousModel s)); [exact Hn|apply noLive_owned, Hn]. }
    intros _. eapply triple_bind; [apply createModel_onlyLive|].
    intros model. simpl. apply triple_bind with (R := fun _ s => owned s).
    { intros s H i tm Hi Hl. simpl. f_equal. symmetry. apply (H i tm Hi Hl). }
    intros _. apply triple_preserves.
    unfold setModel, focus, setEditorState, update_editor. owned_auto.
  - assert (preserves owned
              (setValue e "" ;; setEditorState (set_language (JS.Str "javascript")))).
    { apply preserves_bind; [apply owned_setValue|intros _; frame]. }
    destruct d; assumption.
Qed.

Lemma owned_unmountCleanup : preserves owned unmountCleanup.
Proof.
  unfold unmountCleanup. apply preserves_bind; [frame|intros _].
  apply preserves_bind; [apply owned_clearDisposables|intros _].
  apply preserves_gets_bind. intros s H.
  apply exec_bind with (I := noLive).
  - apply safeDispose_owned_model, H.
  - apply noLive_owned.
  - intros _ s' H'. apply noLive_owned. revert s' H'.
    change (preserves noLive
      (pending <- gets (fun s => saveTimeoutRef (refs s)) ;;
       match pending with
       | Some i => clearTimeout i ;; modify (with_refs (set_saveTimeoutRef None))
       | None => ret tt
       end ;;
       (modify (with_refs (set_modelRef None)) ;;
        modify (with_refs (set_editorRef None))))).
    unfold clearTimeout. noLive_auto.
Qed.

Lemma owned_themeEffect p : preserves owned (themeEffect p).
Proof. unfold themeEffect, monaco_editor_setTheme. owned_auto. Qed.

Lemma owned_fontSizeEffect p : preserves owned (fontSizeEffect p).
Proof. unfold fontSizeEffect, updateOptions, update_editor. owned_auto. Qed.

Lemma owned_pressSave e : preserves owned (pressSave e).
Proof.
  unfold pressSave. apply preserves_bind; [apply preserves_gets|intros ed].
  destruct ed as [[? ? ? ? [] ? [p|]]|]; try apply preserves_ret.
  unfold handleSave, getValue, saveFileContent, setError. owned_auto.
Qed.

Lemma owned_edit e text : preserves owned (edit e text).
Proof.
  unfold edit. apply preserves_bind; [apply preserves_gets|intros ok].
  destruct ok; [|apply preserves_ret].
  apply preserves_bind; [apply owned_writeBuffer|intros _].
  apply owned_fireContentChanged.
Qed.

Lemma owned_settle k r : preserves owned (settle k r).
Proof. unfold settle, afterSave, setError, setEditorState. owned_auto. Qed.

Lemma owned_fire t : preserves owned (fire t).
Proof. unfold fire, timerBody, saveFileContent. owned_auto. Qed.

Lemma owned_advanceTo t : preserves owned (advanceTo t).
Proof.
  unfold advanceTo. apply preserves_bind; [apply preserves_gets|intros due].
  apply preserves_bind; [|intros _; frame].
  apply preserves_forEach. apply owned_fire.
Qed.

Lemma owned_invariant : Invariant owned.
Proof.
  constructor;
    auto using owned_initEffect, owned_initCleanup, owned_loadEffect,
      owned_themeEffect, owned_fontSizeEffect, owned_unmountCleanup,
      owned_edit, owned_pressSave, owned_advanceTo, owned_settle.
Qed.

Lemma owned_initial fs : owned (initial fs).
Proof. intros i tm Hi. simpl in Hi. discriminate. Qed.

(** *** No two models are ever live at the same moment *)

Lemma preserves_and {A} (I J : State -> Prop) (m : M A) :
  preserves I m -> preserves J m -> preserves (fun s => I s /\ J s) m.
Proof. intros HI HJ s [H1 H2]. split; [apply HI, H1|apply HJ, H2]. Qed.

Lemma countLive_alter (f : TextModel -> TextModel) i (l : list TextModel) :
  (forall tm, tm_disposed (f tm) = false -> tm_disposed tm = false) ->
  countLive (alter f i l) <= countLive l.
Proof.
  intros Hf. unfold countLive. revert i.
  induction l as [|x l IH]; intros i; [simpl; lia|].
  destruct i as [|i]; simpl; rewrite !filter_cons.
  - destruct (decide (tm_disposed (f x) = false)) as [Hx|Hx].
    + rewrite decide_True by (apply Hf, Hx). simpl. lia.
    + destruct (decide (tm_disposed x = false)); simpl; lia.
  - specialize (IH i). change (alter f i l) with (list_alter f i l) in IH.
    destruct (decide (tm_disposed x = false)); simpl; lia.
Qed.

Lemma countLive_noLive s : noLive s -> countLive (models (monaco s)) = 0.
Proof.
  intros H. unfold countLive.
  change (length (liveModels s) = 0). now rewrite noLive_liveModels.
Qed.

Lemma countLive_snoc (l : list TextModel) v lang :
  countLive (l ++ [ {| tm_value := v; tm_language := lang;
                       tm_disposed := false |} ]) = S (countLive l).
Proof.
  unfold countLive. rewrite filter_app, length_app. simpl. lia.
Qed.

Lemma neverTwo_mayRaise : preserves neverTwo mayRaise.
Proof.
  intros s H. unfold exec, mayRaise.
  destruct (faults (monaco s)) as [|[msg|] fs]; exact H.
Qed.

Lemma neverTwo_create th size : preserves neverTwo (monaco_editor_create th size).
Proof. intros s H. exact H. Qed.

Lemma neverTwo_setTimeout text p d : preserves neverTwo (setTimeout text p d).
Proof. intros s H. exact H. Qed.

Lemma neverTwo_update_model m f :
  (forall tm, tm_disposed (f tm) = false -> tm_disposed tm = false) ->
  preserves neverTwo (update_model m f).
Proof.
  intros Hf s [Hc Hp]. split; [|exact Hp].
  pose proof (countLive_alter f m (models (monaco s)) Hf) as Hle.
  unfold countLive in Hle. unfold exec, update_model, modify, liveModels in *.
  simpl. lia.
Qed.

Ltac neverTwo_auto :=
  repeat first
    [ frame | apply neverTwo_mayRaise | apply neverTwo_create
    | apply neverTwo_setTimeout
    | apply neverTwo_update_model; first [apply keeps_set_tm_value
                                         |apply keeps_set_tm_disposed]
    | apply preserves_ret | apply preserves_gets | apply preserves_throw
    | apply preserves_bind; [ | intros ? ]
    | apply preserves_try_catch; [ | intros ? ]
    | apply preserves_forEach; intros ?
    | match goal with
      | |- preserves _ (match ?x with _ => _ end) => destruct x
      | |- preserves _ (if ?x then _ else _) => destruct x
      end
    | progress unfold release ].

Lemma neverTwo_safeDispose r : preserves neverTwo (safeDispose r).
Proof. unfold safeDispose, dispose, update_editor. neverTwo_auto. Qed.

Lemma neverTwo_disposePreviousModel : preserves neverTwo disposePreviousModel.
Proof.
  unfold disposePreviousModel, safeDispose, dispose, update_editor.
  neverTwo_auto.
Qed.

Lemma neverTwo_setValue e text : preserves neverTwo (setValue e text).
Proof.
  unfold setValue, writeBuffer, fireContentChanged, contentListener,
    debouncedSave, clearTimeout, setEditorState, getValue, update_editor.
  neverTwo_auto.
Qed.

Lemma neverTwo_initEffect p : preserves neverTwo (initEffect p).
Proof. unfold initEffect, update_editor. neverTwo_auto. Qed.

Lemma neverTwo_initCleanup e : preserves neverTwo (initCleanup e).
Proof.
  unfold initCleanup, clearDisposables, safeDispose, dispose, clearTimeout,
    update_editor.
  neverTwo_auto.
Qed.

Lemma neverTwo_unmountCleanup : preserves neverTwo unmountCleanup.
Proof.
  unfold unmountCleanup, clearDisposables, safeDispose, dispose, clearTimeout,
    update_editor.
  neverTwo_auto.
Qed.

Lemma neverTwo_themeEffect p : preserves neverTwo (themeEffect p).
Proof. unfold themeEffect, monaco_editor_setTheme. neverTwo_auto. Qed.

Lemma neverTwo_fontSizeEffect p : preserves neverTwo (fontSizeEffect p).
Proof. unfold fontSizeEffect, updateOptions, update_editor. neverTwo_auto. Qed.

Lemma neverTwo_edit e text : preserves neverTwo (edit e text).
Proof.
  unfold edit, writeBuffer, fireContentChanged, contentListener, debouncedSave,
    clearTimeout, setEditorState, getValue, update_editor.
  neverTwo_auto.
Qed.

Lemma neverTwo_pressSave e : preserves neverTwo (pressSave e).
Proof.
  unfold pressSave, handleSave, saveFileContent, setError, getValue.
  neverTwo_auto.
Qed.

Lemma neverTwo_advanceTo t : preserves neverTwo (advanceTo t).
Proof. unfold advanceTo, fire, timerBody, saveFileContent. neverTwo_auto. Qed.

Lemma neverTwo_settle k r : preserves neverTwo (settle k r).
Proof. unfold settle, afterSave, setEditorState, setError. neverTwo_auto. Qed.

(** A model created when none is live is the only one live, and the
    record stays at one. *)
Lemma createModel_neverTwo v l :
  triple (fun s => noLive s /\ neverTwo s) (monaco_editor_createModel v l)
    (fun o s => match o with
                | Return m => onlyLive m s /\ neverTwo s
                | Throw _ => owned s /\ neverTwo s
                end).
Proof.
  intros s [H N].
  pose proof (createModel_onlyLive v l s H) as Ho.
  pose proof (countLive_noLive s H) as Hz.
  destruct N as [Hc Hp].
  unfold monaco_editor_createModel, bind, mayRaise in *.
  destruct (faults (monaco s)) as [|[msg|] fs]; simpl in *;
    (split; [exact Ho|]); unfold neverTwo, liveModels; simpl;
    try (fold (countLive (models (monaco s)
                 ++ [ {| tm_value := v; tm_language := l;
                         tm_disposed := false |} ]));
         rewrite countLive_snoc, Hz);
    try (split; [exact Hc|exact Hp]); lia.
Qed.

(** The load disposes the previous model before it creates the next one:
    at no moment of a load are two models live. *)
Lemma disciplined_loadEffect p :
  preserves (fun s => owned s /\ neverTwo s) (loadEffect p).
Proof.
  unfold loadEffect. apply preserves_bind; [apply preserves_gets|intros ed].
  apply preserves_bind; [apply preserves_gets|intros d].
  destruct ed as [e|]; [|destruct (currentFile p), d; apply preserves_ret].
  destruct (currentFile p) as [f|].
  - destruct d; [apply preserves_ret|].
    apply preserves_bind; [frame|intros _].
    apply preserves_try_catch;
      [|intros; unfold setError, setEditorState;
        apply preserves_bind; [frame|intros _; frame]].
    apply preserves_triple.
    apply triple_bind with (R := fun _ s => noLive s /\ neverTwo s).
    { intros s [H N]. pose proof (disposePreviousModel_noLive s H) as Hn.
      pose proof (neverTwo_disposePreviousModel s N) as Hk.
      unfold exec in Hn, Hk.
      destruct (fst (disposePreviousModel s));
        [split; assumption|split; [apply noLive_owned, Hn|exact Hk]]. }
    intros _. eapply triple_bind; [apply createModel_neverTwo|].
    intros model. simpl.
    apply triple_bind with (R := fun _ s => owned s /\ neverTwo s).
    { intros s [H N]. simpl. split; [|exact N].
      intros i tm Hi Hl. simpl. f_equal. symmetry. apply (H i tm Hi Hl). }
    intros _. apply triple_preserves. apply preserves_and.
    + unfold setModel, focus, setEditorState, update_editor. owned_auto.
    + unfold setModel, focus, setEditorState, update_editor. neverTwo_auto.
  - assert (preserves (fun s => owned s /\ neverTwo s)
              (setValue e "" ;; setEditorState (set_language (JS.Str "javascript")))).
    { apply preserves_and.
      - apply preserves_bind; [apply owned_setValue|intros _; frame].
      - apply preserves_bind; [apply neverTwo_setValue|intros _; frame]. }
    destruct d; assumption.
Qed.

Lemma disciplined_invariant : Invariant (fun s => owned s /\ neverTwo s).
Proof.
  constructor; intros; try apply disciplined_loadEffect; apply preserves_and;
    auto using owned_initEffect, owned_initCleanup, owned_themeEffect,
      owned_fontSizeEffect, owned_unmountCleanup, owned_edit, owned_pressSave,
      owned_advanceTo, owned_settle, neverTwo_initEffect, neverTwo_initCleanup,
      neverTwo_themeEffect, neverTwo_fontSizeEffect, neverTwo_unmountCleanup,
      neverTwo_edit, neverTwo_pressSave, neverTwo_advanceTo, neverTwo_settle.
Qed.

Lemma disciplined_initial fs : owned (initial fs) /\ neverTwo (initial fs).
Proof. split; [apply owned_initial|]. split; simpl; lia. Qed.

(** *** The cleanups release the model *)

Lemma noLive_initCleanup e : preserves noLive (initCleanup e).
Proof.
  unfold initCleanup, clearDisposables, safeDispose, dispose, clearTimeout,
    update_editor.
  noLive_auto.
Qed.

Lemma noLive_unmountCleanup : preserves noLive unmountCleanup.
Proof.
  unfold unmountCleanup, clearDisposables, safeDispose, dispose, clearTimeout,
    update_editor.
  noLive_auto.
Qed.

Lemma unmountCleanup_noLive s : owned s -> noLive (exec unmountCleanup s).
Proof.
  intros H. unfold unmountCleanup.
  rewrite exec_seq by apply noThrow_modify.
  set (s1 := exec (modify _) s).
  assert (Hc : exec clearDisposables s1 = s1) by reflexivity.
  rewrite exec_seq by apply noThrow_clearDisposables. rewrite Hc.
  assert (H1 : owned s1) by exact H.
  change (noLive (exec (safeDispose (RModel <$> modelRef (refs s1)) ;;
    (pending <- gets (fun s => saveTimeoutRef (refs s)) ;;
     match pending with
     | Some i => clearTimeout i ;; modify (with_refs (set_saveTimeoutRef None))
     | None => ret tt
     end ;;
     (modify (with_refs (set_modelRef None)) ;;
      modify (with_refs (set_editorRef None))))) s1)).
  rewrite exec_seq by apply noThrow_safeDispose.
  assert (Hk : preserves noLive
    (pending <- gets (fun s => saveTimeoutRef (refs s)) ;;
     match pending with
     | Some i => clearTimeout i ;; modify (with_refs (set_saveTimeoutRef None))
     | None => ret tt
     end ;;
     (modify (with_refs (set_modelRef None)) ;;
      modify (with_refs (set_editorRef None))))).
  { unfold clearTimeout. noLive_auto. }
  apply Hk, safeDispose_owned_model, H1.
Qed.

Lemma teardown_noLive c : owned (state c) -> noLive (state (teardown c)).
Proof.
  intros H. rewrite state_teardown. apply unmountCleanup_noLive.
  apply performCleanup_inv; [apply owned_invariant|exact H].
Qed.

Lemma iter_teardown_noLive n c :
  owned (state c) -> noLive (state (Nat.iter (S n) teardown c)).
Proof.
  intros H. induction n as [|n IH]; [apply teardown_noLive, H|].
  change (Nat.iter (S (S n)) teardown c)
    with (teardown (Nat.iter (S n) teardown c)).
  apply teardown_noLive, noLive_owned, IH.
Qed.

(** *** What [safeDispose] does to the resource *)

Lemma safeDispose_editor e s ed :
  editors (monaco (exec (safeDispose (Some (REditor e))) s)) !! e = Some ed ->
  es_disposed ed = true.
Proof.
  pose proof (TeardownFacts.objects_safeDispose (REditor e) s) as Ho.
  change (fst (objects (exec (safeDispose (Some (REditor e))) s)) !! e
          = Some ed -> es_disposed ed = true).
  rewrite Ho. unfold objects, exec, release, update_editor, modify. simpl.
  rewrite list_lookup_alter_eq.
  destruct (editors (monaco s) !! e); [|discriminate].
  intros [= <-]. reflexivity.
Qed.

Lemma safeDispose_model m s tm :
  models (monaco (exec (safeDispose (Some (RModel m))) s)) !! m = Some tm ->
  tm_disposed tm = true.
Proof.
  pose proof (TeardownFacts.objects_safeDispose (RModel m) s) as Ho.
  change (snd (objects (exec (safeDispose (Some (RModel m))) s)) !! m
          = Some tm -> tm_disposed tm = true).
  rewrite Ho. unfold objects, exec, release, update_model, modify. simpl.
  rewrite list_lookup_alter_eq.
  destruct (models (monaco s) !! m); [|discriminate].
  intros [= <-]. reflexivity.
Qed.

End ModelFacts.

(* ===================================================================== *)
(** ** Editing, saving and the debounce timer                             *)
(* ===================================================================== *)

Module SaveFacts.
Import Host React Logic Rules Lifecycle.
Local Open Scope host_scope.

Lemma fireContentChanged_live e p ed s :
  editors (monaco s) !! e = Some ed ->
  es_disposed ed = false -> es_listener ed = Some p ->
  fireContentChanged e s = contentListener p e s.
Proof.
  intros He Hd Hl. unfold fireContentChanged, bind, gets. rewrite He.
  destruct ed; simpl in *; subst; reflexivity.
Qed.

Lemma fireContentChanged_dead e s :
  (forall ed, editors (monaco s) !! e = Some ed -> es_disposed ed = true) ->
  fireContentChanged e s = (Return tt, s).
Proof.
  intros H. unfold fireContentChanged, bind, gets.
  destruct (editors (monaco s) !! e) as [ed|] eqn:E; [|reflexivity].
  specialize (H ed eq_refl). destruct ed; simpl in *; subst. reflexivity.
Qed.

(** What [debouncedSave] leaves when every pending timer is tracked. *)
Lemma debouncedSave_spec p text s :
  tracked s ->
  let s' := exec (debouncedSave p text) s in
  raises (debouncedSave p text) s = false
  /\ timers (loop s') =
       [ {| t_id := nextTimer (loop s);
            t_due := now (loop s) + autoSaveDelay p;
            t_content := text; t_closure := p |} ]
  /\ saveTimeoutRef (refs s') = Some (nextTimer (loop s))
  /\ now (loop s') = now (loop s)
  /\ monaco s' = monaco s /\ project s' = project s
  /\ editorState s' = editorState s
  /\ editorRef (refs s') = editorRef (refs s).
Proof.
  intros H. unfold debouncedSave, exec, raises, bind, gets, clearTimeout, modify.
  destruct (saveTimeoutRef (refs s)) as [i|] eqn:E; simpl.
  - rewrite TeardownFacts.filter_others_nil.
    + repeat split; reflexivity.
    + intros t Ht. apply H in Ht. congruence.
  - assert (Hnil : timers (loop s) = []).
    { apply elem_of_nil_inv. intros t Ht. apply H in Ht. congruence. }
    rewrite Hnil. repeat split; reflexivity.
Qed.

(** What [writeBuffer] leaves on a surface that accepts input. *)
Lemma writeBuffer_spec e text s ed :
  editors (monaco s) !! e = Some ed -> editable s e = true ->
  let s' := exec (writeBuffer e text) s in
  raises (writeBuffer e text) s = false
  /\ refs s' = refs s /\ loop s' = loop s /\ project s' = project s
  /\ editorState s' = editorState s
  /\ valueOf s' e = text
  /\ editable s' e = true
  /\ (exists ed', editors (monaco s') !! e = Some ed'
                  /\ es_disposed ed' = es_disposed ed
                  /\ es_listener ed' = es_listener ed
                  /\ es_command ed' = es_command ed)
  /\ (forall e' ed', editors (monaco s') !! e' = Some ed' ->
        exists ed0, editors (monaco s) !! e' = Some ed0
                    /\ es_disposed ed0 = es_disposed ed').
Proof.
  intros He Hed. unfold writeBuffer, exec, raises, bind, gets. rewrite He.
  unfold editable in Hed. rewrite He in Hed.
  apply andb_true_iff in Hed. destruct Hed as [Hd Hm].
  apply negb_true_iff in Hd.
  destruct (es_model ed) as [m|] eqn:Em.
  - destruct (models (monaco s) !! m) as [tm|] eqn:Etm; [|discriminate].
    unfold update_model, modify, valueOf, editable. simpl.
    rewrite He, Em, list_lookup_alter_eq, Etm, Hd. simpl.
    repeat split; eauto.
  - unfold update_editor, modify, valueOf, editable. simpl.
    rewrite list_lookup_alter_eq, He. simpl. rewrite Em, Hd.
    repeat split; eauto.
    intros e' ed' H'. destruct (decide (e = e')) as [->|Hne].
    + rewrite list_lookup_alter_eq, He in H'. simplify_eq/=. eauto.
    + rewrite list_lookup_alter_ne in H' by done. eauto.
Qed.

Lemma ready_tracked p e s : ready p e s -> tracked s.
Proof. intros (_ & _ & _ & _ & Hp & _) t Ht. apply Hp, Ht. Qed.

(** An edit of the live surface: the text is in the buffer, and with
    auto-save on the only pending timer is a new one, for that text. *)
Lemma edit_spec p e text s :
  ready p e s ->
  let s' := exec (edit e text) s in
  ready p e s'
  /\ raises (edit e text) s = false
  /\ valueOf s' e = text
  /\ now (loop s') = now (loop s)
  /\ project s' = project s
  /\ (autoSave p = true ->
      timers (loop s') =
        [ {| t_id := nextTimer (loop s);
             t_due := now (loop s) + autoSaveDelay p;
             t_content := text; t_closure := p |} ])
  /\ (autoSave p = false -> timers (loop s') = timers (loop s)).
Proof.
  intros Hr. pose proof (ready_tracked _ _ _ Hr) as Htr.
  destruct Hr as (Href & (ed & He & Hd & Hl & Hc) & Honly & Hed & Hpend & Hone).
  pose proof (writeBuffer_spec e text s ed He Hed) as W.
  unfold edit, exec, raises, bind, gets in *. rewrite Hed.
  destruct (writeBuffer e text s) as [[[]|msg] s1]; simpl in W;
    destruct W as (Wr & Wrefs & Wloop & Wproj & Wui & Wval & Wed & (ed1 & He1 & Hd1 & Hl1 & Hc1) & Woth);
    [|discriminate].
  rewrite (fireContentChanged_live e p ed1 s1) by congruence.
  unfold contentListener, bind, setEditorState, modify, getValue, gets.
  set (s2 := with_editorState (set_hasUnsavedChanges true) s1).
  assert (Honly1 : forall e' ed', editors (monaco s1) !! e' = Some ed' ->
                                  es_disposed ed' = false -> e' = e).
  { intros e' ed' H' Hd'. destruct (Woth e' ed' H') as (ed0 & H0 & Hd0).
    apply (Honly e' ed0 H0). congruence. }
  destruct (autoSave p) eqn:Ea.
  - assert (Htr2 : tracked s2).
    { intros t Ht. change (t ∈ timers (loop s1)) in Ht.
      change (saveTimeoutRef (refs s1) = Some (t_id t)).
      rewrite Wloop in Ht. rewrite Wrefs. apply Htr, Ht. }
    pose proof (debouncedSave_spec p (valueOf s2 e) s2 Htr2) as D.
    unfold exec, raises in D.
    destruct (debouncedSave p (valueOf s2 e) s2) as [[[]|msg] s3]; simpl in *;
      destruct D as (Dr & Dt & Dref & Dnow & Dmon & Dproj & Dui & Ded);
      [|discriminate].
    change (valueOf s2 e) with (valueOf s1 e) in Dt. rewrite Wval in Dt.
    change (loop s2) with (loop s1) in Dt, Dnow, Dref.
    rewrite Wloop in Dt, Dnow, Dref.
    assert (Hv3 : valueOf s3 e = text).
    { unfold valueOf. rewrite Dmon. exact Wval. }
    repeat split; try done.
    + rewrite Ded. change (editorRef (refs s1) = Some e). congruence.
    + exists ed1. rewrite Dmon. repeat split; congruence.
    + intros e' ed'. rewrite Dmon. apply Honly1.
    + unfold editable. rewrite Dmon. exact Wed.
    + rewrite Dt in H. apply list_elem_of_singleton in H. subst t.
      simpl. rewrite Dref. reflexivity.
    + rewrite Dt in H. apply list_elem_of_singleton in H. subst t.
      simpl. congruence.
    + rewrite Dt in H. apply list_elem_of_singleton in H. subst t.
      reflexivity.
    + rewrite Dt in H. apply list_elem_of_singleton in H. subst t.
      simpl. rewrite Dnow. lia.
    + rewrite Dt. simpl. lia.
    + rewrite Dproj. exact Wproj.
  - simpl. assert (Hnil : timers (loop s) = []).
    { apply elem_of_nil_inv. intros t Ht.
      destruct (Hpend t Ht) as (_ & _ & _ & Hf & _). discriminate. }
    subst s2. simpl.
    repeat split; try done; try congruence;
      try (exfalso; match goal with
                    | H : _ ∈ _ |- _ =>
                        simpl in H; rewrite Wloop, Hnil in H; inversion H
                    end).
    + simpl. congruence.
    + exists ed1. simpl. repeat split; congruence.
    + simpl. rewrite Wloop, Hnil. simpl. lia.
Qed.

Lemma editable_dead s e :
  (forall ed, editors (monaco s) !! e = Some ed -> es_disposed ed = true) ->
  editable s e = false.
Proof.
  intros H. unfold editable.
  destruct (editors (monaco s) !! e) as [ed|] eqn:E; [|reflexivity].
  rewrite (H ed eq_refl). reflexivity.
Qed.

Lemma ready_others_dead p e s e' :
  ready p e s -> e' <> e ->
  forall ed, editors (monaco s) !! e' = Some ed -> es_disposed ed = true.
Proof.
  intros (_ & _ & Honly & _) Hne ed He.
  destruct (es_disposed ed) eqn:Hd; [reflexivity|].
  specialize (Honly e' ed He Hd). contradiction.
Qed.

(** Input to any other surface goes nowhere. *)
Lemma edit_other p e s e' text :
  ready p e s -> e' <> e -> edit e' text s = (Return tt, s).
Proof.
  intros Hr Hne. unfold edit, bind, gets.
  rewrite editable_dead; [reflexivity|].
  apply (ready_others_dead p e s e' Hr Hne).
Qed.

Lemma pressSave_other p e s e' :
  ready p e s -> e' <> e -> pressSave e' s = (Return tt, s).
Proof.
  intros Hr Hne. unfold pressSave, bind, gets.
  destruct (editors (monaco s) !! e') as [ed|] eqn:E; [|reflexivity].
  pose proof (ready_others_dead p e s e' Hr Hne ed E) as Hd.
  destruct ed; simpl in *; subst. reflexivity.
Qed.

(** Ctrl/Cmd+S in the live surface persists the text it shows, at once. *)
Lemma pressSave_spec p e s :
  ready p e s ->
  let s' := exec (pressSave e) s in
  raises (pressSave e) s = false
  /\ refs s' = refs s /\ monaco s' = monaco s /\ loop s' = loop s
  /\ persisted (project s') =
       persisted (project s) ++
       match currentFile p with
       | Some f => [manualSaveCall (now (loop s)) f (valueOf s e)]
       | None => []
       end.
Proof.
  intros (Href & (ed & He & Hd & Hl & Hc) & _).
  unfold pressSave, exec, raises, bind, gets. rewrite He.
  destruct ed; simpl in *; subst. unfold handleSave.
  destruct (currentFile p) as [f|]; simpl.
  - unfold bind, gets. rewrite Href. simpl. repeat split; reflexivity.
  - rewrite app_nil_r. repeat split; reflexivity.
Qed.

Lemma ready_agree p e s s' :
  refs s' = refs s -> monaco s' = monaco s -> loop s' = loop s ->
  ready p e s -> ready p e s'.
Proof.
  intros Hr Hm Hl. unfold ready, editable, valueOf. rewrite Hr, Hm, Hl. auto.
Qed.

Lemma settle_spec k r s :
  let s' := exec (settle k r) s in
  raises (settle k r) s = false
  /\ refs s' = refs s /\ monaco s' = monaco s /\ loop s' = loop s
  /\ persisted (project s') = persisted (project s).
Proof.
  unfold settle, exec, raises, bind, gets.
  destruct (inflight (project s) !! k) as [c|]; simpl; [|repeat split; reflexivity].
  destruct r as [|msg]; simpl; [repeat split; reflexivity|].
  destruct (p_kind c); simpl; repeat split; reflexivity.
Qed.

Lemma forEach_single {A} (f : A -> M unit) x s : forEach [x] f s = f x s.
Proof.
  simpl. unfold bind, ret. destruct (f x s) as [[[]|msg] s']; reflexivity.
Qed.

(** What a timer of the live surface does when it fires. *)
Lemma fire_spec p t s :
  t_closure t = p -> autoSave p = true ->
  timers (loop s) = [t] -> now (loop s) <= t_due t ->
  let s' := exec (fire t) s in
  raises (fire t) s = false
  /\ refs s' = refs s /\ monaco s' = monaco s
  /\ timers (loop s') = [] /\ now (loop s') = t_due t
  /\ persisted (project s') =
       persisted (project s) ++
       match currentFile p with
       | Some f => [autoSaveCall (t_due t) f (t_content t)]
       | None => []
       end.
Proof.
  intros Hc Ha Ht Hn. unfold fire, exec, raises, bind, modify, timerBody.
  rewrite Hc, Ha.
  destruct (currentFile p) as [f|]; unfold saveFileContent, modify, ret; simpl;
    rewrite Ht, filter_cons, filter_nil;
    (destruct (decide (t_id t <> t_id t)) as [Hne|_]; [contradiction|]);
    rewrite Nat.max_r by exact Hn.
  - repeat split; reflexivity.
  - rewrite app_nil_r. repeat split; reflexivity.
Qed.

(** Time passing over a ready host: the pending timer, if it is due,
    fires at its due time. *)
Lemma advanceTo_spec p e T s :
  ready p e s ->
  let s' := exec (advanceTo T) s in
  ready p e s'
  /\ raises (advanceTo T) s = false
  /\ now (loop s') = Nat.max (now (loop s)) T
  /\ valueOf s' e = valueOf s e
  /\ match timers (loop s) with
     | [t] =>
         if Nat.leb (t_due t) T
         then timers (loop s') = []
              /\ persisted (project s') =
                   persisted (project s) ++
                   match currentFile p with
                   | Some f => [autoSaveCall (t_due t) f (t_content t)]
                   | None => []
                   end
         else timers (loop s') = [t]
              /\ persisted (project s') = persisted (project s)
     | _ => timers (loop s') = timers (loop s)
            /\ persisted (project s') = persisted (project s)
     end.
Proof.
  intros Hr. pose proof Hr as (Href & Hed & Honly & Hedit & Hpend & Hone).
  destruct (timers (loop s)) as [|t [|u rest]] eqn:Et; simpl in Hone; [| |lia].
  - unfold advanceTo, exec, raises, bind, gets. cbv beta. rewrite Et. simpl.
    repeat split; try done;
      try (exfalso; match goal with
                    | H : _ ∈ _ |- _ => simpl in H; rewrite Et in H; inversion H
                    end).
    simpl. rewrite Et. simpl. lia.
  - destruct (Hpend t) as (Hsave & Hcont & Hclo & Hauto & Hnow);
      [apply list_elem_of_singleton; reflexivity|].
    unfold advanceTo, exec, raises, bind, gets. cbv beta. rewrite Et.
    rewrite filter_cons, filter_nil.
    destruct (Nat.leb_spec (t_due t) T) as [Hle|Hgt].
    + destruct (decide (t_due t <= T)) as [_|Hn]; [|contradiction].
      change (dueOrder [t]) with [t]. rewrite forEach_single.
      pose proof (fire_spec p t s Hclo Hauto Et Hnow) as F.
      unfold exec, raises in F.
      destruct (fire t s) as [[[]|msg] s1]; simpl in *;
        destruct F as (Fr & Frefs & Fmon & Ft & Fnow & Fp); [|discriminate].
      repeat split; try done;
        try (exfalso; match goal with
                      | H : _ ∈ _ |- _ => simpl in H; rewrite Ft in H; inversion H
                      end); simpl.
      * congruence.
      * rewrite Fmon. exact Hed.
      * rewrite Fmon. exact Honly.
      * unfold editable. simpl. rewrite Fmon. exact Hedit.
      * rewrite Ft. simpl. lia.
      * rewrite Fnow. lia.
      * unfold valueOf. simpl. rewrite Fmon. reflexivity.
    + destruct (decide (t_due t <= T)) as [Hle|_]; [lia|].
      simpl. repeat split; try done;
        try match goal with H : _ ∈ _ |- _ => simpl in H end; simpl.
      * rewrite Et in H. apply Hpend. exact H.
      * rewrite Et in H. apply (Hpend _ H).
      * rewrite Et in H. apply Hpend. exact H.
      * rewrite Et in H. apply list_elem_of_singleton in H. subst. lia.
      * rewrite Et. simpl. lia.
Qed.

(** User events keep a ready host ready. *)
Lemma step_ready p e c ev :
  userEvent ev = true -> ready p e (state c) -> ready p e (state (step c ev)).
Proof.
  intros Hu Hr. destruct ev as [q|e' text|e'|t|k r| |]; try discriminate; simpl;
    rewrite state_perform.
  - destruct (decide (e' = e)) as [->|Hne].
    + apply (edit_spec p e text (state c) Hr).
    + unfold exec. rewrite (edit_other p e (state c) e' text Hr Hne). exact Hr.
  - destruct (decide (e' = e)) as [->|Hne].
    + destruct (pressSave_spec p e (state c) Hr) as (_ & H1 & H2 & H3 & _).
      apply (ready_agree p e (state c)); auto.
    + unfold exec. rewrite (pressSave_other p e (state c) e' Hr Hne). exact Hr.
  - apply (advanceTo_spec p e t (state c) Hr).
  - destruct (settle_spec k r (state c)) as (_ & H1 & H2 & H3 & _).
    apply (ready_agree p e (state c)); auto.
Qed.

Lemma run_ready p e evs c :
  forallb userEvent evs = true ->
  ready p e (state c) -> ready p e (state (run evs c)).
Proof.
  revert c. induction evs as [|ev evs IH]; intros c Hu Hr; simpl; [exact Hr|].
  simpl in Hu. apply andb_true_iff in Hu. destruct Hu as [Hev Hevs].
  apply IH; [exact Hevs|]. apply step_ready; assumption.
Qed.

Lemma only_first (ed0 : EditorSession) e' ed :
  [ed0] !! e' = Some ed -> e' = 0.
Proof. destruct e' as [|e']; [reflexivity|]. simpl. discriminate. Qed.

(** The first commit leaves the host ready, whatever the library raises
    while the file loads. *)
Lemma mount_ready p fs : ready p 0 (state (mount p fs)).
Proof.
  destruct p as [th size auto delay file].
  destruct file as [f|]; destruct auto;
    destruct fs as [|[m1|] [|[m2|] [|[m3|] fs]]]; vm_compute;
    (split; [reflexivity|];
     split; [eexists; repeat split; reflexivity|];
     split; [intros e' ed He _; apply (only_first _ _ _ He)|];
     split; [reflexivity|];
     split; [|lia];
     intros t Ht;
     first [ inversion Ht; fail
           | apply list_elem_of_singleton in Ht; subst t;
             repeat split; lia ]).
Qed.

End SaveFacts.

(* ===================================================================== *)
(** ** Language detection                                                 *)
(* ===================================================================== *)

Module LanguageFacts.

Import JS Scenarios.

Lemma split_nonempty sep s : JS.split sep s <> [].
Proof.
  destruct s as [|c s]; simpl; [discriminate|].
  destruct (Ascii.eqb c sep); [discriminate|].
  destruct (JS.split sep s); discriminate.
Qed.

Lemma split_no_dot s : hasDot s = false -> JS.split "." s = [s].
Proof.
  induction s as [|c s IH]; simpl; [reflexivity|].
  intros H. apply orb_false_iff in H. destruct H as [Hc Hs].
  rewrite Hc, (IH Hs). reflexivity.
Qed.

Lemma last_cons_nonempty {A} (x : A) l : l <> [] -> last (x :: l) = last l.
Proof. destruct l; [contradiction|reflexivity]. Qed.

(** [(stem + '.' + ext).split('.').pop()] is [ext] when [ext] has no dot. *)
Lemma pop_split_extension stem ext :
  hasDot ext = false ->
  JS.pop (JS.split "." (stem ++ String "." ext)) = Some ext.
Proof.
  intros H. unfold JS.pop. induction stem as [|c stem IH]; simpl.
  - rewrite (split_no_dot ext H). reflexivity.
  - destruct (Ascii.eqb c ".").
    + rewrite last_cons_nonempty by apply split_nonempty. exact IH.
    + destruct (JS.split "." (stem ++ String "." ext)) as [|seg segs] eqn:E.
      * exfalso. apply (split_nonempty _ _ E).
      * destruct segs as [|seg' segs]; simpl in *; [|exact IH].
        exfalso. inversion IH. subst seg.
        assert (Hd : hasDot (stem ++ String "." ext) = true).
        { clear. induction stem as [|c' stem IH]; simpl; [reflexivity|].
          rewrite IH. apply orb_true_r. }
        assert (Hs : forall s, hasDot s = true -> exists a b r, JS.split "." s = a :: b :: r).
        { clear. induction s as [|c' s IH]; simpl; [discriminate|].
          destruct (Ascii.eqb c' ".") eqn:Ec; simpl.
          - intros _. destruct (JS.split "." s) as [|x r] eqn:Er.
            + exfalso. apply (split_nonempty _ _ Er).
            + eauto.
          - intros Hs. destruct (IH Hs) as (a & b & r & ->). eauto. }
        destruct (Hs _ Hd) as (a & b & r & Hab). congruence.
Qed.

Lemma own_In table key v : JS.own table key = Some v -> In (key, v) table.
Proof.
  induction table as [|[k w] table IH]; simpl; [discriminate|].
  destruct (String.eqb_spec k key) as [->|Hne].
  - intros [= ->]. left. reflexivity.
  - intros H. right. apply IH, H.
Qed.

Lemma editor_values_truthy key v :
  JS.own Editor.languageMap key = Some v -> JS.truthy (JS.Str v) = true.
Proof.
  intros H. apply own_In in H.
  assert (Hall : Forall (fun kv => JS.truthy (JS.Str (snd kv)) = true)
                        Editor.languageMap).
  { repeat constructor. }
  rewrite Forall_forall in Hall. apply (Hall (key, v)).
  apply list_elem_of_In. exact H.
Qed.

Lemma toolbar_values_truthy key v :
  JS.own Toolbar.languageMap key = Some v -> JS.truthy (JS.Str v) = true.
Proof.
  intros H. apply own_In in H.
  assert (Hall : Forall (fun kv => JS.truthy (JS.Str (snd kv)) = true)
                        Toolbar.languageMap).
  { repeat constructor. }
  rewrite Forall_forall in Hall. apply (Hall (key, v)).
  apply list_elem_of_In. exact H.
Qed.

(** A supported extension, in any letter case, is detected as the language
    the table gives for it. *)
Lemma getLanguageFromExtension_supported stem ext lang :
  hasDot ext = false ->
  JS.own Editor.languageMap (JS.toLowerCase ext) = Some lang ->
  Editor.getLanguageFromExtension (Some (stem ++ String "." ext)%string) = JS.Str lang.
Proof.
  intros Hd Ho. unfold Editor.getLanguageFromExtension, Editor.extensionOf.
  rewrite (pop_split_extension stem ext Hd).
  change (JS.toLowerCase <$> Some ext) with (Some (JS.toLowerCase ext)).
  unfold JS.get. cbn [JS.propertyKey]. rewrite Ho. unfold JS.or.
  rewrite (editor_values_truthy _ _ Ho). reflexivity.
Qed.

(** An extension that is neither in the table nor the name of a property
    of [Object.prototype] falls back to plain text. *)
Lemma getLanguageFromExtension_unknown stem ext :
  hasDot ext = false ->
  JS.own Editor.languageMap (JS.toLowerCase ext) = None ->
  JS.inherited (JS.toLowerCase ext) = JS.Undefined ->
  Editor.getLanguageFromExtension (Some (stem ++ String "." ext)%string)
  = JS.Str "plaintext".
Proof.
  intros Hd Ho Hi. unfold Editor.getLanguageFromExtension, Editor.extensionOf.
  rewrite (pop_split_extension stem ext Hd).
  change (JS.toLowerCase <$> Some ext) with (Some (JS.toLowerCase ext)).
  unfold JS.get. cbn [JS.propertyKey]. rewrite Ho, Hi. reflexivity.
Qed.

Lemma getLanguageFromFile_nameless file :
  Toolbar.nameless file = true ->
  Toolbar.getLanguageFromFile file = JS.Str "javascript".
Proof.
  destruct file as [[i [n|] m c]|]; simpl; try reflexivity.
  intros ->. reflexivity.
Qed.

Lemma getLanguageFromFile_unknown i m c stem ext :
  hasDot ext = false ->
  JS.own Toolbar.languageMap (JS.toLowerCase ext) = None ->
  JS.inherited (JS.toLowerCase ext) = JS.Undefined ->
  Toolbar.getLanguageFromFile
    (Some {| id := i; name := Some (stem ++ String "." ext)%string;
             metadata := m; content := c |})
  = JS.Str "javascript".
Proof.
  intros Hd Ho Hi. unfold Toolbar.getLanguageFromFile.
  destruct (String.eqb_spec (stem ++ String "." ext)%string "") as [He|_].
  - reflexivity.
  - rewrite (pop_split_extension stem ext Hd).
    change (JS.toLowerCase <$> Some ext) with (Some (JS.toLowerCase ext)).
    unfold JS.get. cbn [JS.propertyKey]. rewrite Ho, Hi. reflexivity.
Qed.

(** No key occurs twice in either table, so the first binding [own] finds
    is the only one. *)
Lemma editor_keys_distinct : NoDup (fst <$> Editor.languageMap).
Proof. apply (bool_decide_unpack _). vm_compute. exact I. Qed.

Lemma toolbar_keys_distinct : NoDup (fst <$> Toolbar.languageMap).
Proof. apply (bool_decide_unpack _). vm_compute. exact I. Qed.

Example split_trailing_dot : JS.split "." "a.b." = ["a"; "b"; ""].
Proof. reflexivity. Qed.

Example split_leading_dot : JS.pop (JS.split "." ".gitignore") = Some "gitignore".
Proof. reflexivity. Qed.

(** The detectors on a few names. *)
Example detect_upper_case :
  Editor.getLanguageFromExtension (Some "main.PY") = JS.Str "python".
Proof. reflexivity. Qed.

Example detect_last_segment :
  Editor.getLanguageFromExtension (Some "archive.tar.Json") = JS.Str "json".
Proof. reflexivity. Qed.

Example detect_no_dot :
  Editor.getLanguageFromExtension (Some "Makefile") = JS.Str "plaintext".
Proof. reflexivity. Qed.

Example detect_undefined :
  Editor.getLanguageFromExtension None = JS.Str "plaintext".
Proof. reflexivity. Qed.

Example detect_proto :
  Editor.getLanguageFromExtension (Some "x.__PROTO__") = JS.ObjectPrototype.
Proof. reflexivity. Qed.

Example detect_camel_case_method :
  Editor.getLanguageFromExtension (Some "x.toString") = JS.Str "plaintext".
Proof. reflexivity. Qed.

Example toolbar_null : Toolbar.getLanguageFromFile None = JS.Str "javascript".
Proof. reflexivity. Qed.

Example toolbar_kotlin :
  Toolbar.getLanguageFromFile (Some (named "k" "Build.KTS" ""))
  = JS.Str "kotlin".
Proof. reflexivity. Qed.

End LanguageFacts.

(* ===================================================================== *)
(** ** A finished host stays finished                                     *)
(* ===================================================================== *)

Module DeadFacts.
Import Host React Logic Rules Lifecycle Conditions.
Local Open Scope host_scope.

Lemma finished_refs log (f : Refs -> Refs) :
  (forall r, isDisposedRef r = true -> editorRef r = None ->
             isDisposedRef (f r) = true /\ editorRef (f r) = None) ->
  preserves (finished log) (modify (with_refs f)).
Proof.
  intros Hf s ((Hd & He & Ha & Ht) & Hp). destruct (Hf _ Hd He) as [H1 H2].
  split; [|exact Hp]. split; [exact H1|]. split; [exact H2|].
  split; [exact Ha|exact Ht].
Qed.

Lemma finished_update_editor log e (f : EditorSession -> EditorSession) :
  (forall ed, es_disposed ed = true -> es_disposed (f ed) = true) ->
  preserves (finished log) (update_editor e f).
Proof.
  intros Hf s ((Hd & He & Ha & Ht) & Hp).
  split; [|exact Hp]. split; [exact Hd|]. split; [exact He|].
  split; [|exact Ht].
  intros e' ed' Hl. unfold exec, update_editor, modify in Hl. simpl in Hl.
  destruct (decide (e' = e)) as [->|Hne].
  - rewrite list_lookup_alter_eq in Hl.
    destruct (editors (monaco s) !! e) as [ed|] eqn:E; [|discriminate].
    injection Hl as <-. apply Hf, (Ha e ed E).
  - rewrite list_lookup_alter_ne in Hl by congruence. apply (Ha e' ed' Hl).
Qed.

Lemma finished_update_model log m (f : TextModel -> TextModel) :
  preserves (finished log) (update_model m f).
Proof. intros s H. exact H. Qed.

Lemma finished_mayRaise log : preserves (finished log) mayRaise.
Proof.
  intros s H. unfold exec, mayRaise.
  destruct (faults (monaco s)) as [|[msg|] fs]; exact H.
Qed.

Lemma finished_clearTimeout log i : preserves (finished log) (clearTimeout i).
Proof.
  intros s ((Hd & He & Ha & Ht) & Hp).
  split; [|exact Hp]. split; [exact Hd|]. split; [exact He|].
  split; [exact Ha|]. unfold exec, clearTimeout. simpl. rewrite Ht. reflexivity.
Qed.

Lemma finished_createModel log v l :
  preserves (finished log) (monaco_editor_createModel v l).
Proof.
  unfold monaco_editor_createModel.
  apply preserves_bind; [apply finished_mayRaise|intros _]. intros s H. exact H.
Qed.

Ltac finished_prim :=
  first [ frame | apply finished_mayRaise | apply finished_clearTimeout
        | apply finished_update_model | apply finished_createModel
        | apply finished_update_editor; intros ? ?; (reflexivity || assumption)
        | apply finished_refs; intros ? ? ?; split; (reflexivity || assumption) ].

Ltac finished_auto :=
  repeat first
    [ finished_prim
    | apply preserves_ret | apply preserves_gets | apply preserves_throw
    | apply preserves_bind; [ | intros ? ]
    | apply preserves_try_catch; [ | intros ? ]
    | apply preserves_forEach; intros ?
    | match goal with
      | |- preserves _ (match ?x with _ => _ end) => destruct x
      | |- preserves _ (if ?x then _ else _) => destruct x
      end
    | progress unfold release ].

Lemma finished_safeDispose log r : preserves (finished log) (safeDispose r).
Proof. unfold safeDispose, dispose. finished_auto. Qed.

Lemma finished_clearDisposables log : preserves (finished log) clearDisposables.
Proof. unfold clearDisposables, safeDispose, dispose. finished_auto. Qed.

Lemma finished_initCleanup log e : preserves (finished log) (initCleanup e).
Proof.
  unfold initCleanup, clearDisposables, safeDispose, dispose. finished_auto.
Qed.

Lemma finished_unmountCleanup log : preserves (finished log) unmountCleanup.
Proof.
  unfold unmountCleanup, clearDisposables, safeDispose, dispose. finished_auto.
Qed.

Lemma initEffect_disposed p s :
  isDisposedRef (refs s) = true -> initEffect p s = (Return None, s).
Proof.
  intros H. unfold initEffect, bind, gets. rewrite H, orb_true_r. reflexivity.
Qed.

Lemma finished_initEffect log p : preserves (finished log) (initEffect p).
Proof.
  intros s H. unfold exec.
  rewrite initEffect_disposed by apply H. exact H.
Qed.

Lemma loadEffect_detached p s :
  editorRef (refs s) = None -> loadEffect p s = (Return tt, s).
Proof. intros H. unfold loadEffect, bind, gets. rewrite H. reflexivity. Qed.

Lemma finished_loadEffect log p : preserves (finished log) (loadEffect p).
Proof.
  intros s H. unfold exec. rewrite loadEffect_detached by apply H. exact H.
Qed.

Lemma finished_themeEffect log p : preserves (finished log) (themeEffect p).
Proof.
  intros s H. unfold exec, themeEffect, bind, gets.
  destruct H as ((Hd & He & Ha & Ht) & Hp). rewrite He.
  repeat split; assumption.
Qed.

Lemma finished_fontSizeEffect log p : preserves (finished log) (fontSizeEffect p).
Proof.
  intros s H. unfold exec, fontSizeEffect, bind, gets.
  destruct H as ((Hd & He & Ha & Ht) & Hp). rewrite He.
  repeat split; assumption.
Qed.

Lemma finished_edit log e text : preserves (finished log) (edit e text).
Proof.
  intros s H. unfold exec, edit, bind, gets.
  rewrite SaveFacts.editable_dead; [exact H|].
  intros ed Hl. destruct H as ((_ & _ & Ha & _) & _). apply (Ha e ed Hl).
Qed.

Lemma finished_pressSave log e : preserves (finished log) (pressSave e).
Proof.
  intros s H. unfold exec, pressSave, bind, gets.
  destruct (editors (monaco s) !! e) as [ed|] eqn:E; [|exact H].
  assert (Hd : es_disposed ed = true).
  { destruct H as ((_ & _ & Ha & _) & _). apply (Ha e ed E). }
  destruct ed as [m v th fs d l c]. simpl in Hd. subst d. exact H.
Qed.

Lemma finished_advanceTo log t : preserves (finished log) (advanceTo t).
Proof.
  intros s H. unfold exec, advanceTo, bind, gets.
  destruct H as ((Hd & He & Ha & Ht) & Hp). rewrite Ht. simpl.
  repeat split; assumption.
Qed.

Lemma finished_settle log k r : preserves (finished log) (settle k r).
Proof.
  unfold settle, afterSave, setEditorState, setError. finished_auto.
Qed.

(** Nothing the component or its user can do brings a finished host back:
    it stays finished and makes no further persist call. *)
Lemma finished_invariant log : Invariant (finished log).
Proof.
  constructor; intros;
    auto using finished_initEffect, finished_initCleanup, finished_loadEffect,
      finished_themeEffect, finished_fontSizeEffect, finished_unmountCleanup,
      finished_edit, finished_pressSave, finished_advanceTo, finished_settle.
Qed.

Lemma dead_finished s : dead s -> finished (persisted (project s)) s.
Proof. intros H. split; [exact H|reflexivity]. Qed.

(** *** The cleanup of the init effect finishes the host *)

Lemma allDisposed_release_editor e s :
  (forall e' ed, editors (monaco s) !! e' = Some ed ->
                 es_disposed ed = false -> e' = e) ->
  allDisposed (exec (release (REditor e)) s).
Proof.
  intros Hone e' ed' Hl. unfold exec, release, update_editor, modify in Hl.
  simpl in Hl. destruct (decide (e' = e)) as [->|Hne].
  - rewrite list_lookup_alter_eq in Hl.
    destruct (editors (monaco s) !! e) as [ed|]; [|discriminate].
    injection Hl as <-. reflexivity.
  - rewrite list_lookup_alter_ne in Hl by congruence.
    destruct (es_disposed ed') eqn:E; [reflexivity|].
    now apply (Hone e' ed' Hl) in E.
Qed.

Lemma allDisposed_objects s1 s2 :
  objects s1 = objects s2 -> allDisposed s1 -> allDisposed s2.
Proof.
  unfold objects, allDisposed. intros [= He _] H e ed Hl.
  rewrite <- He in Hl. apply (H e ed Hl).
Qed.

Lemma allDisposed_mayRaise : preserves allDisposed mayRaise.
Proof.
  intros s H. unfold exec, mayRaise.
  destruct (faults (monaco s)) as [|[msg|] fs]; exact H.
Qed.

Lemma initCleanup_dead e s :
  tracked s ->
  (forall e' ed, editors (monaco s) !! e' = Some ed ->
                 es_disposed ed = false -> e' = e) ->
  dead (exec (initCleanup e) s).
Proof.
  intros Ht Hone.
  pose proof (TeardownFacts.refs_initCleanup e s) as Hr.
  split; [now rewrite Hr|]. split; [now rewrite Hr|].
  unfold initCleanup.
  rewrite exec_seq by apply noThrow_modify.
  set (s1 := exec (modify _) s).
  assert (Hc : exec clearDisposables s1 = s1) by reflexivity.
  rewrite exec_seq by apply noThrow_clearDisposables. rewrite Hc.
  rewrite exec_seq by apply noThrow_safeDispose.
  set (s2 := exec (safeDispose (Some (REditor e))) s1).
  assert (Ha : allDisposed s2).
  { apply (allDisposed_objects (exec (release (REditor e)) s1));
      [symmetry; apply TeardownFacts.objects_safeDispose|].
    apply allDisposed_release_editor. exact Hone. }
  assert (Ht2 : tracked s2).
  { apply tracked_safeDispose. exact Ht. }
  split.
  - assert (Hk : preserves allDisposed
                   (pending <- gets (fun s => saveTimeoutRef (refs s)) ;;
                    match pending with
                    | Some i => clearTimeout i ;;
                                modify (with_refs (set_saveTimeoutRef None))
                    | None => ret tt
                    end ;;
                    modify (with_refs (set_editorRef None)))).
    { apply preserves_bind; [apply preserves_gets|intros [i|]];
        (apply preserves_bind; [|intros _; frame]);
        [apply preserves_bind; [|intros _]; frame|apply preserves_ret]. }
    apply Hk, Ha.
  - apply (TeardownFacts.clearPending_noTimers
             (modify (with_refs (set_editorRef None))) s2 Ht2).
    frame.
Qed.

End DeadFacts.

(* ===================================================================== *)
(** ** Alive or finished: the two modes of a mounted host                 *)
(* ===================================================================== *)

Module ModeFacts.
Import Host React Logic Rules Lifecycle Conditions DeadFacts.
Local Open Scope host_scope.

(** *** Effects and cleanups make no persist call *)

Lemma logIs_mayRaise log : preserves (logIs log) mayRaise.
Proof.
  intros s H. unfold exec, mayRaise.
  destruct (faults (monaco s)) as [|[msg|] fs]; exact H.
Qed.

Lemma logIs_create log th size : preserves (logIs log) (monaco_editor_create th size).
Proof. intros s H. exact H. Qed.

Lemma logIs_createModel log v l : preserves (logIs log) (monaco_editor_createModel v l).
Proof.
  unfold monaco_editor_createModel.
  apply preserves_bind; [apply logIs_mayRaise|intros _]. intros s H. exact H.
Qed.

Lemma logIs_setTimeout log text p d : preserves (logIs log) (setTimeout text p d).
Proof. intros s H. exact H. Qed.

Ltac logIs_auto :=
  repeat first
    [ frame | apply logIs_mayRaise | apply logIs_create
    | apply logIs_createModel | apply logIs_setTimeout
    | apply preserves_ret | apply preserves_gets | apply preserves_throw
    | apply preserves_bind; [ | intros ? ]
    | apply preserves_try_catch; [ | intros ? ]
    | apply preserves_forEach; intros ?
    | match goal with
      | |- preserves _ (match ?x with _ => _ end) => destruct x
      | |- preserves _ (if ?x then _ else _) => destruct x
      end
    | progress unfold release ].

Lemma logIs_initEffect log p : preserves (logIs log) (initEffect p).
Proof. unfold initEffect, update_editor. logIs_auto. Qed.

Lemma logIs_initCleanup log e : preserves (logIs log) (initCleanup e).
Proof.
  unfold initCleanup, clearDisposables, safeDispose, dispose, clearTimeout,
    update_editor, update_model.
  logIs_auto.
Qed.

Lemma logIs_unmountCleanup log : preserves (logIs log) unmountCleanup.
Proof.
  unfold unmountCleanup, clearDisposables, safeDispose, dispose, clearTimeout,
    update_editor, update_model.
  logIs_auto.
Qed.

Lemma logIs_loadEffect log p : preserves (logIs log) (loadEffect p).
Proof.
  unfold loadEffect, disposePreviousModel, setValue, writeBuffer,
    fireContentChanged, contentListener, debouncedSave, setModel, focus,
    safeDispose, dispose, clearTimeout, setEditorState, setError,
    update_editor, update_model, getValue.
  logIs_auto.
Qed.

Lemma logIs_themeEffect log p : preserves (logIs log) (themeEffect p).
Proof. unfold themeEffect, monaco_editor_setTheme. logIs_auto. Qed.

Lemma logIs_fontSizeEffect log p : preserves (logIs log) (fontSizeEffect p).
Proof. unfold fontSizeEffect, updateOptions, update_editor. logIs_auto. Qed.

(** *** What a commit and an event do to the bookkeeping of a component *)

Lemma props_perform m c : props (perform m c) = props c.
Proof. unfold perform. now destruct (m (state c)) as [[a|e] s]. Qed.

Lemma cleanup_perform m c : cleanup (perform m c) = cleanup c.
Proof. unfold perform. now destruct (m (state c)) as [[a|e] s]. Qed.

Lemma initDeps_same p q : initDepsChanged p q = false -> q = p.
Proof.
  unfold initDepsChanged, debouncedSaveChanged, handleSaveChanged.
  intros H.
  repeat match goal with
         | H : _ || _ = false |- _ => apply orb_false_iff in H; destruct H
         end.
  repeat match goal with
         | H : bool_decide _ = false |- _ =>
             apply bool_decide_eq_false, dec_stable in H
         end.
  destruct p, q; simpl in *; congruence.
Qed.

Lemma render_same c : state (render (props c) c) = state c
                      /\ props (render (props c) c) = props c
                      /\ cleanup (render (props c) c) = cleanup c.
Proof.
  unfold render, initDepsChanged, debouncedSaveChanged, handleSaveChanged,
    loadDepsChanged, themeDepsChanged, fontSizeDepsChanged.
  rewrite !bool_decide_false by (intros H; now apply H).
  simpl. repeat split.
Qed.

Lemma state_onlyIf_perform b m c :
  state (onlyIf b (perform m) c) = if b then exec m (state c) else state c.
Proof. destruct b; simpl; [apply state_perform|reflexivity]. Qed.

(** *** Mounting *)

Lemma alive_mount p fs : alive p (mount p fs).
Proof.
  split; [apply SaveFacts.mount_ready|].
  unfold mount, effects. rewrite !props_perform, !cleanup_perform.
  split; reflexivity.
Qed.

(** *** Leaving the live mode *)

Lemma ready_one p e s :
  ready p e s ->
  forall e' ed, editors (monaco s) !! e' = Some ed ->
                es_disposed ed = false -> e' = e.
Proof. intros (_ & _ & H & _). exact H. Qed.

Lemma alive_cleanup_finished p c :
  alive p c ->
  finished (persisted (project (state c))) (state (performCleanup c)).
Proof.
  intros (Hr & _ & Hc). rewrite state_performCleanup, Hc. split.
  - apply initCleanup_dead;
      [apply (SaveFacts.ready_tracked p 0), Hr|apply (ready_one p 0), Hr].
  - apply logIs_initCleanup. reflexivity.
Qed.

Lemma alive_teardown p c :
  alive p c -> finished (persisted (project (state c))) (state (teardown c)).
Proof.
  intros H. rewrite state_teardown.
  apply finished_unmountCleanup, (alive_cleanup_finished p c H).
Qed.

Lemma alive_render p c q :
  alive p c -> initDepsChanged (props c) q = true ->
  finished (persisted (project (state c))) (state (render q c)).
Proof.
  intros H E. pose proof (finished_invariant (persisted (project (state c)))) as HI.
  unfold render, set_props. rewrite E. simpl.
  apply onlyIf_inv;
    [intros; apply perform_inv; auto; apply (inv_fontSizeEffect _ HI)|].
  apply onlyIf_inv;
    [intros; apply perform_inv; auto; apply (inv_themeEffect _ HI)|].
  apply onlyIf_inv;
    [intros; apply perform_inv; auto; apply (inv_loadEffect _ HI)|].
  apply performInit_inv; [exact HI|].
  apply (alive_cleanup_finished p c H).
Qed.

(** *** Staying in the live mode *)

Lemma callsFor_app p log more :
  callsFor p log -> callsFor p more -> callsFor p (log ++ more).
Proof.
  intros H1 H2 call Hin. apply elem_of_app in Hin.
  destruct Hin as [Hin|Hin]; auto.
Qed.

Lemma callsFor_nil p : callsFor p [].
Proof. intros call Hin. inversion Hin. Qed.

Lemma callsFor_manual p time text :
  callsFor p match currentFile p with
             | Some f => [manualSaveCall time f text]
             | None => []
             end.
Proof.
  destruct (currentFile p) as [f|] eqn:E; [|apply callsFor_nil].
  intros call Hin. apply list_elem_of_singleton in Hin. subst call.
  split; [exists f; split; [exact E|reflexivity]|discriminate].
Qed.

Lemma callsFor_auto p time text :
  autoSave p = true ->
  callsFor p match currentFile p with
             | Some f => [autoSaveCall time f text]
             | None => []
             end.
Proof.
  intros Ha. destruct (currentFile p) as [f|] eqn:E; [|apply callsFor_nil].
  intros call Hin. apply list_elem_of_singleton in Hin. subst call.
  split; [exists f; split; [exact E|reflexivity]|intros _; exact Ha].
Qed.

Lemma alive_user_mode p c ev :
  userEvent ev = true -> alive p c -> alive p (step c ev).
Proof.
  intros Hu (Hr & Hp & Hc).
  split; [apply SaveFacts.step_ready; assumption|].
  destruct ev; try discriminate; simpl;
    rewrite props_perform, cleanup_perform; split; assumption.
Qed.

Lemma alive_user_log p c ev :
  userEvent ev = true -> alive p c ->
  callsFor p (persisted (project (state c))) ->
  callsFor p (persisted (project (state (step c ev)))).
Proof.
  intros Hu (Hr & Hp & Hc) Hlog.
  destruct ev as [q|e text|e|t|k r| |]; try discriminate; simpl;
    rewrite state_perform.
  - destruct (decide (e = 0)) as [->|Hne].
    + destruct (SaveFacts.edit_spec p 0 text (state c) Hr)
        as (_ & _ & _ & _ & Hpr & _).
      rewrite Hpr. exact Hlog.
    + unfold exec. rewrite (SaveFacts.edit_other p 0 (state c) e text Hr Hne).
      exact Hlog.
  - destruct (decide (e = 0)) as [->|Hne].
    + destruct (SaveFacts.pressSave_spec p 0 (state c) Hr)
        as (_ & _ & _ & _ & Hpr).
      rewrite Hpr. apply callsFor_app; [exact Hlog|apply callsFor_manual].
    + unfold exec. rewrite (SaveFacts.pressSave_other p 0 (state c) e Hr Hne).
      exact Hlog.
  - destruct (SaveFacts.advanceTo_spec p 0 t (state c) Hr)
      as (_ & _ & _ & _ & Hq).
    destruct Hr as (_ & _ & _ & _ & Htimers & _). revert Hq.
    destruct (timers (loop (state c))) as [|u [|u' rest]] eqn:Et; intros Hq;
      [destruct Hq as [_ ->]; exact Hlog| |destruct Hq as [_ ->]; exact Hlog].
    destruct (Nat.leb (t_due u) t); destruct Hq as [_ Hq]; rewrite Hq;
      [|exact Hlog].
    apply callsFor_app; [exact Hlog|]. apply callsFor_auto.
    apply (Htimers u). rewrite ?Et. apply list_elem_of_here.
  - destruct (SaveFacts.settle_spec k r (state c)) as (_ & _ & _ & _ & Hpr).
    rewrite Hpr. exact Hlog.
Qed.

(** *** The two modes *)

Lemma mode_only_step p c ev :
  committed ev = true ->
  (alive p c \/ dead (state c)) ->
  alive p (step c ev) \/ dead (state (step c ev)).
Proof.
  intros Hev [Ha|Hd].
  - destruct (userEvent ev) eqn:Hu;
      [left; apply (alive_user_mode p c ev Hu Ha)|].
    destruct ev as [q|e text|e|t|k r| |]; try discriminate.
    + change (step c (Render q)) with (render q c).
      destruct (initDepsChanged (props c) q) eqn:E.
      * right. apply (alive_render p c q Ha E).
      * left. apply initDeps_same in E. subst q.
        destruct (render_same c) as (Hs & Hp & Hc).
        destruct Ha as (Hr & Hp' & Hc'). unfold alive.
        rewrite Hs, Hp, Hc. auto.
    + right. apply (alive_teardown p c Ha).
  - right. apply (step_inv _ (finished_invariant _) c ev (dead_finished _ Hd)).
Qed.


Lemma mode_step p c ev :
  committed ev = true ->
  (alive p c \/ dead (state c)) ->
  callsFor p (persisted (project (state c))) ->
  (alive p (step c ev) \/ dead (state (step c ev)))
  /\ callsFor p (persisted (project (state (step c ev)))).
Proof.
  intros Hev Hm Hlog. split; [apply mode_only_step; assumption|].
  destruct Hm as [Ha|Hd].
  - destruct (userEvent ev) eqn:Hu;
      [apply (alive_user_log p c ev Hu Ha Hlog)|].
    destruct ev as [q|e text|e|t|k r| |]; try discriminate.
    + change (step c (Render q)) with (render q c).
      destruct (initDepsChanged (props c) q) eqn:E.
      * destruct (alive_render p c q Ha E) as [_ H2].
        unfold logIs in H2. now rewrite H2.
      * apply initDeps_same in E. subst q.
        destruct (render_same c) as (Hs & _). now rewrite Hs.
    + change (step c Teardown) with (teardown c).
      destruct (alive_teardown p c Ha) as [_ H2].
      unfold logIs in H2. now rewrite H2.
  - pose proof (step_inv _ (finished_invariant _) c ev (dead_finished _ Hd))
      as [_ H2].
    unfold logIs in H2. now rewrite H2.
Qed.

Lemma mode_run p evs c :
  forallb committed evs = true ->
  (alive p c \/ dead (state c)) ->
  callsFor p (persisted (project (state c))) ->
  (alive p (run evs c) \/ dead (state (run evs c)))
  /\ callsFor p (persisted (project (state (run evs c)))).
Proof.
  revert c. induction evs as [|ev evs IH]; intros c Hevs Hm Hlog;
    [split; assumption|].
  simpl in Hevs. apply andb_true_iff in Hevs. destruct Hevs as [Hev Hevs].
  destruct (mode_step p c ev Hev Hm Hlog) as [H1 H2].
  apply (IH (step c ev) Hevs H1 H2).
Qed.

Lemma mode_reachable p fs evs :
  forallb committed evs = true ->
  (alive p (run evs (mount p fs)) \/ dead (state (run evs (mount p fs))))
  /\ callsFor p (persisted (project (state (run evs (mount p fs))))).
Proof.
  intros Hevs. apply mode_run; [exact Hevs|left; apply alive_mount|].
  assert (E : persisted (project (state (mount p fs))) = []).
  { unfold mount, effects. rewrite !state_perform, state_performInit.
    apply logIs_fontSizeEffect, logIs_themeEffect, logIs_loadEffect,
      logIs_initEffect.
    reflexivity. }
  rewrite E. apply callsFor_nil.
Qed.

(** A finished component makes no persist call and accepts no input, whatever
    happens to it. *)
Lemma dead_forever c evs :
  dead (state c) ->
  persisted (project (state (run evs c))) = persisted (project (state c))
  /\ forall e, editable (state (run evs c)) e = false.
Proof.
  intros Hd.
  pose proof (run_inv _ (finished_invariant _) evs c (dead_finished _ Hd))
    as [(_ & _ & Ha & _) Hlog].
  split; [exact Hlog|]. intros e. apply SaveFacts.editable_dead.
  intros ed Hl. apply (Ha e ed Hl).
Qed.

End ModeFacts.

(* ===================================================================== *)
(** ** The properties of the specification                                *)
(* ===================================================================== *)

Import Host React Logic Scenarios.

(** C1 (defect in the code). The editor's detector looks the lower-cased
    extension up with [languageMap[extension]], which also finds the
    properties inherited from [Object.prototype]. The extension
    [constructor] is not in the table, yet the file [notes.constructor] is
    detected as the function [Object], not as ['plaintext']: whatever the
    library raises while the file loads, the detected language of a host
    mounted on that file is not ['plaintext'], and when nothing fails it is
    that function. Also, a file that becomes current after the first commit
    is not loaded at all: the detected language stays ['javascript'] for
    [main.py]. *)
Theorem inherited_extension_is_not_plaintext (fs : list (option string)) :
  JS.own Editor.languageMap "constructor" = None
  /\ Editor.getLanguageFromExtension (Editor.metadataName oddFile)
     = JS.ObjectConstructor
  /\ language (editorState (state (mount (defaults (Some oddFile)) fs)))
     <> JS.Str "plaintext"
  /\ language (editorState (state (mount (defaults (Some oddFile)) [])))
     = JS.ObjectConstructor
  /\ language (editorState (state
       (run [Render (defaults (Some f1))] (mount (defaults None) []))))
     = JS.Str "javascript".
Proof.
  split; [reflexivity|]. split; [reflexivity|].
  split; [|split; reflexivity].
  destruct fs as [|[m1|] [|[m2|] [|[m3|] fs]]]; vm_compute; discriminate.
Qed.

(** C2. On a host mounted with auto-save on and a current file, after any
    earlier activity of the user, two edits less than one delay apart result
    in exactly one persist call: it carries the file's identifier and the
    text of the second edit, and it is made at the configured delay after
    the second edit, not before. A save that was pending before the first
    edit is cancelled by it. *)
Theorem debounce_last_write_wins (p : Props) (f : File)
    (fs : list (option string)) (pre : list Event)
    (t2 T : nat) (text1 text2 : string) :
  autoSave p = true ->
  currentFile p = Some f ->
  forallb userEvent pre = true ->
  let c := run pre (mount p fs) in
  let t1 := now (loop (state c)) in
  t1 <= t2 -> t2 < t1 + autoSaveDelay p ->
  persisted (project (state
    (run [Edit 0 text1; AdvanceTo t2; Edit 0 text2; AdvanceTo T] c)))
  = persisted (project (state c)) ++
    (if Nat.leb (t2 + autoSaveDelay p) T
     then [autoSaveCall (t2 + autoSaveDelay p) f text2]
     else []).
Proof.
  intros Ha Hf Hpre c t1 H12 Hwin.
  assert (Hr : ready p 0 (state c)).
  { apply SaveFacts.run_ready; [exact Hpre|apply SaveFacts.mount_ready]. }
  unfold run. simpl fold_left. rewrite !Lifecycle.state_perform.
  (* first edit *)
  destruct (SaveFacts.edit_spec p 0 text1 (state c) Hr)
    as (Hr2 & _ & _ & Hn2 & Hp2 & Ht2 & _).
  specialize (Ht2 Ha). fold t1 in Hn2, Ht2.
  set (s2 := exec (edit 0 text1) (state c)) in *.
  (* the clock reaches t2 *)
  destruct (SaveFacts.advanceTo_spec p 0 t2 s2 Hr2)
    as (Hr3 & _ & Hn3 & _ & Hq3).
  rewrite Ht2 in Hq3. cbv beta iota delta [t_due t_content] in Hq3.
  destruct (Nat.leb_spec (t1 + autoSaveDelay p) t2) as [Hle|_]; [lia|].
  destruct Hq3 as [Ht3 Hp3]. set (s3 := exec (advanceTo t2) s2) in *.
  (* second edit *)
  destruct (SaveFacts.edit_spec p 0 text2 s3 Hr3)
    as (Hr4 & _ & _ & Hn4 & Hp4 & Ht4 & _).
  specialize (Ht4 Ha). set (s4 := exec (edit 0 text2) s3) in *.
  (* the clock reaches T *)
  destruct (SaveFacts.advanceTo_spec p 0 T s4 Hr4)
    as (_ & _ & _ & _ & Hq5).
  rewrite Ht4 in Hq5. cbv beta iota delta [t_due t_content] in Hq5.
  rewrite Hf in Hq5.
  assert (Hn3' : now (loop s3) = t2) by lia.
  rewrite Hn3' in Hq5.
  assert (Hpers : persisted (project s4) = persisted (project (state c))).
  { rewrite Hp4, Hp3. rewrite Hp2. reflexivity. }
  destruct (Nat.leb (t2 + autoSaveDelay p) T); destruct Hq5 as [_ Hq5];
    rewrite Hq5, Hpers; [reflexivity|].
  rewrite app_nil_r. reflexivity.
Qed.

(** The scenario of the specification: delay 2000 ms, edits to ["ab"] at 0 ms
    and to ["abc"] at 500 ms; one call [persist("f1", "abc")], at 2500 ms,
    and none by 2000 ms. *)
Lemma debounce_scenario :
  let c := mount (defaults (Some f1)) [] in
  (autoSave (defaults (Some f1)) = true
   /\ currentFile (defaults (Some f1)) = Some f1
   /\ forallb userEvent [] = true
   /\ now (loop (state c)) <= 500
   /\ 500 < now (loop (state c)) + autoSaveDelay (defaults (Some f1)))
  /\ persisted (project (state
       (run [Edit 0 "ab"; AdvanceTo 500; Edit 0 "abc"; AdvanceTo 2500] c)))
     = [autoSaveCall 2500 f1 "abc"]
  /\ persisted (project (state
       (run [Edit 0 "ab"; AdvanceTo 500; Edit 0 "abc"; AdvanceTo 2000] c)))
     = [].
Proof.
  cbv zeta. split; [|split].
  - vm_compute. repeat split; lia.
  - generalize (debounce_last_write_wins (defaults (Some f1)) f1 [] []
                  500 2500 "ab" "abc").
    vm_compute. intros H. apply H; first [reflexivity | lia].
  - generalize (debounce_last_write_wins (defaults (Some f1)) f1 [] []
                  500 2000 "ab" "abc").
    vm_compute. intros H. apply H; first [reflexivity | lia].
Defined.

(** C3 (defect in the code). When [editor.setModel] raises while a file
    loads, the inner [catch] returns at once: [isLoading] stays [true], the
    error channel receives nothing, and the new model stays live and in
    [modelRef] although no surface shows it. *)
Theorem setModel_failure_leaves_loading (f : File) (msg : string)
    (rest : list (option string)) :
  let c := mount (defaults (Some f)) (None :: Some msg :: rest) in
  isLoading (editorState (state c)) = true
  /\ errors (project (state c)) = []
  /\ uncaught c = []
  /\ modelRef (refs (state c)) = Some 0
  /\ length (liveModels (state c)) = 1
  /\ es_model <$> editors (monaco (state c)) !! 0 = Some None.
Proof. vm_compute. repeat split. Qed.

(** C4. When the promise of a persist call rejects, whether the call was
    made by the debounced auto-save or by the manual save, nothing escapes
    the component, the error channel receives the prefix of that path
    followed by the rejection's message, [hasUnsavedChanges] stays [true],
    and nothing is retried: no new persist call is made and no timer is
    scheduled. *)
Theorem persist_rejection_surfaced (c : Component) (k : nat)
    (call : PersistCall) (reason : string) :
  inflight (project (state c)) !! k = Some call ->
  hasUnsavedChanges (editorState (state c)) = true ->
  let c' := step c (Settle k (Rejected reason)) in
  uncaught c' = uncaught c
  /\ errors (project (state c')) =
       errors (project (state c)) ++
       [ (match p_kind call with
          | AutoSave => "Auto-save failed: "
          | ManualSave => "Save failed: "
          end ++ reason)%string ]
  /\ hasUnsavedChanges (editorState (state c')) = true
  /\ persisted (project (state c')) = persisted (project (state c))
  /\ timers (loop (state c')) = timers (loop (state c))
  /\ inflight (project (state c')) = delete k (inflight (project (state c))).
Proof.
  intros Hk Hu. cbv zeta. unfold step, perform, settle, bind, gets.
  rewrite Hk. unfold afterSave, setError, modify. simpl.
  destruct (p_kind call); simpl; repeat split; assumption.
Qed.

(** The scenario of the specification: the auto-save of ["ab"] rejects with
    "network error". *)
Lemma persist_rejection_scenario :
  let c := run [Edit 0 "ab"; AdvanceTo 2000] (mount (defaults (Some f1)) []) in
  (inflight (project (state c)) !! 0 = Some (autoSaveCall 2000 f1 "ab")
   /\ hasUnsavedChanges (editorState (state c)) = true)
  /\ errors (project (state (step c (Settle 0 (Rejected "network error")))))
     = ["Auto-save failed: network error"]
  /\ hasUnsavedChanges
       (editorState (state (step c (Settle 0 (Rejected "network error")))))
     = true.
Proof.
  cbv zeta. split.
  - vm_compute. split; reflexivity.
  - generalize (persist_rejection_surfaced
                  (run [Edit 0 "ab"; AdvanceTo 2000] (mount (defaults (Some f1)) []))
                  0 (autoSaveCall 2000 f1 "ab") "network error").
    vm_compute. intros H. destruct H as (_ & He & Hu & _); [reflexivity..|].
    split; assumption.
Defined.

(** C5. After any run of events, the cleanups can run any number of times:
    no call lets an error escape, the host is disposed, no debounced persist
    is pending or can fire any more, the refs are the same after every call
    as after the first, no model is live any more, and whatever happens
    later the host stays disposed. When the run is one that React allows
    (no effect runs again without its cleanup), every surface is disposed
    as well, and from then on no surface accepts input and no persist call
    is made, whatever happens. [safeDispose] itself never raises, on any
    resource, present or absent: it does nothing when there is no resource,
    it leaves the surface or model it is given disposed, and a second call
    leaves the library's objects as the first one left them. *)
Theorem teardown_idempotent (p : Props) (fs : list (option string))
    (evs later : list Event) (n T : nat) :
  let c := run evs (mount p fs) in
  let c' := Nat.iter (S n) teardown c in
  uncaught c' = uncaught c
  /\ isDisposedRef (refs (state c')) = true
  /\ timers (loop (state c')) = []
  /\ persisted (project (state (step c' (AdvanceTo T))))
     = persisted (project (state c'))
  /\ refs (state c') = refs (state (teardown c))
  /\ isDisposedRef (refs (state (run later c'))) = true
  /\ liveModels (state c') = []
  /\ (forallb Conditions.committed evs = true ->
      Conditions.allDisposed (state c')
      /\ (forall e, editable (state (run later c')) e = false)
      /\ persisted (project (state (run later c')))
         = persisted (project (state c')))
  /\ (forall (s : State) (r : option Resource),
        raises (safeDispose r) s = false
        /\ objects (exec (safeDispose r) (exec (safeDispose r) s))
           = objects (exec (safeDispose r) s))
  /\ (forall s, safeDispose None s = (Return tt, s))
  /\ (forall s e ed,
        editors (monaco (exec (safeDispose (Some (REditor e))) s)) !! e
        = Some ed -> es_disposed ed = true)
  /\ (forall s m tm,
        models (monaco (exec (safeDispose (Some (RModel m))) s)) !! m
        = Some tm -> tm_disposed tm = true).
Proof.
  intros c c'.
  assert (Htr : tracked (state c)).
  { apply Lifecycle.reachable_inv;
      [apply Rules.tracked_invariant|apply TeardownFacts.tracked_initial]. }
  assert (Hown : owned (state c)).
  { apply Lifecycle.reachable_inv;
      [apply ModelFacts.owned_invariant|apply ModelFacts.owned_initial]. }
  destruct (TeardownFacts.iter_teardown n c Htr) as (Hu & Ht & Hd).
  fold c' in Hu, Ht, Hd.
  split; [exact Hu|]. split; [exact Hd|]. split; [exact Ht|].
  split.
  { simpl. rewrite Lifecycle.state_perform.
    apply TeardownFacts.advanceTo_idle, Ht. }
  split; [apply TeardownFacts.refs_iter_teardown|].
  split.
  { apply (Lifecycle.run_inv disposedState Rules.disposed_invariant), Hd. }
  split.
  { apply ModelFacts.noLive_liveModels, ModelFacts.iter_teardown_noLive, Hown. }
  split.
  { intros Hc.
    assert (Hf : Conditions.dead (state (teardown c))).
    { destruct (ModeFacts.mode_reachable p fs evs Hc) as [[Ha|Hdead] _].
      - apply (ModeFacts.alive_teardown p _ Ha).
      - apply (Lifecycle.teardown_inv _ (DeadFacts.finished_invariant _) _
                 (DeadFacts.dead_finished _ Hdead)). }
    assert (Hdead' : Conditions.dead (state c')).
    { unfold c'. rewrite Nat.iter_succ_r.
      apply (Lifecycle.iter_teardown_inv _ (DeadFacts.finished_invariant _) n
               (teardown c) (DeadFacts.dead_finished _ Hf)). }
    split; [apply Hdead'|].
    destruct (ModeFacts.dead_forever c' later Hdead') as [H1 H2].
    split; assumption. }
  split.
  { intros s r. split; [apply Rules.noThrow_safeDispose|].
    apply TeardownFacts.safeDispose_twice. }
  split; [reflexivity|].
  split; [intros s e ed; apply ModelFacts.safeDispose_editor|].
  intros s m tm. apply ModelFacts.safeDispose_model.
Qed.

(** The unmount of a host with an unsaved edit, twice over: the surface and
    the model are disposed, and nothing that follows is saved. *)
Lemma teardown_scenario :
  let c := run [Edit 0 "ab"] (mount (defaults (Some f1)) []) in
  let c' := Nat.iter 2 teardown c in
  let later := [Effects; Edit 0 "x"; AdvanceTo 3000; PressSave 0] in
  Conditions.allDisposed (state c')
  /\ (forall e, editable (state (run later c')) e = false)
  /\ persisted (project (state (run later c')))
     = persisted (project (state c')).
Proof.
  intros c c' later.
  destruct (teardown_idempotent (defaults (Some f1)) [] [Edit 0 "ab"] later
              1 3000) as (_ & _ & _ & _ & _ & _ & _ & H & _).
  apply H. reflexivity.
Defined.

(** C6. No two models are ever live at the same moment. The library keeps
    a record of the largest number of models live at once, which only the
    creation of a model can raise. After any run of events, and after any
    sequence whatsoever of the component's effect bodies, cleanups and
    callbacks, that record is at most one and covers the models live now;
    it is still at most one after one more load, with any file. The first
    step of a load, which disposes the previous model, leaves no live model
    at all, so that the model the load then creates is the only one. A
    model on which [dispose] was called counts as released also when the
    call raised. *)
Theorem at_most_one_live_model (p q : Props) (fs : list (option string))
    (evs : list Event) (ops : list Op) :
  let s := state (run evs (mount p fs)) in
  let s' := perform_ops ops (initial fs) in
  (length (liveModels s) <= peakLive (monaco s) /\ peakLive (monaco s) <= 1)
  /\ peakLive (monaco (exec (loadEffect q) s)) <= 1
  /\ liveModels (exec disposePreviousModel s) = []
  /\ (length (liveModels s') <= peakLive (monaco s')
      /\ peakLive (monaco s') <= 1)
  /\ peakLive (monaco (exec (loadEffect q) s')) <= 1
  /\ liveModels (exec disposePreviousModel s') = [].
Proof.
  intros s s'.
  assert (Hs : owned s /\ neverTwo s).
  { apply (Lifecycle.reachable_inv (fun s => owned s /\ neverTwo s));
      [apply ModelFacts.disciplined_invariant
      |apply ModelFacts.disciplined_initial]. }
  assert (Hs' : owned s' /\ neverTwo s').
  { apply (Lifecycle.perform_ops_inv (fun s => owned s /\ neverTwo s));
      [apply ModelFacts.disciplined_invariant
      |apply ModelFacts.disciplined_initial]. }
  split; [apply Hs|].
  split; [apply (ModelFacts.disciplined_loadEffect q s Hs)|].
  split.
  { apply ModelFacts.noLive_liveModels, ModelFacts.disposePreviousModel_noLive,
      Hs. }
  split; [apply Hs'|].
  split; [apply (ModelFacts.disciplined_loadEffect q s' Hs')|].
  apply ModelFacts.noLive_liveModels, ModelFacts.disposePreviousModel_noLive,
    Hs'.
Qed.

(** C7 (defect in the code). The current file goes from [main.py] to
    [null]: [handleSave] changes, so the cleanup of the init effect runs and
    sets [isDisposedRef]; the init effect then returns at its guard, before
    the line that resets the flag, and the load effect finds no surface. The
    detected language stays ['python'], the model stays live and keeps its
    text, and no surface is left: the disposed one shows nothing. *)
Theorem unload_after_load_is_skipped :
  let c := run [Render (defaults None)] (mount (defaults (Some f1)) []) in
  language (editorState (state c)) = JS.Str "python"
  /\ tm_value <$> liveModels (state c) = ["a"]
  /\ modelRef (refs (state c)) = Some 0
  /\ valueOf (state c) 0 = ""
  /\ editorRef (refs (state c)) = None
  /\ es_disposed <$> editors (monaco (state c)) = [true]
  /\ isDisposedRef (refs (state c)) = true
  /\ uncaught c = [].
Proof. vm_compute. repeat split. Qed.

(** C8 (defect in the code). With the unsaved edit ["ab"] waiting for its
    debounced save, a change of only the theme, or of only the font size,
    runs the cleanup of the init effect: the timer is cancelled and the
    surface disposed, and the init effect does not create another one.
    However long one waits, and even after Ctrl/Cmd+S, the edit is never
    persisted. *)
Theorem reconfiguration_drops_unsaved_edit (T : nat) :
  let c0 := run [Edit 0 "ab"] (mount (defaults (Some f1)) []) in
  let after q := run [Render q; AdvanceTo T; PressSave 0] c0 in
  let themed := after (withTheme "light" (defaults (Some f1))) in
  let resized := after (withFontSize 16 (defaults (Some f1))) in
  (hasUnsavedChanges (editorState (state c0)) = true
   /\ t_content <$> timers (loop (state c0)) = ["ab"])
  /\ (persisted (project (state themed)) = []
      /\ timers (loop (state themed)) = []
      /\ editorRef (refs (state themed)) = None
      /\ es_disposed <$> editors (monaco (state themed)) = [true])
  /\ (persisted (project (state resized)) = []
      /\ timers (loop (state resized)) = []
      /\ editorRef (refs (state resized)) = None
      /\ es_disposed <$> editors (monaco (state resized)) = [true]).
Proof. vm_compute. repeat split. Qed.

(** C9. On a host mounted with a current file, after any activity of the
    user, while a debounced persist is pending: Ctrl/Cmd+S persists at once
    the text the surface shows; the pending timer carries that same text, so
    when it fires later it persists the current text again, not an older
    one; and after any further activity a pending timer still carries the
    text the surface shows then. *)
Theorem manual_save_with_pending_debounce (p : Props) (f : File)
    (fs : list (option string)) (pre post : list Event) (t : Timer) (T : nat) :
  currentFile p = Some f ->
  forallb userEvent pre = true ->
  forallb userEvent post = true ->
  let c := run pre (mount p fs) in
  timers (loop (state c)) = [t] ->
  let text := valueOf (state c) 0 in
  let saved := manualSaveCall (now (loop (state c))) f text in
  persisted (project (state (step c (PressSave 0))))
  = persisted (project (state c)) ++ [saved]
  /\ t_content t = text
  /\ persisted (project (state (run [PressSave 0; AdvanceTo T] c)))
     = persisted (project (state c)) ++ [saved] ++
       (if Nat.leb (t_due t) T then [autoSaveCall (t_due t) f text] else [])
  /\ Forall (fun u => t_content u
                      = valueOf (state (run post (step c (PressSave 0)))) 0)
            (timers (loop (state (run post (step c (PressSave 0)))))).
Proof.
  intros Hf Hpre Hpost c Hpending text saved.
  assert (Hr : ready p 0 (state c)).
  { apply SaveFacts.run_ready; [exact Hpre|apply SaveFacts.mount_ready]. }
  destruct (SaveFacts.pressSave_spec p 0 (state c) Hr)
    as (_ & Hrefs & Hmon & Hloop & Hpers).
  rewrite Hf in Hpers.
  assert (Hr' : ready p 0 (state (step c (PressSave 0)))).
  { apply SaveFacts.step_ready; [reflexivity|exact Hr]. }
  assert (Hcontent : t_content t = text).
  { destruct Hr as (_ & _ & _ & _ & Hp & _).
    apply (Hp t). rewrite Hpending. apply list_elem_of_singleton. reflexivity. }
  split; [|split; [exact Hcontent|split]].
  - simpl. rewrite Lifecycle.state_perform. exact Hpers.
  - unfold run. simpl fold_left. rewrite !Lifecycle.state_perform.
    set (s1 := exec (pressSave 0) (state c)) in *.
    assert (Hr1 : ready p 0 s1).
    { unfold s1. rewrite <- Lifecycle.state_perform. exact Hr'. }
    destruct (SaveFacts.advanceTo_spec p 0 T s1 Hr1) as (_ & _ & _ & _ & Hq).
    rewrite Hloop, Hpending, Hf in Hq.
    destruct (Nat.leb (t_due t) T); destruct Hq as [_ Hq]; rewrite Hq, Hpers.
    + rewrite Hcontent. rewrite <- app_assoc. reflexivity.
    + rewrite app_nil_r. reflexivity.
  - apply Forall_forall. intros u Hu.
    pose proof (SaveFacts.run_ready p 0 post _ Hpost Hr') as Hr2.
    destruct Hr2 as (_ & _ & _ & _ & Hp & _). apply (Hp u Hu).
Qed.

(** A save while the auto-save of ["ab"] is pending: ["ab"] is persisted at
    once, and once more, unchanged, when the timer fires. *)
Lemma manual_save_scenario :
  let c := run [Edit 0 "ab"; AdvanceTo 100] (mount (defaults (Some f1)) []) in
  (currentFile (defaults (Some f1)) = Some f1
   /\ forallb userEvent [Edit 0 "ab"; AdvanceTo 100] = true
   /\ forallb userEvent [] = true
   /\ timers (loop (state c))
      = [ {| t_id := 1; t_due := 2000; t_content := "ab";
             t_closure := defaults (Some f1) |} ])
  /\ persisted (project (state (run [PressSave 0; AdvanceTo 2000] c)))
     = [manualSaveCall 100 f1 "ab"; autoSaveCall 2000 f1 "ab"].
Proof.
  cbv zeta. split.
  - vm_compute. repeat split.
  - generalize (manual_save_with_pending_debounce (defaults (Some f1)) f1 []
                  [Edit 0 "ab"; AdvanceTo 100] []
                  {| t_id := 1; t_due := 2000; t_content := "ab";
                     t_closure := defaults (Some f1) |} 2000).
    vm_compute. intros H. destruct H as (_ & _ & H & _); [reflexivity..|].
    exact H.
Defined.

(** C10 (defect in the code). The toolbar's detector has the same lookup:
    the extension [constructor] is absent from its table, yet for the file
    [notes.constructor] it returns the function [Object], not
    ['javascript']. *)
Theorem toolbar_inherited_extension_is_not_javascript :
  JS.own Toolbar.languageMap "constructor" = None
  /\ Toolbar.getLanguageFromFile (Some oddFile) = JS.ObjectConstructor
  /\ Toolbar.getLanguageFromFile (Some oddFile) <> JS.Str "javascript".
Proof. split; [reflexivity|]. split; [reflexivity|]. vm_compute. discriminate. Qed.

(* ===================================================================== *)
(** ** Strings: prefixes, suffixes and the first occurrence               *)
(* ===================================================================== *)

Module TextFacts.
Import Text.

Lemma append_cons (c : ascii) (a b : string) :
  (String c a ++ b)%string = String c (a ++ b).
Proof. reflexivity. Qed.

Lemma append_nil_l (b : string) : ("" ++ b)%string = b.
Proof. reflexivity. Qed.

Lemma append_nil_r (s : string) : (s ++ "")%string = s.
Proof.
  induction s as [|c s IH]; [reflexivity|]. now rewrite append_cons, IH.
Qed.

Lemma append_assoc (a b c : string) :
  ((a ++ b) ++ c)%string = (a ++ (b ++ c))%string.
Proof.
  induction a as [|x a IH]; [reflexivity|]. now rewrite !append_cons, IH.
Qed.

Lemma length_append (a b : string) :
  String.length (a ++ b) = String.length a + String.length b.
Proof.
  induction a as [|x a IH]; [reflexivity|].
  rewrite append_cons. simpl. now rewrite IH.
Qed.

Lemma prefix_append (p rest : string) : String.prefix p (p ++ rest) = true.
Proof.
  induction p as [|c p IH]; [now destruct rest|]. rewrite append_cons. simpl.
  destruct (ascii_dec c c); [exact IH|congruence].
Qed.

Lemma drop_append (p rest : string) : drop (String.length p) (p ++ rest) = rest.
Proof.
  induction p as [|c p IH]; [now destruct rest|].
  rewrite append_cons. simpl. exact IH.
Qed.

Lemma substring_append (p rest : string) :
  String.substring 0 (String.length p) (p ++ rest) = p.
Proof.
  induction p as [|c p IH]; [now destruct rest|].
  rewrite append_cons. simpl. now rewrite IH.
Qed.

Lemma take_drop (k : nat) (s : string) :
  k <= String.length s -> s = (String.substring 0 k s ++ drop k s)%string.
Proof.
  revert s. induction k as [|k IH]; intros s Hk.
  - destruct s; reflexivity.
  - destruct s as [|c s]; simpl in Hk; [lia|].
    simpl. rewrite append_cons, <- IH by lia. reflexivity.
Qed.

Lemma replace_cons (pattern r : string) (c : ascii) (rest : string) :
  replace pattern r (String c rest) =
  if String.prefix pattern (String c rest)
  then (r ++ drop (String.length pattern) (String c rest))%string
  else String c (replace pattern r rest).
Proof. reflexivity. Qed.

Lemma prefix_other (c d : ascii) (p rest : string) :
  Ascii.eqb d c = false -> String.prefix (String c p) (String d rest) = false.
Proof.
  intros H. simpl. destruct (ascii_dec c d) as [->|Hne]; [|reflexivity].
  rewrite Ascii.eqb_refl in H. discriminate.
Qed.

(** The first occurrence of a pattern that starts with a dot, after a
    piece that has no dot. *)
Lemma replace_first (a p r rest : string) :
  JS.hasDot a = false ->
  replace (String "." p) r (a ++ String "." p ++ rest) = (a ++ r ++ rest)%string.
Proof.
  induction a as [|c a IH]; intros Ha.
  - rewrite !append_nil_l.
    pose proof (prefix_append (String "." p) rest) as Hp.
    pose proof (drop_append (String "." p) rest) as Hd.
    destruct (String "." p ++ rest)%string as [|x y] eqn:E; [discriminate|].
    unfold replace; fold replace. rewrite Hp, Hd. reflexivity.
  - simpl in Ha. apply orb_false_iff in Ha. destruct Ha as [Hc Ha].
    change (replace (String "." p) r (String c (a ++ String "." p ++ rest))
            = String c (a ++ r ++ rest)).
    rewrite replace_cons, (prefix_other _ _ _ _ Hc), (IH Ha). reflexivity.
Qed.

(** A pattern that starts with a dot does not occur in a string without a
    dot. *)
Lemma replace_absent (a p r : string) :
  JS.hasDot a = false -> replace (String "." p) r a = a.
Proof.
  induction a as [|c a IH]; intros Ha; [reflexivity|].
  simpl in Ha. apply orb_false_iff in Ha. destruct Ha as [Hc Ha].
  rewrite replace_cons, (prefix_other _ _ _ _ Hc), (IH Ha). reflexivity.
Qed.

Lemma endsWith_append (pre suffix : string) : endsWith suffix (pre ++ suffix) = true.
Proof.
  unfold endsWith. rewrite length_append.
  replace (String.length pre + String.length suffix - String.length suffix)
    with (String.length pre) by lia.
  rewrite drop_append, String.eqb_refl.
  apply andb_true_iff. split; [apply Nat.leb_le; lia|reflexivity].
Qed.

Lemma endsWith_inv (suffix s : string) :
  endsWith suffix s = true -> exists pre, s = (pre ++ suffix)%string.
Proof.
  unfold endsWith. intros H. apply andb_true_iff in H. destruct H as [Hl He].
  apply Nat.leb_le in Hl. apply String.eqb_eq in He.
  exists (String.substring 0 (String.length s - String.length suffix) s).
  pose proof (take_drop (String.length s - String.length suffix) s) as H.
  rewrite He in H. apply H. lia.
Qed.

(** A name ends with [.ext] only if [ext] is its last dot-separated piece. *)
Lemma endsWith_extension (stem ext ext' : string) :
  JS.hasDot ext = false -> JS.hasDot ext' = false ->
  endsWith (String "." ext') (stem ++ String "." ext) = true -> ext' = ext.
Proof.
  intros H H' He. apply endsWith_inv in He. destruct He as [pre He].
  pose proof (LanguageFacts.pop_split_extension stem ext H) as P.
  rewrite He in P.
  rewrite (LanguageFacts.pop_split_extension pre ext' H') in P. congruence.
Qed.

Lemma replaceSuffix_first (suffix : string) (others : list string)
    (r pre : string) :
  replaceSuffix (suffix :: others) r (pre ++ suffix) = (pre ++ r)%string.
Proof.
  unfold replaceSuffix. simpl. rewrite endsWith_append.
  rewrite length_append.
  replace (String.length pre + String.length suffix - String.length suffix)
    with (String.length pre) by lia.
  rewrite substring_append. reflexivity.
Qed.

Lemma replaceSuffix_skip (suffix : string) (others : list string) (r s : string) :
  endsWith suffix s = false ->
  replaceSuffix (suffix :: others) r s = replaceSuffix others r s.
Proof. intros H. unfold replaceSuffix. simpl. rewrite H. reflexivity. Qed.

Lemma trimsToEmpty_nonempty (s : string) : trimsToEmpty s = false -> s <> "".
Proof. intros H ->. discriminate. Qed.

End TextFacts.

(* ===================================================================== *)
(** ** The run button: lemmas                                             *)
(* ===================================================================== *)

Module RunnerFacts.
Import Text Runner TextFacts.

Lemma mentions_end (n : string) :
  exists pre post, n = (pre ++ n ++ post)%string.
Proof. exists "", "". now rewrite append_nil_r. Qed.

Lemma mentions_here (n rest : string) :
  exists pre post, (n ++ rest)%string = (pre ++ n ++ post)%string.
Proof. exists "", rest. reflexivity. Qed.

Lemma mentions_skip (n a s : string) :
  (exists pre post, s = (pre ++ n ++ post)%string) ->
  exists pre post, (a ++ s)%string = (pre ++ n ++ post)%string.
Proof.
  intros (pre & post & ->). exists (a ++ pre)%string, post.
  now rewrite append_assoc.
Qed.

Ltac mentions n :=
  repeat first [ apply (mentions_end n) | apply (mentions_here n)
               | apply mentions_skip ].

Lemma oneOf_In (ext : string) (labels : list string) :
  oneOf ext labels = true -> In ext labels.
Proof.
  unfold oneOf. intros H. apply existsb_exists in H.
  destruct H as (x & Hin & He). apply String.eqb_eq in He. now subst.
Qed.

(** The extensions the [switch] has a [case] for. *)
Lemma commandFor_Some u pr n ext opened command :
  commandFor u pr n ext = Some (opened, command) ->
  existsb (String.eqb ext) executableExtensions = true
  /\ oneOf ext ["pyx"; "pyi"; "h"] = false
  /\ (opened = [] \/
      exists usr prj url,
        u = Some usr /\ pr = Some prj /\ oneOf ext ["html"; "htm"] = true
        /\ opened = [WindowOpen url "_blank"])
  /\ exists pre post, command = (pre ++ n ++ post)%string.
Proof.
  unfold commandFor.
  repeat match goal with
  | |- context [if ?b then _ else _] =>
      let E := fresh "E" in
      destruct b eqn:E;
      [ first [ apply String.eqb_eq in E | apply oneOf_In in E; simpl in E ];
        clear -E;
        intros H;
        repeat match type of E with
               | _ \/ _ => destruct E as [E|E]
               | False => destruct E
               end;
        try subst ext
      | ]
  | |- None = Some _ -> _ => discriminate
  end.
  all: try (destruct u as [usr|], pr as [prj|]).
  all: injection H as <- <-.
  all: (split; [reflexivity|]; split; [reflexivity|]; split;
        [first [ left; reflexivity
               | right; do 3 eexists; repeat split; reflexivity ]
        | mentions n ]).
Qed.

Lemma commandFor_None u pr n ext :
  oneOf ext ["pyx"; "pyi"; "h"] = true -> commandFor u pr n ext = None.
Proof.
  intros H. apply oneOf_In in H. simpl in H.
  destruct H as [<-|[<-|[<-|[]]]]; reflexivity.
Qed.

(** Every executable extension other than [pyx], [pyi] and [h] has a
    [case]. *)
Lemma commandFor_executable u pr n ext :
  existsb (String.eqb ext) executableExtensions = true ->
  oneOf ext ["pyx"; "pyi"; "h"] = false ->
  exists opened command, commandFor u pr n ext = Some (opened, command).
Proof.
  intros H Hn. apply existsb_exists in H. destruct H as (x & Hin & He).
  apply String.eqb_eq in He. subst x. unfold executableExtensions in Hin.
  simpl in Hin.
  repeat match type of Hin with
         | _ \/ _ => destruct Hin as [<-|Hin]
         | False => destruct Hin
         end;
    try discriminate Hn;
    try (destruct u as [usr|], pr as [prj|]); do 2 eexists; reflexivity.
Qed.

Lemma extensionOf_append stem ext :
  JS.hasDot ext = false ->
  extensionOf (stem ++ String "." ext) = Some (JS.toLowerCase ext).
Proof.
  intros H. unfold extensionOf.
  now rewrite (LanguageFacts.pop_split_extension stem ext H).
Qed.

Lemma extensionOf_total n : exists ext, extensionOf n = Some ext.
Proof.
  unfold extensionOf, JS.pop.
  destruct (last (JS.split "." n)) as [x|] eqn:E; [eexists; reflexivity|].
  apply last_None in E. now apply LanguageFacts.split_nonempty in E.
Qed.

(** The handler of a file that has content and a name. *)
Lemma handleRunCode_named u pr i n md text ext :
  text <> "" -> extensionOf n = Some ext ->
  handleRunCode u pr
    (Some {| id := i; name := Some n; metadata := md; content := Some text |})
  = match commandFor u pr n ext with
    | None => Completed []
    | Some (opened, command) =>
        Completed (opened ++ [RunInTerminal command; ShowTerminal])
    end.
Proof.
  intros Ht He. unfold handleRunCode. simpl.
  apply String.eqb_neq in Ht. rewrite Ht, He. reflexivity.
Qed.

Lemma memoized_same (first r : Render) :
  r_file r = r_file first -> r_project r = r_project first ->
  memoized first r = first.
Proof.
  intros Hf Hp. unfold memoized. rewrite bool_decide_true; [reflexivity|].
  now rewrite Hf, Hp.
Qed.

Lemma handlerAfter_same (first : Render) (rs : list Render) :
  Forall (fun r => r_file r = r_file first /\ r_project r = r_project first) rs ->
  handlerAfter first rs = first.
Proof.
  unfold handlerAfter. induction 1 as [|r rs [Hf Hp] _ IH]; [reflexivity|].
  simpl. now rewrite memoized_same.
Qed.

End RunnerFacts.

(* ===================================================================== *)
(** ** Properties of the toolbar                                          *)
(* ===================================================================== *)

(** X1. A file the toolbar shows the run button for is one whose language
    the toolbar's detector finds in its table: the button's title never
    names the fallback language by default. *)
Theorem executable_file_has_a_language (f : File) :
  Runner.isExecutableFile (Some f) = true ->
  exists n ext lang,
    name f = Some n
    /\ Runner.extensionOf n = Some ext
    /\ JS.own Toolbar.languageMap ext = Some lang
    /\ Toolbar.getLanguageFromFile (Some f) = JS.Str lang.
Proof.
  destruct f as [i [n|] md ct]; [|discriminate].
  unfold Runner.isExecutableFile, Toolbar.getLanguageFromFile.
  cbv beta iota.
  change (JS.toLowerCase <$> JS.pop (JS.split "." n))
    with (Runner.extensionOf n).
  destruct (n =? "")%string eqn:En; [discriminate|].
  destruct (Runner.extensionOf n) as [ext|] eqn:Ee; [|discriminate].
  intros H. unfold Runner.executableExtensions, existsb in H.
  repeat (apply orb_true_iff in H; destruct H as [H|H]);
    try discriminate H;
    apply String.eqb_eq in H; subst ext;
    (eexists n, _, _; split; [reflexivity|]; split; [exact Ee|];
     split; reflexivity).
Qed.

Lemma executable_file_has_a_language_witness :
  exists n ext lang,
    name (named "k" "Build.KTS" "") = Some n
    /\ Runner.extensionOf n = Some ext
    /\ JS.own Toolbar.languageMap ext = Some lang
    /\ Toolbar.getLanguageFromFile (Some (named "k" "Build.KTS" ""))
       = JS.Str lang.
Proof.
  apply (executable_file_has_a_language (named "k" "Build.KTS" "")).
  vm_compute. reflexivity.
Defined.

(** X2. An enabled run button does nothing at all for three of the
    extensions it is shown for, [pyx], [pyi] and [h]: the handler has no
    case for them. For every other file with an enabled button, a click
    sends exactly one command to the terminal, a command that names the
    file, and then shows the terminal; before that it does nothing, or, for
    an [html] or [htm] file only, opens one preview window. *)
Theorem enabled_run_button (r : Runner.Render) (f : File) (n : string) :
  Runner.r_file r = Some f -> name f = Some n ->
  Runner.runButtonEnabled r = true ->
  exists ext,
    Runner.extensionOf n = Some ext
    /\ if Runner.oneOf ext ["pyx"; "pyi"; "h"]
       then Runner.click r = Runner.Completed []
       else exists opened command,
              Runner.click r =
              Runner.Completed
                (opened ++ [Runner.RunInTerminal command; Runner.ShowTerminal])
              /\ (opened = [] \/
                  exists url,
                    Runner.oneOf ext ["html"; "htm"] = true
                    /\ opened = [Runner.WindowOpen url "_blank"])
              /\ exists pre post, command = (pre ++ n ++ post)%string.
Proof.
  destruct r as [u pr file]. destruct f as [i nm md ct].
  intros Hf Hn. simpl in Hf, Hn. subst file nm.
  unfold Runner.runButtonEnabled, Runner.click, Runner.isExecutableFile.
  cbv beta iota delta [Runner.r_file Runner.r_user Runner.r_project
                       content name].
  destruct (n =? "")%string eqn:En; [discriminate|].
  destruct (Runner.extensionOf n) as [ext|] eqn:Ee; [|discriminate].
  destruct ct as [text|]; [|rewrite andb_false_r; discriminate].
  intros H. apply andb_true_iff in H. destruct H as [H _].
  apply andb_true_iff in H. destruct H as [Hx Ht].
  apply negb_true_iff, TextFacts.trimsToEmpty_nonempty in Ht.
  exists ext. split; [reflexivity|].
  rewrite (RunnerFacts.handleRunCode_named u pr i n md text ext Ht Ee).
  destruct (Runner.oneOf ext ["pyx"; "pyi"; "h"]) eqn:Eo.
  - now rewrite (RunnerFacts.commandFor_None u pr n ext Eo).
  - destruct (RunnerFacts.commandFor_executable u pr n ext Hx Eo)
      as (opened & command & Hc).
    destruct (RunnerFacts.commandFor_Some u pr n ext opened command Hc)
      as (_ & _ & Ho & Hcmd).
    rewrite Hc. exists opened, command.
    split; [reflexivity|]. split; [|exact Hcmd].
    destruct Ho as [->|(usr & prj & url & _ & _ & Hh & ->)];
      [left; reflexivity|right; exists url; split; [exact Hh|reflexivity]].
Qed.

Lemma enabled_run_button_witness :
  exists ext,
    Runner.extensionOf "types.pyi" = Some ext
    /\ if Runner.oneOf ext ["pyx"; "pyi"; "h"]
       then Runner.click
              {| Runner.r_user := Some {| Runner.user_id := "u" |};
                 Runner.r_project := None;
                 Runner.r_file := Some (named "t" "types.pyi" "x = 1") |}
            = Runner.Completed []
       else exists opened command,
              Runner.click
                {| Runner.r_user := Some {| Runner.user_id := "u" |};
                   Runner.r_project := None;
                   Runner.r_file := Some (named "t" "types.pyi" "x = 1") |}
              = Runner.Completed
                  (opened ++ [Runner.RunInTerminal command; Runner.ShowTerminal])
              /\ (opened = [] \/
                  exists url,
                    Runner.oneOf ext ["html"; "htm"] = true
                    /\ opened = [Runner.WindowOpen url "_blank"])
              /\ exists pre post,
                   command = (pre ++ "types.pyi" ++ post)%string.
Proof.
  apply (enabled_run_button
           {| Runner.r_user := Some {| Runner.user_id := "u" |};
              Runner.r_project := None;
              Runner.r_file := Some (named "t" "types.pyi" "x = 1") |}
           (named "t" "types.pyi" "x = 1") "types.pyi");
    vm_compute; reflexivity.
Defined.

(** X3. Whatever a click does, it does for an executable file only: a
    handler that completes with some action was given a file the run button
    is shown for. *)
Theorem actions_only_for_executable_files
    (u : option Runner.User) (pr : option Runner.Project) (f : File)
    (actions : list Runner.Action) :
  Runner.handleRunCode u pr (Some f) = Runner.Completed actions ->
  actions <> [] ->
  Runner.isExecutableFile (Some f) = true.
Proof.
  destruct f as [i nm md ct]. unfold Runner.handleRunCode. simpl.
  destruct ct as [text|]; [|intros [= <-] H; now destruct H].
  destruct (text =? "")%string; [intros [= <-] H; now destruct H|].
  destruct nm as [n|]; [|discriminate].
  destruct (Runner.extensionOf n) as [ext|] eqn:Ee; [|discriminate].
  destruct (Runner.commandFor u pr n ext) as [[opened command]|] eqn:Ec;
    [|intros [= <-] H; now destruct H].
  intros _ _. apply RunnerFacts.commandFor_Some in Ec. destruct Ec as (Hx & _).
  destruct (n =? "")%string eqn:En; [|exact Hx].
  apply String.eqb_eq in En. subst n. vm_compute in Ee.
  injection Ee as <-. discriminate Hx.
Qed.

Lemma actions_only_for_executable_files_witness :
  Runner.isExecutableFile (Some (named "m" "main.rs" "fn main() {}")) = true.
Proof.
  apply (actions_only_for_executable_files None None
           (named "m" "main.rs" "fn main() {}")
           [Runner.RunInTerminal
              "/root/.cargo/bin/rustc main.rs -o main && ./main";
            Runner.ShowTerminal]);
    [vm_compute; reflexivity|discriminate].
Defined.

(** X4. The file name goes into the command as it is, neither quoted nor
    escaped: every command sent to the terminal contains the file's name
    verbatim. *)
Theorem file_name_is_not_escaped
    (u : option Runner.User) (pr : option Runner.Project) (f : File)
    (n : string) (actions : list Runner.Action) (command : string) :
  name f = Some n ->
  Runner.handleRunCode u pr (Some f) = Runner.Completed actions ->
  In (Runner.RunInTerminal command) actions ->
  exists pre post, command = (pre ++ n ++ post)%string.
Proof.
  destruct f as [i nm md ct]. simpl. intros ->.
  unfold Runner.handleRunCode. simpl.
  destruct ct as [text|]; [|intros [= <-] []].
  destruct (text =? "")%string; [intros [= <-] []|].
  destruct (Runner.extensionOf n) as [ext|] eqn:Ee; [|discriminate].
  destruct (Runner.commandFor u pr n ext) as [[opened cmd]|] eqn:Ec;
    [|intros [= <-] []].
  apply RunnerFacts.commandFor_Some in Ec.
  destruct Ec as (_ & _ & Ho & Hm). intros [= <-] Hin.
  apply in_app_or in Hin. destruct Hin as [Hin|Hin].
  - destruct Ho as [->|(usr & prj & url & _ & _ & _ & ->)];
      [destruct Hin|].
    destruct Hin as [Hin|[]]. discriminate Hin.
  - destruct Hin as [[= <-]|[Hin|[]]]; [exact Hm|discriminate Hin].
Qed.

Lemma file_name_is_not_escaped_witness :
  exists pre post,
    "python x; rm -rf ~;.py" = (pre ++ "x; rm -rf ~;.py" ++ post)%string.
Proof.
  apply (file_name_is_not_escaped None None
           (named "e" "x; rm -rf ~;.py" "pass") "x; rm -rf ~;.py"
           [Runner.RunInTerminal "python x; rm -rf ~;.py";
            Runner.ShowTerminal]);
    [reflexivity|vm_compute; reflexivity|left; reflexivity].
Defined.

(** X5. For a file name without a dot before its extension, the names the
    commands derive from it are the name without the extension: the class
    of a Java file, the binary of a C, C++ or Rust file, and, with [.exe]
    or [.jar] in its place, the output of a C# or Kotlin file. *)
Theorem derived_names_of_plain_file_names
    (u : option Runner.User) (pr : option Runner.Project)
    (i : string) (md : option Metadata) (text stem : string) :
  JS.hasDot stem = false -> text <> "" ->
  let run n :=
    Runner.handleRunCode u pr
      (Some {| id := i; name := Some n; metadata := md;
               content := Some text |}) in
  let says command :=
    Runner.Completed [Runner.RunInTerminal command; Runner.ShowTerminal] in
  run (stem ++ ".java")%string
    = says ("javac " ++ (stem ++ ".java") ++ " && java " ++ stem)%string
  /\ run (stem ++ ".c")%string
    = says ("gcc " ++ (stem ++ ".c") ++ " -o " ++ stem ++ " && ./" ++ stem)%string
  /\ run (stem ++ ".cpp")%string
    = says ("g++ " ++ (stem ++ ".cpp") ++ " -o " ++ stem ++ " && ./" ++ stem)%string
  /\ run (stem ++ ".cc")%string
    = says ("g++ " ++ (stem ++ ".cc") ++ " -o " ++ stem ++ " && ./" ++ stem)%string
  /\ run (stem ++ ".cxx")%string
    = says ("g++ " ++ (stem ++ ".cxx") ++ " -o " ++ stem ++ " && ./" ++ stem)%string
  /\ run (stem ++ ".rs")%string
    = says ("/root/.cargo/bin/rustc " ++ (stem ++ ".rs") ++ " -o " ++ stem
            ++ " && ./" ++ stem)%string
  /\ run (stem ++ ".cs")%string
    = says ("mcs " ++ (stem ++ ".cs") ++ " -out:" ++ (stem ++ ".exe")
            ++ " && mono " ++ (stem ++ ".exe"))%string
  /\ run (stem ++ ".kt")%string
    = says ("/root/.sdkman/candidates/kotlin/current/bin/kotlinc "
            ++ (stem ++ ".kt") ++ " -include-runtime -d " ++ (stem ++ ".jar")
            ++ " && java -jar " ++ (stem ++ ".jar"))%string
  /\ run (stem ++ ".kts")%string
    = says ("/root/.sdkman/candidates/kotlin/current/bin/kotlinc "
            ++ (stem ++ ".kts") ++ " -include-runtime -d " ++ (stem ++ ".jar")
            ++ " && java -jar " ++ (stem ++ ".jar"))%string.
Proof.
  intros Hs Ht run says. unfold run, says.
  assert (Hfirst : forall p r,
            Text.replace (String "." p) r (stem ++ String "." p)
            = (stem ++ r)%string).
  { intros p r.
    pose proof (TextFacts.replace_first stem p r "" Hs) as H.
    now rewrite !TextFacts.append_nil_r in H. }
  assert (Hskip : forall suffix ext others r,
            JS.hasDot ext = false -> JS.hasDot suffix = false ->
            suffix <> ext ->
            Text.replaceSuffix (String "." suffix :: others) r
              (stem ++ String "." ext)
            = Text.replaceSuffix others r (stem ++ String "." ext)).
  { intros suffix ext others r He Hsu Hne.
    apply TextFacts.replaceSuffix_skip.
    destruct (Text.endsWith (String "." suffix) (stem ++ String "." ext))
      eqn:E; [|reflexivity].
    now apply TextFacts.endsWith_extension in E. }
  repeat split.
  all: match goal with
       | |- Runner.handleRunCode _ _
              (Some {| name := Some (?s ++ String "." ?e)%string |}) = _ =>
           rewrite (RunnerFacts.handleRunCode_named u pr i _ md text _ Ht
                      (RunnerFacts.extensionOf_append s e eq_refl))
       end.
  all: cbv beta iota zeta delta
         [Runner.commandFor Runner.oneOf existsb JS.toLowerCase JS.lower
          String.eqb Ascii.eqb Bool.eqb nat_of_ascii ascii_of_nat
          orb andb Nat.leb];
       simpl app.
  all: rewrite ?Hfirst.
  all: rewrite ?(Hskip "cpp" "cc"), ?(Hskip "cpp" "cxx"), ?(Hskip "cc" "cxx"),
         ?(Hskip "kt" "kts") by (reflexivity || discriminate).
  all: rewrite ?TextFacts.replaceSuffix_first.
  all: rewrite ?TextFacts.append_nil_r.
  all: reflexivity.
Qed.

Lemma derived_names_of_plain_file_names_witness :
  Runner.handleRunCode None None
    (Some (named "m" "Main.java" "class Main {}"))
  = Runner.Completed
      [Runner.RunInTerminal "javac Main.java && java Main";
       Runner.ShowTerminal].
Proof.
  generalize (derived_names_of_plain_file_names None None "m"
                (Some {| md_name := Some "Main.java" |}) "class Main {}"
                "Main").
  vm_compute. intros H. apply H; [reflexivity|discriminate].
Defined.

(** X6. [replace] with a string pattern replaces the first occurrence, not
    the extension: a C file whose name has an earlier [.c] is compiled to
    an output whose name still ends in [.c]; for [main.c.c] it is
    [main.c]. *)
Theorem earlier_occurrence_is_replaced
    (u : option Runner.User) (pr : option Runner.Project)
    (i : string) (md : option Metadata) (text a b : string) :
  JS.hasDot a = false -> text <> "" ->
  let n := (a ++ ".c" ++ b ++ ".c")%string in
  let out := (a ++ b ++ ".c")%string in
  Runner.handleRunCode u pr
    (Some {| id := i; name := Some n; metadata := md; content := Some text |})
  = Runner.Completed
      [Runner.RunInTerminal
         ("gcc " ++ n ++ " -o " ++ out ++ " && ./" ++ out)%string;
       Runner.ShowTerminal].
Proof.
  intros Ha Ht n out.
  assert (Hn : n = ((a ++ ".c" ++ b) ++ String "." "c")%string).
  { unfold n. now rewrite !TextFacts.append_assoc. }
  rewrite (RunnerFacts.handleRunCode_named u pr i n md text "c" Ht).
  - cbv beta iota zeta delta
      [Runner.commandFor Runner.oneOf existsb String.eqb Ascii.eqb Bool.eqb
       orb andb]; simpl app.
    unfold n at 2 3.
    rewrite (TextFacts.replace_first a "c" "" (b ++ ".c") Ha).
    reflexivity.
  - rewrite Hn. apply (RunnerFacts.extensionOf_append (a ++ ".c" ++ b) "c").
    reflexivity.
Qed.

Lemma earlier_occurrence_is_replaced_witness :
  Runner.handleRunCode None None (Some (named "m" "main.c.c" "int x;"))
  = Runner.Completed
      [Runner.RunInTerminal "gcc main.c.c -o main.c && ./main.c";
       Runner.ShowTerminal].
Proof.
  generalize (earlier_occurrence_is_replaced None None "m"
                (Some {| md_name := Some "main.c.c" |}) "int x;" "main" "").
  vm_compute. intros H. apply H; [reflexivity|discriminate].
Defined.

(** X7. The extension is lower-cased before the [switch], the name is not
    before the suffix is stripped: for a C++ file whose extension has an
    upper-case letter the output file of the compiler is the source file
    itself. *)
Theorem upper_case_extension_overwrites_source
    (u : option Runner.User) (pr : option Runner.Project)
    (i : string) (md : option Metadata) (text stem ext : string) :
  JS.hasDot ext = false -> text <> "" ->
  Runner.oneOf (JS.toLowerCase ext) ["cpp"; "cc"; "cxx"] = true ->
  ext <> JS.toLowerCase ext ->
  let n := (stem ++ String "." ext)%string in
  Runner.handleRunCode u pr
    (Some {| id := i; name := Some n; metadata := md; content := Some text |})
  = Runner.Completed
      [Runner.RunInTerminal ("g++ " ++ n ++ " -o " ++ n ++ " && ./" ++ n)%string;
       Runner.ShowTerminal].
Proof.
  intros He Ht Hl Hne n.
  rewrite (RunnerFacts.handleRunCode_named u pr i n md text _ Ht
             (RunnerFacts.extensionOf_append stem ext He)).
  assert (Hkeep : Text.replaceSuffix [".cpp"; ".cc"; ".cxx"] "" n = n).
  { assert (Hno : forall suffix,
              JS.hasDot suffix = false -> JS.toLowerCase suffix = suffix ->
              Text.endsWith (String "." suffix) n = false).
    { intros suffix Hs Hlow.
      destruct (Text.endsWith (String "." suffix) n) eqn:E; [|reflexivity].
      apply TextFacts.endsWith_extension in E; [|exact He|exact Hs].
      subst suffix. now rewrite Hlow in Hne. }
    rewrite !TextFacts.replaceSuffix_skip by (apply Hno; reflexivity).
    reflexivity. }
  apply RunnerFacts.oneOf_In in Hl. simpl in Hl.
  destruct Hl as [<-|[<-|[<-|[]]]];
    cbv beta iota zeta delta
      [Runner.commandFor Runner.oneOf existsb String.eqb Ascii.eqb Bool.eqb
       orb andb]; simpl app; rewrite Hkeep; reflexivity.
Qed.

Lemma upper_case_extension_overwrites_source_witness :
  Runner.handleRunCode None None (Some (named "m" "Main.CPP" "int x;"))
  = Runner.Completed
      [Runner.RunInTerminal "g++ Main.CPP -o Main.CPP && ./Main.CPP";
       Runner.ShowTerminal].
Proof.
  generalize (upper_case_extension_overwrites_source None None "m"
                (Some {| md_name := Some "Main.CPP" |}) "int x;" "Main" "CPP").
  vm_compute. intros H. apply H; [reflexivity|discriminate|reflexivity|discriminate].
Defined.

(** X8. The run handler is kept from render to render as long as the
    current file and the project stay the same; the signed-in user is not
    among its dependencies. When nobody was signed in at the render the
    handler comes from, a click never opens the preview, whoever has signed
    in since. *)
Theorem run_handler_keeps_the_user_it_was_created_with
    (first : Runner.Render) (rs : list Runner.Render)
    (actions : list Runner.Action) (url target : string) :
  Forall (fun r => Runner.r_file r = Runner.r_file first
                   /\ Runner.r_project r = Runner.r_project first) rs ->
  Runner.r_user first = None ->
  Runner.click (Runner.handlerAfter first rs) = Runner.Completed actions ->
  ~ In (Runner.WindowOpen url target) actions.
Proof.
  intros Hrs Hu. rewrite (RunnerFacts.handlerAfter_same first rs Hrs).
  unfold Runner.click. rewrite Hu. unfold Runner.handleRunCode.
  destruct (Runner.r_file first) as [f|]; [|intros [= <-] []].
  destruct (content f) as [text|]; [|intros [= <-] []].
  destruct (text =? "")%string; [intros [= <-] []|].
  destruct (name f) as [n|]; [|discriminate].
  destruct (Runner.extensionOf n) as [ext|]; [|discriminate].
  destruct (Runner.commandFor None (Runner.r_project first) n ext)
    as [[opened command]|] eqn:Ec; [|intros [= <-] []].
  apply RunnerFacts.commandFor_Some in Ec.
  destruct Ec as (_ & _ & [->|(usr & prj & url' & Hu' & _)] & _);
    [|discriminate Hu'].
  intros [= <-] [Hin|[Hin|[]]]; discriminate Hin.
Qed.

Lemma run_handler_keeps_the_user_it_was_created_with_witness :
  let page := named "p" "index.html" "<p>hi</p>" in
  let project := Some {| Runner.project_id := "p1" |} in
  let first := {| Runner.r_user := None; Runner.r_project := project;
                  Runner.r_file := Some page |} in
  let second := {| Runner.r_user := Some {| Runner.user_id := "u1" |};
                   Runner.r_project := project;
                   Runner.r_file := Some page |} in
  Runner.runButtonEnabled second = true
  /\ exists actions,
       Runner.click (Runner.handlerAfter first [second])
       = Runner.Completed actions
       /\ ~ In (Runner.WindowOpen
                  "http://localhost:3001/api/v1/preview/u1/p1?file=index.html"
                  "_blank") actions.
Proof.
  intros page project first second. split; [vm_compute; reflexivity|].
  eexists. split; [vm_compute; reflexivity|].
  apply (run_handler_keeps_the_user_it_was_created_with first [second]);
    [repeat constructor|reflexivity|vm_compute; reflexivity].
Defined.

(* ===================================================================== *)
(** ** Properties of the editor host                                      *)
(* ===================================================================== *)

(** X9. Once the component has unmounted, it never calls [saveFileContent]
    again and none of its surfaces accepts input, whatever happens next:
    edits, key presses, time passing, promises settling, new props, or the
    effects running again with the refs of the unmounted instance. *)
Theorem nothing_saved_after_unmount
    (p : Props) (fs : list (option string)) (before after : list Event) :
  forallb Conditions.committed before = true ->
  let c := run (before ++ [Teardown]) (mount p fs) in
  persisted (project (state (run after c))) = persisted (project (state c))
  /\ forall e, editable (state (run after c)) e = false.
Proof.
  intros Hb c. apply ModeFacts.dead_forever.
  unfold c, run. rewrite fold_left_app. simpl.
  fold (run before (mount p fs)).
  destruct (ModeFacts.mode_reachable p fs before Hb) as [[Ha|Hd] _].
  - apply (ModeFacts.alive_teardown p _ Ha).
  - apply (Lifecycle.teardown_inv _ (DeadFacts.finished_invariant _) _
             (DeadFacts.dead_finished _ Hd)).
Qed.

Lemma nothing_saved_after_unmount_witness :
  let c := run ([Edit 0 "b"] ++ [Teardown]) (mount (defaults (Some f1)) []) in
  persisted (project (state
    (run [Effects; Edit 0 "c"; AdvanceTo 5000; PressSave 0] c)))
  = persisted (project (state c))
  /\ forall e,
       editable (state
         (run [Effects; Edit 0 "c"; AdvanceTo 5000; PressSave 0] c)) e = false.
Proof.
  apply (nothing_saved_after_unmount (defaults (Some f1)) [] [Edit 0 "b"]
           [Effects; Edit 0 "c"; AdvanceTo 5000; PressSave 0]).
  reflexivity.
Defined.

(** X10. A commit with props that differ in any way from the previous ones
    (theme, font size, auto-save, its delay, or the current file) finishes
    the host for good: the commit itself saves nothing, so an edit waiting
    for its debounced save is dropped, and afterwards no persist call is
    ever made and no surface accepts input. *)
Theorem nothing_saved_after_new_props
    (p : Props) (fs : list (option string)) (before after : list Event)
    (q : Props) :
  forallb Conditions.committed before = true ->
  let c0 := run before (mount p fs) in
  q <> props c0 ->
  let c := run after (render q c0) in
  persisted (project (state c)) = persisted (project (state c0))
  /\ forall e, editable (state c) e = false.
Proof.
  intros Hb c0 Hq c.
  assert (Hf : Conditions.finished (persisted (project (state c0)))
                 (state (render q c0))).
  { destruct (ModeFacts.mode_reachable p fs before Hb) as [[Ha|Hd] _].
    - apply (ModeFacts.alive_render p _ q Ha).
      destruct (initDepsChanged (props c0) q) eqn:E; [exact E|].
      now apply ModeFacts.initDeps_same in E.
    - apply (Lifecycle.render_inv _ (DeadFacts.finished_invariant _) _ _
               (DeadFacts.dead_finished _ Hd)). }
  destruct Hf as [Hd Hlog].
  destruct (ModeFacts.dead_forever (render q c0) after Hd) as [H1 H2].
  split; [|exact H2]. unfold c. rewrite H1. exact Hlog.
Qed.

Lemma nothing_saved_after_new_props_witness :
  let c0 := run [Edit 0 "b"] (mount (defaults (Some f1)) []) in
  let c := run [AdvanceTo 5000; Edit 0 "c"; PressSave 0]
             (render (withFontSize 16 (defaults (Some f1))) c0) in
  persisted (project (state c)) = persisted (project (state c0))
  /\ forall e, editable (state c) e = false.
Proof.
  apply (nothing_saved_after_new_props (defaults (Some f1)) [] [Edit 0 "b"]
           [AdvanceTo 5000; Edit 0 "c"; PressSave 0]
           (withFontSize 16 (defaults (Some f1))));
    [reflexivity|vm_compute; discriminate].
Defined.

(** X11. Every persist call a mounted component ever makes is for the file
    that was current at its first commit, and it makes an auto-save only if
    it was mounted with auto-save on. In particular a component mounted
    without a file never saves, and a file that becomes current later is
    never saved. *)
Theorem saves_only_for_the_mounted_file
    (p : Props) (fs : list (option string)) (evs : list Event) :
  forallb Conditions.committed evs = true ->
  Conditions.callsFor p (persisted (project (state (run evs (mount p fs))))).
Proof. intros H. apply (ModeFacts.mode_reachable p fs evs H). Qed.

Lemma saves_only_for_the_mounted_file_witness :
  Conditions.callsFor (defaults (Some f1))
    (persisted (project (state
       (run [Edit 0 "b"; AdvanceTo 3000; Edit 0 "c"; PressSave 0]
          (mount (defaults (Some f1)) []))))).
Proof.
  apply (saves_only_for_the_mounted_file (defaults (Some f1)) []
           [Edit 0 "b"; AdvanceTo 3000; Edit 0 "c"; PressSave 0]).
  reflexivity.
Defined.

(** X12. A mounted component is in one of two modes: it works on its first
    surface exactly as its first commit set it up, with the props of that
    commit, or it is finished. There is no third mode in which it works
    with later props or on a later file. *)
Theorem alive_or_finished
    (p : Props) (fs : list (option string)) (evs : list Event) :
  forallb Conditions.committed evs = true ->
  let c := run evs (mount p fs) in
  Conditions.alive p c \/ Conditions.dead (state c).
Proof. intros H. apply (ModeFacts.mode_reachable p fs evs H). Qed.

Lemma alive_or_finished_witness :
  let c := run [Edit 0 "b"; Render (defaults None)]
             (mount (defaults (Some f1)) []) in
  Conditions.alive (defaults (Some f1)) c \/ Conditions.dead (state c).
Proof.
  apply (alive_or_finished (defaults (Some f1)) []
           [Edit 0 "b"; Render (defaults None)]).
  reflexivity.
Defined.

(** X13. When the library raises nothing, the first commit of a component
    that has a current file creates one model with the file's content and
    the detected language, shows it in the surface, and leaves the state
    clean: not loading, nothing unsaved, no error, no timer and no persist
    call. *)
Theorem file_is_loaded_at_mount
    (p : Props) (f : File) (fs : list (option string)) :
  currentFile p = Some f ->
  Forall (fun x => x = None) fs ->
  let c := mount p fs in
  let lang := Editor.getLanguageFromExtension (Editor.metadataName f) in
  models (monaco (state c))
    = [ {| tm_value := contentOrEmpty f; tm_language := lang;
           tm_disposed := false |} ]
  /\ modelRef (refs (state c)) = Some 0
  /\ valueOf (state c) 0 = contentOrEmpty f
  /\ editorState (state c)
     = {| isLoading := false; hasUnsavedChanges := false; language := lang |}
  /\ errors (project (state c)) = []
  /\ uncaught c = []
  /\ timers (loop (state c)) = []
  /\ persisted (project (state c)) = [].
Proof.
  destruct p as [th size auto delay file]. simpl. intros -> Hfs.
  destruct fs as [|x1 [|x2 [|x3 fs]]];
    repeat match goal with
           | H : Forall _ (_ :: _) |- _ =>
               apply Forall_cons in H; destruct H as [-> H]
           end;
    cbv -[Editor.getLanguageFromExtension Editor.metadataName contentOrEmpty];
    repeat split.
Qed.

Lemma file_is_loaded_at_mount_witness :
  let c := mount (defaults (Some f1)) [None; None] in
  models (monaco (state c))
    = [ {| tm_value := "a"; tm_language := JS.Str "python";
           tm_disposed := false |} ]
  /\ valueOf (state c) 0 = "a"
  /\ uncaught c = [].
Proof.
  generalize (file_is_loaded_at_mount (defaults (Some f1)) f1 [None; None]).
  vm_compute. intros H.
  destruct H as (H1 & _ & H3 & _ & _ & H6 & _);
    [reflexivity|repeat constructor|].
  repeat split; assumption.
Defined.

(** X14. When [createModel] raises while the file loads, the failure is
    reported with [setError] and escapes nowhere, loading ends, and no
    model exists; but the surface stays live and empty, wired to the file:
    with auto-save on, what the user then types is saved over the file one
    delay later. *)
Theorem failed_load_leaves_an_empty_live_surface
    (p : Props) (f : File) (msg : string) (rest : list (option string))
    (text : string) :
  currentFile p = Some f ->
  autoSave p = true ->
  let c := mount p (Some msg :: rest) in
  errors (project (state c)) = ["Failed to load file: " ++ msg]%string
  /\ uncaught c = []
  /\ isLoading (editorState (state c)) = false
  /\ models (monaco (state c)) = []
  /\ valueOf (state c) 0 = ""
  /\ persisted (project (state
       (run [Edit 0 text; AdvanceTo (autoSaveDelay p)] c)))
     = [autoSaveCall (autoSaveDelay p) f text].
Proof.
  intros Hf Ha c.
  assert (Hc : errors (project (state c)) = ["Failed to load file: " ++ msg]%string
               /\ uncaught c = []
               /\ isLoading (editorState (state c)) = false
               /\ models (monaco (state c)) = []
               /\ valueOf (state c) 0 = ""
               /\ persisted (project (state c)) = []
               /\ now (loop (state c)) = 0).
  { unfold c. destruct p as [th size auto delay file]. simpl in Hf, Ha.
    subst file auto.
    cbv -[Editor.getLanguageFromExtension Editor.metadataName contentOrEmpty].
    repeat split. }
  destruct Hc as (H1 & H2 & H3 & H4 & H5 & H6 & H7).
  repeat (split; [assumption|]).
  assert (Hr : ready p 0 (state c)) by apply SaveFacts.mount_ready.
  unfold run. simpl fold_left. rewrite !Lifecycle.state_perform.
  destruct (SaveFacts.edit_spec p 0 text (state c) Hr)
    as (Hr2 & _ & _ & Hn2 & Hp2 & Ht2 & _).
  specialize (Ht2 Ha). set (s2 := exec (edit 0 text) (state c)) in *.
  destruct (SaveFacts.advanceTo_spec p 0 (autoSaveDelay p) s2 Hr2)
    as (_ & _ & _ & _ & Hq).
  rewrite Ht2 in Hq. cbv beta iota delta [t_due t_content] in Hq.
  rewrite H7 in Hq. simpl plus in Hq. rewrite Nat.leb_refl, Hf in Hq.
  destruct Hq as [_ Hq]. rewrite Hq, Hp2, H6. reflexivity.
Qed.

Lemma failed_load_leaves_an_empty_live_surface_witness :
  let c := mount (defaults (Some f1)) [Some "out of memory"] in
  errors (project (state c)) = ["Failed to load file: out of memory"]
  /\ valueOf (state c) 0 = ""
  /\ persisted (project (state (run [Edit 0 "x"; AdvanceTo 2000] c)))
     = [autoSaveCall 2000 f1 "x"].
Proof.
  generalize (failed_load_leaves_an_empty_live_surface (defaults (Some f1)) f1
                "out of memory" [] "x").
  vm_compute. intros H.
  destruct H as (H1 & _ & _ & _ & H5 & H6); [reflexivity|reflexivity|].
  repeat split; assumption.
Defined.

(** X15. When [focus] raises after the file has been loaded and shown, the
    same handler reports "Failed to load file" although the load succeeded:
    the model is attached, the surface shows the content, the language is
    set and loading has ended. *)
Theorem focus_failure_is_reported_as_a_failed_load
    (p : Props) (f : File) (msg : string) (rest : list (option string)) :
  currentFile p = Some f ->
  let c := mount p (None :: None :: Some msg :: rest) in
  let lang := Editor.getLanguageFromExtension (Editor.metadataName f) in
  errors (project (state c)) = ["Failed to load file: " ++ msg]%string
  /\ uncaught c = []
  /\ valueOf (state c) 0 = contentOrEmpty f
  /\ modelRef (refs (state c)) = Some 0
  /\ editorState (state c)
     = {| isLoading := false; hasUnsavedChanges := false; language := lang |}.
Proof.
  destruct p as [th size auto delay file]. simpl. intros ->.
  cbv -[Editor.getLanguageFromExtension Editor.metadataName contentOrEmpty].
  repeat split.
Qed.

Lemma focus_failure_is_reported_as_a_failed_load_witness :
  let c := mount (defaults (Some f1)) [None; None; Some "no DOM node"] in
  errors (project (state c)) = ["Failed to load file: no DOM node"]
  /\ valueOf (state c) 0 = "a".
Proof.
  generalize (focus_failure_is_reported_as_a_failed_load (defaults (Some f1))
                f1 "no DOM node" []).
  vm_compute. intros H. destruct H as (H1 & _ & H3 & _); [reflexivity|].
  split; assumption.
Defined.

(* ===================================================================== *)
(** ** What the detectors can return                                      *)
(* ===================================================================== *)

Module RangeFacts.

Lemma lower_idempotent (c : ascii) : JS.lower (JS.lower c) = JS.lower c.
Proof. destruct c as [[] [] [] [] [] [] [] []]; vm_compute; reflexivity. Qed.

Lemma toLowerCase_idempotent (s : string) :
  JS.toLowerCase (JS.toLowerCase s) = JS.toLowerCase s.
Proof.
  induction s as [|c s IH]; [reflexivity|].
  simpl. now rewrite lower_idempotent, IH.
Qed.

(** A lower-cased key inherits nothing but [constructor] and
    [__proto__]: the names of the methods of [Object.prototype] all have an
    upper-case letter. *)
Lemma inherited_lower (s : string) :
  let key := JS.toLowerCase s in
  JS.inherited key = JS.Undefined
  \/ JS.inherited key = JS.ObjectConstructor
  \/ JS.inherited key = JS.ObjectPrototype.
Proof.
  intros key. unfold JS.inherited.
  destruct (key =? "constructor")%string; [right; left; reflexivity|].
  destruct (key =? "__proto__")%string; [right; right; reflexivity|].
  destruct (existsb _ _) eqn:E; [|left; reflexivity].
  exfalso. apply existsb_exists in E. destruct E as (x & Hin & He).
  apply String.eqb_eq in He. subst x.
  pose proof (toLowerCase_idempotent s) as Hi. fold key in Hi.
  simpl in Hin.
  repeat match type of Hin with
         | _ \/ _ => destruct Hin as [Hin|Hin]
         | False => destruct Hin
         end;
    rewrite <- Hin in Hi; vm_compute in Hi; discriminate Hi.
Qed.

(** [table[key] || fallback] for a lower-cased key. *)
Lemma lookup_lower (table : list (string * string)) (fallback s : string) :
  (forall k v, JS.own table k = Some v -> JS.truthy (JS.Str v) = true) ->
  let v := JS.or (JS.get table (Some (JS.toLowerCase s))) (JS.Str fallback) in
  (exists ext lang, In (ext, lang) table /\ v = JS.Str lang)
  \/ v = JS.Str fallback
  \/ v = JS.ObjectConstructor
  \/ v = JS.ObjectPrototype.
Proof.
  intros Htruthy v. unfold v, JS.get, JS.propertyKey.
  destruct (JS.own table (JS.toLowerCase s)) as [lang|] eqn:E.
  - left. exists (JS.toLowerCase s), lang.
    split; [apply (LanguageFacts.own_In _ _ _ E)|].
    unfold JS.or. now rewrite (Htruthy _ _ E).
  - right. destruct (inherited_lower s) as [H|[H|H]]; rewrite H; auto.
Qed.

End RangeFacts.

(** X16. The two language detectors return, for every file name, a language
    of their table, their fallback, or one of the two objects a lower-cased
    key can inherit from [Object.prototype]: the function [Object] and
    [Object.prototype] itself. They never return [undefined], the empty
    string or a method. *)
Theorem detectors_range (filename : option string) (file : option File) :
  let v := Editor.getLanguageFromExtension filename in
  let w := Toolbar.getLanguageFromFile file in
  ((exists ext lang, In (ext, lang) Editor.languageMap /\ v = JS.Str lang)
   \/ v = JS.Str "plaintext"
   \/ v = JS.ObjectConstructor
   \/ v = JS.ObjectPrototype)
  /\ ((exists ext lang, In (ext, lang) Toolbar.languageMap /\ w = JS.Str lang)
      \/ w = JS.Str "javascript"
      \/ w = JS.ObjectConstructor
      \/ w = JS.ObjectPrototype).
Proof.
  intros v w. split.
  - unfold v, Editor.getLanguageFromExtension, Editor.extensionOf.
    destruct filename as [n|]; [|right; left; reflexivity].
    destruct (JS.pop (JS.split "." n)) as [x|] eqn:E.
    + apply (RangeFacts.lookup_lower Editor.languageMap "plaintext" x).
      apply LanguageFacts.editor_values_truthy.
    + right; left; reflexivity.
  - unfold w, Toolbar.getLanguageFromFile.
    destruct file as [[i [n|] md ct]|]; try (right; left; reflexivity).
    destruct (n =? "")%string; [right; left; reflexivity|].
    destruct (JS.pop (JS.split "." n)) as [x|] eqn:E.
    + apply (RangeFacts.lookup_lower Toolbar.languageMap "javascript" x).
      apply LanguageFacts.toolbar_values_truthy.
    + right; left; reflexivity.
Qed.

(* ===================================================================== *)
(** ** The unsaved-changes indicator                                      *)
(* ===================================================================== *)

Module IndicatorFacts.
Import Host React Logic Rules Lifecycle.
Local Open Scope host_scope.

(** An edit of the live surface marks the content as unsaved. *)
Lemma edit_marks_unsaved p e text s :
  ready p e s ->
  hasUnsavedChanges (editorState (exec (edit e text) s)) = true.
Proof.
  intros Hr. pose proof (SaveFacts.ready_tracked _ _ _ Hr) as Htr.
  destruct Hr as (Href & (ed & He & Hd & Hl & Hc) & Honly & Hed & Hpend & Hone).
  pose proof (SaveFacts.writeBuffer_spec e text s ed He Hed) as W.
  unfold edit, exec, raises, bind, gets in *. rewrite Hed.
  destruct (writeBuffer e text s) as [[[]|msg] s1]; simpl in W;
    destruct W as (Wr & Wrefs & Wloop & Wproj & Wui & Wval & Wed
                   & (ed1 & He1 & Hd1 & Hl1 & Hc1) & Woth);
    [|discriminate].
  rewrite (SaveFacts.fireContentChanged_live e p ed1 s1) by congruence.
  unfold contentListener, bind, setEditorState, modify, getValue, gets.
  set (s2 := with_editorState (set_hasUnsavedChanges true) s1).
  destruct (autoSave p); [|reflexivity].
  assert (Htr2 : tracked s2).
  { intros t Ht. change (t ∈ timers (loop s1)) in Ht.
    change (saveTimeoutRef (refs s1) = Some (t_id t)).
    rewrite Wloop in Ht. rewrite Wrefs. apply Htr, Ht. }
  pose proof (SaveFacts.debouncedSave_spec p (valueOf s2 e) s2 Htr2) as D.
  unfold exec in D.
  destruct (debouncedSave p (valueOf s2 e) s2) as [[[]|msg] s3]; simpl in *;
    destruct D as (_ & _ & _ & _ & _ & _ & Dui & _); rewrite Dui; reflexivity.
Qed.

(** Ctrl/Cmd+S leaves one more persist call pending, for the text shown. *)
Lemma pressSave_pending p e s f :
  ready p e s -> currentFile p = Some f ->
  inflight (project (exec (pressSave e) s))
  = inflight (project s) ++ [manualSaveCall (now (loop s)) f (valueOf s e)].
Proof.
  intros (Href & (ed & He & Hd & Hl & Hc) & _) Hf.
  unfold pressSave, exec, bind, gets. rewrite He.
  destruct ed; simpl in *; subst. unfold handleSave. rewrite Hf.
  unfold bind, gets. rewrite Href. reflexivity.
Qed.

(** A pending persist call that succeeds clears the indicator, whatever
    the surface shows by then. *)
Lemma settle_clears k s call :
  inflight (project s) !! k = Some call ->
  hasUnsavedChanges (editorState (exec (settle k Resolved) s)) = false.
Proof.
  intros H. unfold settle, exec, bind, gets. rewrite H. reflexivity.
Qed.

End IndicatorFacts.

(** X17. The indicator of unsaved changes is cleared when a persist call
    succeeds, not when the text on display has been saved: after an edit, a
    manual save, and a second edit made before the save completes, the
    completion marks the content as saved although the save carried the
    text of the first edit and the surface shows the second. *)
Theorem save_indicator_ignores_later_edits
    (p : Props) (f : File) (fs : list (option string)) (pre : list Event)
    (text1 text2 : string) :
  currentFile p = Some f ->
  forallb userEvent pre = true ->
  let c := run pre (mount p fs) in
  let k := length (inflight (project (state c))) in
  let before := run [Edit 0 text1; PressSave 0; Edit 0 text2] c in
  let after := step before (Settle k Resolved) in
  inflight (project (state before)) !! k
    = Some (manualSaveCall (now (loop (state c))) f text1)
  /\ hasUnsavedChanges (editorState (state before)) = true
  /\ hasUnsavedChanges (editorState (state after)) = false
  /\ valueOf (state after) 0 = text2.
Proof.
  intros Hf Hpre c k before after.
  assert (Hr : ready p 0 (state c)).
  { apply SaveFacts.run_ready; [exact Hpre|apply SaveFacts.mount_ready]. }
  unfold after, before, run. simpl fold_left. simpl step.
  rewrite !Lifecycle.state_perform.
  destruct (SaveFacts.edit_spec p 0 text1 (state c) Hr)
    as (Hr1 & _ & Hv1 & Hn1 & Hp1 & _).
  set (s1 := exec (edit 0 text1) (state c)) in *.
  destruct (SaveFacts.pressSave_spec p 0 s1 Hr1) as (_ & R2 & M2 & L2 & _).
  pose proof (IndicatorFacts.pressSave_pending p 0 s1 f Hr1 Hf) as Hi2.
  set (s2 := exec (pressSave 0) s1) in *.
  assert (Hr2 : ready p 0 s2) by (apply (SaveFacts.ready_agree p 0 s1); auto).
  destruct (SaveFacts.edit_spec p 0 text2 s2 Hr2)
    as (Hr3 & _ & Hv3 & _ & Hp3 & _).
  pose proof (IndicatorFacts.edit_marks_unsaved p 0 text2 s2 Hr2) as Hu3.
  set (s3 := exec (edit 0 text2) s2) in *.
  assert (Hk : inflight (project s3) !! k
               = Some (manualSaveCall (now (loop (state c))) f text1)).
  { rewrite Hp3, Hi2, Hp1, Hv1, Hn1. unfold k.
    apply list_lookup_middle. reflexivity. }
  split; [exact Hk|]. split; [exact Hu3|].
  split; [apply (IndicatorFacts.settle_clears k s3 _ Hk)|].
  destruct (SaveFacts.settle_spec k Resolved s3) as (_ & _ & M4 & _).
  unfold valueOf in *. rewrite M4. exact Hv3.
Qed.

Lemma save_indicator_ignores_later_edits_witness :
  let c := run [] (mount (defaults (Some f1)) []) in
  let before := run [Edit 0 "b"; PressSave 0; Edit 0 "c"] c in
  let after := step before (Settle 0 Resolved) in
  inflight (project (state before)) !! 0 = Some (manualSaveCall 0 f1 "b")
  /\ hasUnsavedChanges (editorState (state before)) = true
  /\ hasUnsavedChanges (editorState (state after)) = false
  /\ valueOf (state after) 0 = "c".
Proof.
  generalize (save_indicator_ignores_later_edits (defaults (Some f1)) f1 []
                [] "b" "c").
  vm_compute. intros H. apply H; reflexivity.
Defined.

(* ===================================================================== *)
(** ** Exceptions and subscriptions along a run                           *)
(* ===================================================================== *)

Module RunFacts.
Import Host React Logic Rules Lifecycle Conditions DeadFacts ModeFacts.
Local Open Scope host_scope.

(** *** Nothing raises in a finished host *)

Lemma edit_dead e text s : dead s -> edit e text s = (Return tt, s).
Proof.
  intros (_ & _ & Ha & _). unfold edit, bind, gets.
  rewrite SaveFacts.editable_dead; [reflexivity|].
  intros ed Hl. apply (Ha e ed Hl).
Qed.

Lemma pressSave_dead e s : dead s -> pressSave e s = (Return tt, s).
Proof.
  intros (_ & _ & Ha & _). unfold pressSave, bind, gets.
  destruct (editors (monaco s) !! e) as [ed|] eqn:E; [|reflexivity].
  pose proof (Ha e ed E) as Hd. destruct ed; simpl in *; subst. reflexivity.
Qed.

Lemma advanceTo_dead t s : dead s -> raises (advanceTo t) s = false.
Proof.
  intros (_ & _ & _ & Ht). unfold advanceTo, raises, bind, gets.
  rewrite Ht. reflexivity.
Qed.

Lemma noThrow_themeEffect p : noThrow (themeEffect p).
Proof. unfold themeEffect, monaco_editor_setTheme. structural. Qed.

Lemma noThrow_fontSizeEffect p : noThrow (fontSizeEffect p).
Proof. unfold fontSizeEffect, updateOptions, update_editor. structural. Qed.

Lemma uncaught_performInit_disposed p c :
  isDisposedRef (refs (state c)) = true ->
  uncaught (performInit p c) = uncaught c.
Proof.
  intros H. unfold performInit. now rewrite (initEffect_disposed p _ H).
Qed.

Lemma uncaught_onlyIf_perform b m c :
  raises m (state c) = false -> uncaught (onlyIf b (perform m) c) = uncaught c.
Proof. intros H. destruct b; simpl; [now apply uncaught_perform|reflexivity]. Qed.

Lemma uncaught_set_props q c : uncaught (set_props q c) = uncaught c.
Proof. reflexivity. Qed.

(** A commit on a host whose cleanup leaves it finished. *)
Lemma uncaught_render_finished q c :
  dead (state (performCleanup c)) ->
  initDepsChanged (props c) q = true ->
  uncaught (render q c) = uncaught c.
Proof.
  intros Hd E. unfold render. cbv zeta. rewrite E, uncaught_set_props.
  rewrite uncaught_onlyIf_perform by apply noThrow_fontSizeEffect.
  rewrite uncaught_onlyIf_perform by apply noThrow_themeEffect.
  change (onlyIf true performCleanup c) with (performCleanup c).
  change (onlyIf true (performInit q) (performCleanup c))
    with (performInit q (performCleanup c)).
  assert (Hs : state (performInit q (performCleanup c))
               = state (performCleanup c)).
  { rewrite state_performInit. unfold exec.
    now rewrite initEffect_disposed by apply Hd. }
  rewrite uncaught_onlyIf_perform.
  - rewrite uncaught_performInit_disposed by apply Hd.
    apply uncaught_performCleanup.
  - rewrite Hs. unfold raises. now rewrite loadEffect_detached by apply Hd.
Qed.

Lemma render_unchanged q c :
  initDepsChanged (props c) q = false -> uncaught (render q c) = uncaught c.
Proof.
  intros E. apply initDeps_same in E. subst q.
  unfold render, initDepsChanged, debouncedSaveChanged, handleSaveChanged,
    loadDepsChanged, themeDepsChanged, fontSizeDepsChanged.
  rewrite !bool_decide_false by (intros H; now apply H). reflexivity.
Qed.

(** No event makes an exception escape. *)
Lemma quiet_step p c ev :
  committed ev = true ->
  (alive p c \/ dead (state c)) ->
  uncaught (step c ev) = uncaught c.
Proof.
  intros Hev Hm.
  destruct ev as [q|e text|e|t|k r| |]; try discriminate;
    [|simpl..].
  - change (step c (Render q)) with (render q c).
    destruct (initDepsChanged (props c) q) eqn:E;
      [|apply render_unchanged, E].
    apply uncaught_render_finished; [|exact E].
    destruct Hm as [Ha|Hd].
    + apply (alive_cleanup_finished p c Ha).
    + apply (performCleanup_inv _ (finished_invariant _) c (dead_finished _ Hd)).
  - apply uncaught_perform. destruct Hm as [(Hr & _)|Hd].
    + destruct (decide (e = 0)) as [->|Hne].
      * apply (SaveFacts.edit_spec p 0 text (state c) Hr).
      * unfold raises.
        now rewrite (SaveFacts.edit_other p 0 (state c) e text Hr Hne).
    + unfold raises. now rewrite (edit_dead e text _ Hd).
  - apply uncaught_perform. destruct Hm as [(Hr & _)|Hd].
    + destruct (decide (e = 0)) as [->|Hne].
      * apply (SaveFacts.pressSave_spec p 0 (state c) Hr).
      * unfold raises.
        now rewrite (SaveFacts.pressSave_other p 0 (state c) e Hr Hne).
    + unfold raises. now rewrite (pressSave_dead e _ Hd).
  - apply uncaught_perform. destruct Hm as [(Hr & _)|Hd].
    + apply (SaveFacts.advanceTo_spec p 0 t (state c) Hr).
    + apply advanceTo_dead, Hd.
  - apply uncaught_perform. apply (SaveFacts.settle_spec k r (state c)).
  - apply uncaught_teardown.
Qed.

Lemma quiet_run p evs c :
  forallb committed evs = true ->
  (alive p c \/ dead (state c)) ->
  uncaught (run evs c) = uncaught c.
Proof.
  revert c. induction evs as [|ev evs IH]; intros c Hevs Hm; [reflexivity|].
  simpl in Hevs. apply andb_true_iff in Hevs. destruct Hevs as [Hev Hevs].
  simpl. rewrite IH; [apply (quiet_step p c ev Hev Hm)|exact Hevs|].
  apply mode_only_step; assumption.
Qed.

End RunFacts.

(* ===================================================================== *)
(** ** The subscription of the content listener                           *)
(* ===================================================================== *)

Module SubscriptionFacts.
Import Host React Logic Rules Lifecycle Conditions DeadFacts ModeFacts.
Local Open Scope host_scope.

Lemma subscribed_refs p (f : Refs -> Refs) :
  (forall r, disposablesRef (f r) = disposablesRef r) ->
  preserves (subscribed p) (modify (with_refs f)).
Proof.
  intros Hf s (Hd & He). split; [|exact He].
  unfold exec, modify. simpl. now rewrite Hf.
Qed.

Lemma subscribed_update_editor p e (f : EditorSession -> EditorSession) :
  (forall ed, es_listener (f ed) = es_listener ed) ->
  preserves (subscribed p) (update_editor e f).
Proof.
  intros Hf s (Hd & ed & He & Hl). split; [exact Hd|].
  unfold exec, update_editor, modify. simpl.
  destruct (decide (e = 0)) as [->|Hne].
  - exists (f ed). rewrite list_lookup_alter_eq, He. split; [reflexivity|].
    now rewrite Hf.
  - exists ed. rewrite list_lookup_alter_ne by congruence. split; assumption.
Qed.

Lemma subscribed_mayRaise p : preserves (subscribed p) mayRaise.
Proof.
  intros s H. unfold exec, mayRaise.
  destruct (faults (monaco s)) as [|[msg|] fs]; exact H.
Qed.

Lemma subscribed_createModel p v l :
  preserves (subscribed p) (monaco_editor_createModel v l).
Proof.
  unfold monaco_editor_createModel.
  apply preserves_bind; [apply subscribed_mayRaise|intros _]. intros s H. exact H.
Qed.

Lemma subscribed_setTimeout p text q d :
  preserves (subscribed p) (setTimeout text q d).
Proof. intros s H. exact H. Qed.

Ltac subscribed_auto :=
  repeat first
    [ frame | apply subscribed_mayRaise | apply subscribed_createModel
    | apply subscribed_setTimeout
    | apply subscribed_update_editor; intros ?; reflexivity
    | apply subscribed_refs; intros ?; reflexivity
    | apply preserves_ret | apply preserves_gets | apply preserves_throw
    | apply preserves_bind; [ | intros ? ]
    | apply preserves_try_catch; [ | intros ? ]
    | apply preserves_forEach; intros ?
    | match goal with
      | |- preserves _ (match ?x with _ => _ end) => destruct x
      | |- preserves _ (if ?x then _ else _) => destruct x
      end
    | progress unfold release ].

Lemma subscribed_loadEffect p q : preserves (subscribed p) (loadEffect q).
Proof.
  unfold loadEffect, disposePreviousModel, setValue, writeBuffer,
    fireContentChanged, contentListener, debouncedSave, setModel, focus,
    safeDispose, dispose, clearTimeout, setEditorState, setError, getValue.
  subscribed_auto.
Qed.

Lemma subscribed_themeEffect p q : preserves (subscribed p) (themeEffect q).
Proof. unfold themeEffect, monaco_editor_setTheme. subscribed_auto. Qed.

Lemma subscribed_fontSizeEffect p q : preserves (subscribed p) (fontSizeEffect q).
Proof. unfold fontSizeEffect, updateOptions. subscribed_auto. Qed.

Lemma subscribed_edit p e text : preserves (subscribed p) (edit e text).
Proof.
  unfold edit, writeBuffer, fireContentChanged, contentListener, debouncedSave,
    clearTimeout, setEditorState, getValue.
  subscribed_auto.
Qed.

Lemma subscribed_pressSave p e : preserves (subscribed p) (pressSave e).
Proof.
  unfold pressSave, handleSave, saveFileContent, setError, getValue.
  subscribed_auto.
Qed.

Lemma subscribed_advanceTo p t : preserves (subscribed p) (advanceTo t).
Proof.
  unfold advanceTo, fire, timerBody, saveFileContent. subscribed_auto.
Qed.

Lemma subscribed_settle p k r : preserves (subscribed p) (settle k r).
Proof.
  unfold settle, afterSave, setEditorState, setError. subscribed_auto.
Qed.

(** The cleanups set the disposed flag first, so that their call of
    [clearDisposables] returns at once. *)
Lemma subscribed_initCleanup p e : preserves (subscribed p) (initCleanup e).
Proof.
  intros s H. unfold initCleanup.
  rewrite exec_seq by apply noThrow_modify.
  set (s1 := exec (modify _) s).
  assert (Hc : exec clearDisposables s1 = s1) by reflexivity.
  rewrite exec_seq by apply noThrow_clearDisposables. rewrite Hc.
  match goal with
  | |- subscribed p (exec ?K s1) =>
      assert (HK : preserves (subscribed p) K)
  end.
  { unfold safeDispose, dispose, clearTimeout. subscribed_auto. }
  apply HK. exact H.
Qed.

Lemma subscribed_unmountCleanup p : preserves (subscribed p) unmountCleanup.
Proof.
  intros s H. unfold unmountCleanup.
  rewrite exec_seq by apply noThrow_modify.
  set (s1 := exec (modify _) s).
  assert (Hc : exec clearDisposables s1 = s1) by reflexivity.
  rewrite exec_seq by apply noThrow_clearDisposables. rewrite Hc.
  match goal with
  | |- subscribed p (exec ?K s1) =>
      assert (HK : preserves (subscribed p) K)
  end.
  { apply preserves_bind; [apply preserves_gets|intros [m|]]; simpl fmap;
      unfold safeDispose, dispose, clearTimeout; subscribed_auto. }
  apply HK. exact H.
Qed.

Lemma subscribed_mount p fs : subscribed p (state (mount p fs)).
Proof.
  destruct p as [th size auto delay file].
  destruct file as [f|]; destruct auto;
    destruct fs as [|[m1|] [|[m2|] [|[m3|] fs]]];
    cbv -[Editor.getLanguageFromExtension Editor.metadataName contentOrEmpty];
    (split; [reflexivity|eexists; split; reflexivity]).
Qed.

Lemma subscribed_step p c ev :
  committed ev = true ->
  (alive p c \/ dead (state c)) ->
  subscribed p (state c) -> subscribed p (state (step c ev)).
Proof.
  intros Hev Hm H.
  destruct ev as [q|e text|e|t|k r| |]; try discriminate.
  - change (step c (Render q)) with (render q c).
    destruct (initDepsChanged (props c) q) eqn:E.
    + assert (Hd : dead (state (performCleanup c))).
      { destruct Hm as [Ha|Hd].
        - apply (alive_cleanup_finished p c Ha).
        - apply (performCleanup_inv _ (finished_invariant _) c
                   (dead_finished _ Hd)). }
      assert (H1 : subscribed p (state (performCleanup c))).
      { rewrite state_performCleanup. destruct (cleanup c); [|exact H].
        apply subscribed_initCleanup, H. }
      unfold render. cbv zeta. rewrite E.
      change (state (set_props q ?x)) with (state x).
      change (onlyIf true performCleanup c) with (performCleanup c).
      change (onlyIf true (performInit q) (performCleanup c))
        with (performInit q (performCleanup c)).
      assert (H2 : subscribed p (state (performInit q (performCleanup c)))).
      { rewrite state_performInit. unfold exec.
        rewrite initEffect_disposed by apply Hd. exact H1. }
      rewrite !state_onlyIf_perform.
      repeat first
        [ match goal with
          | |- subscribed p (if ?b then _ else _) => destruct b
          end
        | apply subscribed_fontSizeEffect
        | apply subscribed_themeEffect
        | apply subscribed_loadEffect ];
        exact H2.
    + apply initDeps_same in E. subst q.
      destruct (render_same c) as (Hs & _). now rewrite Hs.
  - simpl. rewrite state_perform. apply subscribed_edit, H.
  - simpl. rewrite state_perform. apply subscribed_pressSave, H.
  - simpl. rewrite state_perform. apply subscribed_advanceTo, H.
  - simpl. rewrite state_perform. apply subscribed_settle, H.
  - change (step c Teardown) with (teardown c). rewrite state_teardown.
    apply subscribed_unmountCleanup. rewrite state_performCleanup.
    destruct (cleanup c); [|exact H]. apply subscribed_initCleanup, H.
Qed.

Lemma subscribed_run p evs c :
  forallb committed evs = true ->
  (alive p c \/ dead (state c)) ->
  subscribed p (state c) -> subscribed p (state (run evs c)).
Proof.
  revert c. induction evs as [|ev evs IH]; intros c Hevs Hm H; [exact H|].
  simpl in Hevs. apply andb_true_iff in Hevs. destruct Hevs as [Hev Hevs].
  simpl. apply IH; [exact Hevs|apply mode_only_step; assumption|].
  apply subscribed_step; assumption.
Qed.

End SubscriptionFacts.

(** X18. Of the library calls that can raise (those the component guards
    with [try]: [createModel], [setModel], [focus], [dispose]; and
    [setValue]), the only one whose exception escapes the component is
    [setValue('')] in the branch of the load effect for a missing file,
    which no [try] covers, when the component mounts without a file. Every
    other failure is caught, and no later event makes the component
    throw. *)
Theorem only_setValue_can_escape
    (p : Props) (fs : list (option string)) (evs : list Event) :
  forallb Conditions.committed evs = true ->
  uncaught (run evs (mount p fs))
  = match currentFile p, fs with
    | None, Some msg :: _ => [msg]
    | _, _ => []
    end.
Proof.
  intros Hevs.
  rewrite (RunFacts.quiet_run p evs (mount p fs) Hevs)
    by (left; apply ModeFacts.alive_mount).
  destruct p as [th size auto delay file].
  destruct file as [f|]; destruct auto;
    destruct fs as [|[m1|] [|[m2|] [|[m3|] fs]]];
    cbv -[Editor.getLanguageFromExtension Editor.metadataName contentOrEmpty];
    reflexivity.
Qed.

Lemma only_setValue_can_escape_witness :
  uncaught (run [Edit 0 "b"; Render (defaults (Some f1)); Teardown]
              (mount (defaults None) [Some "detached"]))
  = ["detached"].
Proof.
  apply (only_setValue_can_escape (defaults None) [Some "detached"]
           [Edit 0 "b"; Render (defaults (Some f1)); Teardown]).
  reflexivity.
Defined.

(** X19. The host never disposes the subscription of its content listener:
    both cleanups set the disposed flag before they call
    [clearDisposables], which then returns at once. In every run the
    subscription of the first commit stays in [disposablesRef] and in force
    on the first surface. *)
Theorem subscription_is_never_disposed
    (p : Props) (fs : list (option string)) (evs : list Event) :
  forallb Conditions.committed evs = true ->
  Conditions.subscribed p (state (run evs (mount p fs))).
Proof.
  intros Hevs. apply SubscriptionFacts.subscribed_run;
    [exact Hevs|left; apply ModeFacts.alive_mount
    |apply SubscriptionFacts.subscribed_mount].
Qed.

Lemma subscription_is_never_disposed_witness :
  Conditions.subscribed (defaults (Some f1))
    (state (run [Edit 0 "b"; Teardown; Teardown]
              (mount (defaults (Some f1)) []))).
Proof.
  apply (subscription_is_never_disposed (defaults (Some f1)) []
           [Edit 0 "b"; Teardown; Teardown]).
  reflexivity.
Defined.

(* ===================================================================== *)
(** ** The chat assistant: lemmas                                         *)
(* ===================================================================== *)

Module AssistantFacts.
Import Text Assistant.

Lemma length_lastN {A} n (l : list A) : length (lastN n l) <= n.
Proof. unfold lastN. rewrite length_skipn. lia. Qed.

Lemma sendMessage_ok s :
  onePending s -> Forall wellFormed (sent s) ->
  onePending (sendMessage s) /\ Forall wellFormed (sent (sendMessage s)).
Proof.
  intros Hp Hs. unfold sendMessage.
  destruct (trimsToEmpty (input s)) eqn:Et; [split; assumption|].
  destruct (isLoading s) eqn:El; [split; assumption|]. simpl. split.
  - unfold onePending in *. rewrite El in Hp. simpl. rewrite Hp.
    eexists. split; [reflexivity|]. apply last_snoc.
  - apply Forall_app. split; [exact Hs|]. constructor; [|constructor].
    split; [exact Et|apply length_lastN].
Qed.

Lemma chatSettled_ok k r s :
  onePending s -> onePending (chatSettled k r s)
                  /\ sent (chatSettled k r s) = sent s.
Proof.
  intros Hp. unfold chatSettled.
  destruct (requests s !! k) as [q|] eqn:E; [|split; [exact Hp|reflexivity]].
  split; [|reflexivity]. unfold onePending in *. simpl.
  destruct (isLoading s).
  - destruct Hp as (r0 & Hr & _). rewrite Hr in E |- *.
    destruct k as [|k]; [reflexivity|discriminate].
  - rewrite Hp in E. discriminate.
Qed.

Lemma statusSettled_ok r s :
  onePending s -> onePending (statusSettled r s)
                  /\ sent (statusSettled r s) = sent s.
Proof.
  intros Hp. unfold statusSettled.
  destruct (statusChecks s); [split; [exact Hp|reflexivity]|].
  destruct r as [st|]; [|split; [exact Hp|reflexivity]].
  destruct (available st); split; first [exact Hp|reflexivity].
Qed.

Lemma step_ok s ev :
  onePending s -> Forall wellFormed (sent s) ->
  onePending (step s ev) /\ Forall wellFormed (sent (step s ev)).
Proof.
  intros Hp Hs. destruct ev as [f|n|text|key shift| | |i|r|k r]; simpl;
    try (split; assumption).
  - unfold handleKeyPress.
    destruct ((key =? "Enter")%string && negb shift);
      [apply sendMessage_ok; assumption|split; assumption].
  - apply sendMessage_ok; assumption.
  - destruct (quickPrompts !! i); split; assumption.
  - destruct (statusSettled_ok r s Hp) as [H1 H2]. now rewrite H2.
  - destruct (chatSettled_ok k r s Hp) as [H1 H2]. now rewrite H2.
Qed.

Lemma run_ok evs s :
  onePending s -> Forall wellFormed (sent s) ->
  onePending (run evs s) /\ Forall wellFormed (sent (run evs s)).
Proof.
  revert s. induction evs as [|ev evs IH]; intros s Hp Hs; [split; assumption|].
  simpl. destruct (step_ok s ev Hp Hs) as [H1 H2]. apply (IH _ H1 H2).
Qed.

Lemma idle_step s ev :
  idle s -> offered s ev = true ->
  (forall st, ev = StatusSettles (Some st) -> available st = false) ->
  idle (step s ev).
Proof.
  intros (Ha & Hs & Hm & Hr) Ho Hst.
  destruct ev as [f|n|text|key shift| | |i|r|k r]; simpl in *;
    rewrite ?Ha in Ho; try discriminate Ho;
    try (repeat split; assumption).
  - unfold statusSettled. destruct (statusChecks s); [repeat split; assumption|].
    destruct r as [st|]; [|repeat split; assumption].
    rewrite (Hst st eq_refl). repeat split; try assumption.
    apply (Hst st eq_refl).
  - unfold chatSettled. rewrite Hr. repeat split; assumption.
Qed.

Lemma idle_run evs s :
  idle s -> feasible s evs = true ->
  (forall st, In (StatusSettles (Some st)) evs -> available st = false) ->
  idle (run evs s).
Proof.
  revert s. induction evs as [|ev evs IH]; intros s Hi Hf Hst; [exact Hi|].
  simpl in Hf. apply andb_true_iff in Hf. destruct Hf as [Ho Hf].
  simpl. apply IH; [|exact Hf|intros st Hin; apply Hst; right; exact Hin].
  apply idle_step; [exact Hi|exact Ho|].
  intros st ->. apply Hst. left. reflexivity.
Qed.

End AssistantFacts.

(* ===================================================================== *)
(** ** Properties of the chat assistant                                   *)
(* ===================================================================== *)

(** X20. The assistant never has two chat calls pending: in every run of
    the mounted component, the loading flag is set exactly while one call
    is pending, and that call is the last one made. *)
Theorem one_request_at_a_time
    (f : option Assistant.OpenFile) (evs : list Assistant.Event) :
  let s := Assistant.run evs (Assistant.mounted f) in
  if Assistant.isLoading s
  then exists r, Assistant.requests s = [r]
                 /\ last (Assistant.sent s) = Some r
  else Assistant.requests s = [].
Proof.
  intros s.
  apply (AssistantFacts.run_ok evs (Assistant.mounted f));
    [reflexivity|constructor].
Qed.

(** X21. Every chat call the assistant ever makes carries a message that
    is not blank and at most ten messages of history. *)
Theorem requests_are_well_formed
    (f : option Assistant.OpenFile) (evs : list Assistant.Event) :
  Forall Assistant.wellFormed
    (Assistant.sent (Assistant.run evs (Assistant.mounted f))).
Proof.
  apply (AssistantFacts.run_ok evs (Assistant.mounted f));
    [reflexivity|constructor].
Qed.

(** X22. As long as no availability check has reported the service as
    available, the interface offers nothing to send with: in every run the
    interface allows, no chat call is made and no message is shown. *)
Theorem nothing_sent_while_unavailable
    (f : option Assistant.OpenFile) (evs : list Assistant.Event) :
  Assistant.feasible (Assistant.mounted f) evs = true ->
  (forall st, In (Assistant.StatusSettles (Some st)) evs ->
              Assistant.available st = false) ->
  let s := Assistant.run evs (Assistant.mounted f) in
  Assistant.sent s = [] /\ Assistant.messages s = [].
Proof.
  intros Hf Hst s.
  destruct (AssistantFacts.idle_run evs (Assistant.mounted f)) as (_ & H1 & H2 & _);
    [repeat split|exact Hf|exact Hst|].
  split; assumption.
Qed.

Lemma nothing_sent_while_unavailable_witness :
  let down := {| Assistant.available := false;
                 Assistant.st_provider := None |} in
  let s := Assistant.run
             [Assistant.Elapse 5; Assistant.StatusSettles (Some down);
              Assistant.Open None; Assistant.StatusSettles None]
             (Assistant.mounted None) in
  Assistant.sent s = [] /\ Assistant.messages s = [].
Proof.
  intros down.
  apply (nothing_sent_while_unavailable None
           [Assistant.Elapse 5; Assistant.StatusSettles (Some down);
            Assistant.Open None; Assistant.StatusSettles None]).
  - reflexivity.
  - intros st [H|[H|[H|[H|[]]]]]; try discriminate H.
    injection H as <-. reflexivity.
Defined.

(** X23. Clearing the chat while a reply is awaited starts a new
    availability check and leaves the call pending. If the reply arrives
    first it is shown and then replaced by the welcome message, so it is
    lost; if the check returns first the reply is shown after the welcome
    message, without the question it answers. In both orders the chat ends
    with no call pending and not loading. *)
Theorem clearing_during_a_reply
    (s : Assistant.State) (r : Assistant.ChatRequest)
    (text : string) (by_provider : option string) (st : Assistant.Status) :
  Assistant.requests s = [r] ->
  Assistant.statusChecks s = 0 ->
  Assistant.available st = true ->
  let reply := Assistant.ChatSettles 0 (Assistant.Answered text by_provider) in
  let check := Assistant.StatusSettles (Some st) in
  let lost := Assistant.run [Assistant.ClickClear; reply; check] s in
  let late := Assistant.run [Assistant.ClickClear; check; reply] s in
  let cleared := Assistant.run [Assistant.ClickClear] s in
  Assistant.content <$> Assistant.messages lost = [Assistant.welcome st]
  /\ Assistant.content <$> Assistant.messages late
     = [Assistant.welcome st; text]
  /\ Assistant.isLoading lost = false
  /\ Assistant.requests lost = []
  /\ Assistant.isLoading late = false
  /\ Assistant.requests late = []
  /\ Assistant.messages cleared = []
  /\ Assistant.requests cleared = [r]
  /\ Assistant.statusChecks cleared = 1.
Proof.
  intros Hr Hc Ha reply check lost late cleared.
  unfold lost, late, cleared, reply, check, Assistant.run. simpl fold_left.
  unfold Assistant.step, Assistant.clearChat, Assistant.checkAIStatus,
    Assistant.chatSettled, Assistant.statusSettled.
  simpl. rewrite Hr, Hc. simpl. rewrite Ha. simpl. rewrite Hr. simpl.
  repeat split.
Qed.

Lemma clearing_during_a_reply_witness :
  let up := {| Assistant.available := true;
               Assistant.st_provider := Some "groq" |} in
  let s := Assistant.run
             [Assistant.StatusSettles (Some up); Assistant.Change "why?";
              Assistant.ClickSend]
             (Assistant.mounted None) in
  let reply := Assistant.ChatSettles 0 (Assistant.Answered "because" None) in
  let check := Assistant.StatusSettles (Some up) in
  Assistant.content <$>
    Assistant.messages (Assistant.run [Assistant.ClickClear; reply; check] s)
  = [Assistant.welcome up]
  /\ Assistant.content <$>
       Assistant.messages (Assistant.run [Assistant.ClickClear; check; reply] s)
     = [Assistant.welcome up; "because"].
Proof.
  intros up s reply check.
  destruct (clearing_during_a_reply s
              {| Assistant.message := "why?";
                 Assistant.conversationHistory :=
                   [ {| Assistant.role := "assistant";
                        Assistant.content := Assistant.welcome up;
                        Assistant.timestamp := 0;
                        Assistant.provider := None;
                        Assistant.isError := false |} ];
                 Assistant.codeContext := None |}
              "because" None up) as (H1 & H2 & _);
    [vm_compute; reflexivity|reflexivity|reflexivity|].
  split; assumption.
Defined.
